(** * chutes-audit: the synthetic probe and its trace correlation

    A shallow embedding of [audit.py]: the trace extractors
    ([_extract_target], [_extract_target_error]), the streaming loop of
    [_perform_request], the cycle ([_perform_chat], [perform_synthetic],
    [get_session]) and the loop [perform_synthetics].

    Python values are modelled as follows.
    - [str] is a [string] holding the UTF-8 bytes of the text.  The regular
      expressions of the source only test for the ASCII characters space,
      newline, digits and [+], and every literal of a pattern starts with an
      ASCII character, so matching on bytes finds the same groups as matching
      on code points.
    - A decoded JSON document is a [json] value; Python's [None] is [JNull].
    - Raising is the [Raise] case of [result]; logging, the HTTP request and
      the session calls are recorded, in order, in a trace of [event]s. *)

From Stdlib Require Import String Ascii List Bool Arith ZArith NArith QArith Lia.
Import ListNotations.
Local Close Scope Q_scope.
Local Open Scope string_scope.
Local Open Scope list_scope.

(** ** Exceptions and results *)

(** The exception classes the code can meet; all derive from [Exception]. *)
Inductive exn : Type :=
| AttributeError
| TypeError
| KeyError (key : string)
| IndexError
| AssertionError
| ValidationError
| JSONDecodeError
| ClientError          (* aiohttp: connection or payload failure *)
| SQLAlchemyError.     (* a failing session call *)

Inductive result (A : Type) : Type :=
| Ok (a : A)
| Raise (e : exn).
Arguments Ok {A} a.
Arguments Raise {A} e.

Definition rbind {A B} (r : result A) (f : A -> result B) : result B :=
  match r with
  | Ok a => f a
  | Raise e => Raise e
  end.

Declare Scope result_scope.
Delimit Scope result_scope with result.
Notation "x <-- r ;;; k" := (rbind r (fun x => k))
  (at level 61, r at next level, right associativity) : result_scope.

(** ** Strings *)

Fixpoint strip_prefix (p s : string) : option string :=
  match p with
  | EmptyString => Some s
  | String a p' =>
      match s with
      | EmptyString => None
      | String b s' => if Ascii.eqb a b then strip_prefix p' s' else None
      end
  end.

(** [bytes.startswith] *)
Definition startswith (s p : string) : bool :=
  match strip_prefix p s with
  | Some _ => true
  | None => false
  end.

Fixpoint skip (n : nat) (s : string) : string :=
  match n with
  | O => s
  | S n' => match s with
            | EmptyString => EmptyString
            | String _ s' => skip n' s'
            end
  end.

Fixpoint take (n : nat) (s : string) : string :=
  match n with
  | O => EmptyString
  | S n' => match s with
            | EmptyString => EmptyString
            | String a s' => String a (take n' s')
            end
  end.

Fixpoint all_chars (cls : ascii -> bool) (s : string) : bool :=
  match s with
  | EmptyString => true
  | String a s' => cls a && all_chars cls s'
  end.

Definition lower_ascii (a : ascii) : ascii :=
  let n := N_of_ascii a in
  if ((65 <=? n) && (n <=? 90))%N then ascii_of_N (n + 32) else a.

Fixpoint lower (s : string) : string :=
  match s with
  | EmptyString => EmptyString
  | String a s' => String (lower_ascii a) (lower s')
  end.

(** The white space of [str.strip()], on the UTF-8 bytes: U+0009..U+000D,
    U+001C..U+0020, U+0085, U+00A0, U+1680, U+2000..U+200A, U+2028, U+2029,
    U+202F, U+205F and U+3000. *)
Fixpoint all_space (bs : list N) : bool :=
  match bs with
  | [] => true
  | b :: r =>
      if (((9 <=? b) && (b <=? 13)) || ((28 <=? b) && (b <=? 32)))%N
      then all_space r
      else
        match r with
        | c :: r1 =>
            if (b =? 194)%N then ((c =? 133) || (c =? 160))%N && all_space r1
            else
              match r1 with
              | d :: r2 =>
                  if ((b =? 225) && (c =? 154) && (d =? 128))%N then all_space r2
                  else if ((b =? 226) && (c =? 128))%N
                  then (((128 <=? d) && (d <=? 138)) || (d =? 168) || (d =? 169)
                        || (d =? 175))%N && all_space r2
                  else if ((b =? 226) && (c =? 129) && (d =? 159))%N then all_space r2
                  else if ((b =? 227) && (c =? 128) && (d =? 128))%N then all_space r2
                  else false
              | [] => false
              end
        | [] => false
        end
  end.

Fixpoint bytes_of (s : string) : list N :=
  match s with
  | EmptyString => []
  | String a s' => N_of_ascii a :: bytes_of s'
  end.

(** Is [s.strip()] the empty string? *)
Definition strip_is_empty (s : string) : bool := all_space (bytes_of s).

(** ** Decoded JSON *)

#[warnings="-register-all"]
Inductive json : Type :=
| JNull
| JBool (b : bool)
| JNum (q : Q)                          (* an int or a finite float *)
| JStr (s : string)
| JArr (items : list json)
| JObj (fields : list (string * json)). (* a dict, in insertion order *)

Fixpoint assoc {V} (k : string) (o : list (string * V)) : option V :=
  match o with
  | [] => None
  | (k', v) :: o' => if String.eqb k k' then Some v else assoc k o'
  end.

(** Python truth value. *)
Definition truthy (v : json) : bool :=
  match v with
  | JNull => false
  | JBool b => b
  | JNum q => negb (Z.eqb (Qnum q) 0)
  | JStr s => negb (String.eqb s "")
  | JArr l => match l with [] => false | _ => true end
  | JObj o => match o with [] => false | _ => true end
  end.

(** [v.get(k)]: only a dict has [get]; a missing key gives [None]. *)
Definition py_get (v : json) (k : string) : result json :=
  match v with
  | JObj o => Ok (match assoc k o with Some x => x | None => JNull end)
  | _ => Raise AttributeError
  end.

(** [v[k]] on a value already known to be a dict. *)
Definition py_getitem (v : json) (k : string) : result json :=
  match v with
  | JObj o => match assoc k o with Some x => Ok x | None => Raise (KeyError k) end
  | _ => Raise TypeError
  end.

(** ** Regular expressions

    The two patterns of the source are sequences of literals and of greedy
    repetitions of a one-character class, some of them captured.  [search]
    is the backtracking search of [re.search]: leftmost start, and for each
    repetition the longest run first. *)
Module Re.

Inductive item : Type :=
| Lit (s : string)
| Rep (capture : bool) (cls : ascii -> bool) (least : nat).

Definition regex := list item.

Fixpoint span (cls : ascii -> bool) (s : string) : nat :=
  match s with
  | EmptyString => O
  | String a s' => if cls a then S (span cls s') else O
  end.

Fixpoint backtrack {A} (try : nat -> option A) (least k : nat) : option A :=
  if Nat.ltb k least then None
  else
    match try k with
    | Some r => Some r
    | None => match k with
              | O => None
              | S k' => backtrack try least k'
              end
    end.

Fixpoint match_here (p : regex) (s : string) : option (list string) :=
  match p with
  | [] => Some []
  | Lit l :: p' =>
      match strip_prefix l s with
      | Some rest => match_here p' rest
      | None => None
      end
  | Rep capture cls least :: p' =>
      backtrack
        (fun k => match match_here p' (skip k s) with
                  | Some gs => Some (if capture then take k s :: gs else gs)
                  | None => None
                  end)
        least (span cls s)
  end.

(** The groups of the leftmost match, if any. *)
Fixpoint search (p : regex) (s : string) : option (list string) :=
  match match_here p s with
  | Some gs => Some gs
  | None => match s with
            | EmptyString => None
            | String _ s' => search p s'
            end
  end.

Definition not_space (a : ascii) : bool := negb (Ascii.eqb a " ").
Definition digit (a : ascii) : bool :=
  let n := N_of_ascii a in ((48 <=? n) && (n <=? 57))%N.
Definition digit_or_plus (a : ascii) : bool := digit a || Ascii.eqb a "+".
Definition not_newline (a : ascii) : bool := negb (Ascii.eqb a "010").

(** The pattern of [_extract_target]:
    query target=([^ ]+) uid=([0-9+]+) hotkey=([^ ]+) *)
Definition query_target : regex :=
  [ Lit "query target="; Rep true not_space 1;
    Lit " uid="; Rep true digit_or_plus 1;
    Lit " hotkey="; Rep true not_space 1 ].

(** The pattern of [_extract_target_error]:
    error encountered while querying target=([^ ]+) uid=([0-9]+) hotkey=([^ ]+) coldkey=[^ ]+: G
    where the last group G is any run of characters other than newline. *)
Definition target_error : regex :=
  [ Lit "error encountered while querying target="; Rep true not_space 1;
    Lit " uid="; Rep true digit 1;
    Lit " hotkey="; Rep true not_space 1;
    Lit " coldkey="; Rep false not_space 1;
    Lit ": "; Rep true not_newline 0 ].

(** The run of [cls] stops at [s]: at its end or at a character outside. *)
Definition stops (cls : ascii -> bool) (s : string) : Prop :=
  match s with
  | EmptyString => True
  | String a _ => cls a = false
  end.

End Re.

(** [re.search(pattern, message)]: a message that is not a [str] is a
    [TypeError]. *)
Definition re_search (p : Re.regex) (message : json) : result (option (list string)) :=
  match message with
  | JStr s => Ok (Re.search p s)
  | _ => Raise TypeError
  end.

(** ** The data model of the source *)

(** [class Target(BaseModel)] *)
Record Target : Type := mkTarget {
  instance_id : string;
  invocation_id : string;
  uid : string;
  hotkey : string;
  error : option string          (* error: str = None *)
}.

(** [created_at=func.now()]: the SQL expression, evaluated by the database. *)
Inductive sql_expr : Type := func_now.

(** [class Synthetic(Base)], the row of table synthetics. *)
Record Synthetic : Type := mkSynthetic {
  syn_parent_invocation_id : string;   (* primary key *)
  syn_invocation_id : string;
  syn_instance_id : string;
  syn_chute_id : string;
  syn_miner_uid : string;
  syn_miner_hotkey : string;
  syn_created_at : sql_expr;
  syn_has_error : bool
}.

(** An instance and a chute of the fleet directory, as [load_chutes] stores
    them in [self.chutes]. *)
Record Instance : Type := mkInstance {
  active : bool;
  verified : bool
}.

Record Chute : Type := mkChute {
  chute_id : string;
  name : string;
  standard_template : option string;
  instances : list Instance
}.

(** A message of the prompt corpus and the request body built from it. *)
Record Message : Type := mkMessage {
  msg_role : string;       (* message[role] *)
  msg_content : string     (* message[content] *)
}.

Record Payload : Type := mkPayload {
  model : string;
  messages : option (list Message);
  prompt : option string;
  temperature : Q;
  seed : Z;
  max_tokens : Z;
  stream : bool;
  logprobs : bool
}.

(** One item of [resp.content]: the bytes of the line, and what
    [json.loads] makes of [chunk_bytes[6:]] ([None] when it raises
    [JSONDecodeError]).  The decoder is orjson's and is not part of the
    source: its verdict travels with the chunk. *)
Record Chunk : Type := mkChunk {
  chunk_bytes : string;
  loads : option json
}.

(** The response of the probe endpoint.  [ending] is the failure that ends
    the iteration over [content] after its chunks, if the stream breaks. *)
Record Response : Type := mkResponse {
  status : Z;
  headers : list (string * string);
  text : result string;
  content : list Chunk;
  ending : option exn
}.

(** ** pydantic *)

(** Validation of a field declared [str].  A [str] is kept and [None] is
    rejected; what happens to other values depends on the pydantic version,
    so that the validator is a parameter with these two laws. *)
Class Pydantic : Type := {
  validate_str : json -> option string;
  validate_str_str : forall s, validate_str (JStr s) = Some s;
  validate_str_none : validate_str JNull = None
}.

(** pydantic 2: only a [str] is accepted. *)
Definition strict_str (v : json) : option string :=
  match v with
  | JStr s => Some s
  | _ => None
  end.

#[export] Instance pydantic_v2 : Pydantic :=
  {| validate_str := strict_str;
     validate_str_str := fun s => eq_refl;
     validate_str_none := eq_refl |}.

(** ** Effects *)

Inductive level : Type := DEBUG | INFO | SUCCESS | WARNING | ERROR.

(** The logger calls of the source, one constructor per call site. *)
Inductive log_message : Type :=
| LoadingChutes                                  (* load_chutes *)
| NoVllmChutes                                   (* _get_vllm_chute *)
| Invoking (chute_name url : string)             (* _perform_request *)
| ErrorSending (chute : string) (status : Z)
| TargetError (error : option string)
| DataError (error : json)
| ResultBytes (n : nat)
| RequestFailed (exc : exn)
| TargetTrace (timestamp : string)               (* _debug_target *)
| ChatGenerated (n : nat)                        (* _perform_chat *)
| Attempting (task_type : string)                (* perform_synthetic *)
| Tracked (n : nat) (task_type : string).

Inductive event : Type :=
| Log (lvl : level) (message : log_message)
| Post (url : string) (payload : Payload)
| SessionOpen
| SessionAdd (row : Synthetic)
| SessionCommit
| SessionRollback
| SessionClose
| Sleep (seconds : Z).

(** A computation: the events it performs, and its value or exception. *)
Definition M (A : Type) : Type := (list event * result A)%type.

Definition ret {A} (a : A) : M A := ([], Ok a).
Definition raise {A} (e : exn) : M A := ([], Raise e).
Definition lift {A} (r : result A) : M A := ([], r).
Definition emit (ev : event) : M unit := ([ev], Ok tt).

Definition bind {A B} (m : M A) (f : A -> M B) : M B :=
  match m with
  | (t, Ok a) => let (t', r) := f a in (t ++ t', r)
  | (t, Raise e) => (t, Raise e)
  end.

(** [try: m except Exception as exc: handler exc] *)
Definition try_except {A} (m : M A) (handler : exn -> M A) : M A :=
  match m with
  | (t, Ok a) => (t, Ok a)
  | (t, Raise e) => let (t', r) := handler e in (t ++ t', r)
  end.

(** [try: m finally: cleanup] *)
Definition try_finally {A} (m : M A) (cleanup : M unit) : M A :=
  match m with
  | (t, r) =>
      match cleanup with
      | (t', Ok _) => (t ++ t', r)
      | (t', Raise e) => (t ++ t', Raise e)
      end
  end.

Declare Scope monad_scope.
Delimit Scope monad_scope with monad.
Notation "x <- m ;; k" := (bind m (fun x => k))
  (at level 61, m at next level, right associativity) : monad_scope.
Notation "m ;; k" := (bind m (fun _ => k))
  (at level 61, right associativity) : monad_scope.
Local Open Scope monad_scope.

Definition trace_of {A} (m : M A) : list event := fst m.
Definition outcome {A} (m : M A) : result A := snd m.

(** The rows the database holds after a trace: the rows added to a session
    become durable at its next successful commit; a rollback or a close
    forgets the pending ones. *)
Fixpoint committed_from (pending : list Synthetic) (t : list event) : list Synthetic :=
  match t with
  | [] => []
  | SessionAdd row :: t' => committed_from (pending ++ [row]) t'
  | SessionCommit :: t' => pending ++ committed_from [] t'
  | SessionRollback :: t' => committed_from [] t'
  | SessionClose :: t' => committed_from [] t'
  | SessionOpen :: t' => committed_from [] t'
  | _ :: t' => committed_from pending t'
  end.

Definition committed (t : list event) : list Synthetic := committed_from [] t.

Definition is_session_event (ev : event) : bool :=
  match ev with
  | SessionOpen | SessionAdd _ | SessionCommit | SessionRollback | SessionClose => true
  | _ => false
  end.

Definition is_warning (ev : event) : bool :=
  match ev with
  | Log WARNING _ => true
  | _ => false
  end.

(** ** Python helpers *)

(** [re_match.group(n)], for n from 1. *)
Definition group (n : nat) (gs : list string) : string := nth (n - 1) gs "".

(** [synthetics[-1]] *)
Definition py_last {A} (l : list A) : result A :=
  match rev l with
  | [] => Raise IndexError
  | x :: _ => Ok x
  end.

(** [assert b] *)
Definition py_assert (b : bool) : M unit :=
  if b then ret tt else raise AssertionError.

(** The truth value of [v.strip()]: only a [str] has [strip]. *)
Definition py_strip_truthy (v : json) : result bool :=
  match v with
  | JStr s => Ok (negb (strip_is_empty s))
  | _ => Raise AttributeError
  end.

(** [resp.headers[k]]: the first header of that name, whatever its case. *)
Fixpoint headers_getitem (h : list (string * string)) (k : string) : result string :=
  match h with
  | [] => Raise (KeyError k)
  | (k', v) :: h' =>
      if String.eqb (lower k) (lower k') then Ok v else headers_getitem h' k
  end.

(** [random.choice(l)], from a raw draw [r]. *)
Definition random_choice {A} (r : nat) (l : list A) : result A :=
  match l with
  | [] => Raise IndexError
  | _ => match nth_error l (r mod length l) with
         | Some x => Ok x
         | None => Raise IndexError
         end
  end.

(** [random.randint(a, b)], both ends included, from a raw draw [r]. *)
Definition randint (a b : Z) (r : Z) : Z := (a + r mod (b - a + 1))%Z.

(** [l[i]] for a non-negative index. *)
Definition py_index {A} (l : list A) (i : Z) : result A :=
  match nth_error l (Z.to_nat i) with
  | Some x => Ok x
  | None => Raise IndexError
  end.

(** [len(x)] where [x] may be [None]. *)
Definition py_len {A} (x : option (list A)) : result nat :=
  match x with
  | Some l => Ok (length l)
  | None => Raise TypeError
  end.

(** [json.loads(chunk_bytes[6:])] *)
Definition json_loads (c : Chunk) : result json :=
  match loads c with
  | Some data => Ok data
  | None => Raise JSONDecodeError
  end.

(** ** The auditor *)

(** What [__init__] leaves in [self] and the cycle reads. *)
Record Auditor : Type := mkAuditor {
  text_prompts : list (list Message);   (* each row at the configured field *)
  _running : bool
}.

(** What the outside world does during one cycle: the directory's answer
    to [load_chutes] (the values of the dict it builds), the draws of
    [random], the outcome of the POST, and whether the two commits fail. *)
Record Env : Type := mkEnv {
  fleet : result (list Chute);
  rand_task : nat;
  rand_chute : nat;
  rand_prompt : Z;
  rand_random : Q;
  rand_seed : Z;
  rand_max_tokens : Z;
  post : result Response;
  commit_inner : option exn;     (* session.commit() of perform_synthetic *)
  commit_outer : option exn      (* session.commit() of get_session *)
}.

Definition chat_url : string := "https://llm.chutes.ai/v1/chat/completions".
Definition vllm_name : string := "deepseek-ai/DeepSeek-R1-Distill-Qwen-32B".

Section Audit.
Context `{Pydantic}.

Local Open Scope result_scope.

(** [Target(invocation_id=..., instance_id=..., uid=..., hotkey=..., error=...)]:
    the groups of a match are [str]; [invocation_id] is whatever the trace
    holds and is validated. *)
Definition new_Target (invocation_id : json) (instance_id uid hotkey : string)
    (error : option string) : result Target :=
  match validate_str invocation_id with
  | Some inv => Ok (mkTarget instance_id inv uid hotkey error)
  | None => Raise ValidationError
  end.

Definition _extract_target (chunk : json) : result (option Target) :=
  trace <-- py_get chunk "trace" ;;;
  if negb (truthy trace) then Ok None
  else
    message <-- py_get trace "message" ;;;
    re_match <-- re_search Re.query_target message ;;;
    match re_match with
    | Some gs =>
        inv <-- py_get trace "invocation_id" ;;;
        target <-- new_Target inv (group 1 gs) (group 2 gs) (group 3 gs) None ;;;
        Ok (Some target)
    | None => Ok None
    end.

Definition _extract_target_error (chunk : json) : result (option Target) :=
  trace <-- py_get chunk "trace" ;;;
  if negb (truthy trace) then Ok None
  else
    message <-- py_get trace "message" ;;;
    re_match <-- re_search Re.target_error message ;;;
    match re_match with
    | Some gs =>
        inv <-- py_get trace "invocation_id" ;;;
        target <-- new_Target inv (group 1 gs) (group 2 gs) (group 3 gs)
                     (Some (group 4 gs)) ;;;
        Ok (Some target)
    | None => Ok None
    end.

(** The first item of the joined list is [chunk[trace][timestamp]]: the key
    must be there, and [join] wants a [str]. *)
Definition _debug_target (chunk : json) : M unit :=
  (trace <- lift (py_getitem chunk "trace") ;;
   timestamp <- lift (py_getitem trace "timestamp") ;;
   _ <- lift (py_getitem trace "message") ;;
   match timestamp with
   | JStr ts => emit (Log INFO (TargetTrace ts))
   | _ => raise TypeError
   end)%monad.

Local Close Scope result_scope.

Definition new_synthetic (parent_id : string) (chute : Chute) (target : Target) : Synthetic :=
  {| syn_instance_id := instance_id target;
     syn_parent_invocation_id := parent_id;
     syn_invocation_id := invocation_id target;
     syn_chute_id := chute_id chute;
     syn_miner_uid := uid target;
     syn_miner_hotkey := hotkey target;
     syn_created_at := func_now;
     syn_has_error := false |}.

Definition with_error (row : Synthetic) : Synthetic :=
  {| syn_instance_id := syn_instance_id row;
     syn_parent_invocation_id := syn_parent_invocation_id row;
     syn_invocation_id := syn_invocation_id row;
     syn_chute_id := syn_chute_id row;
     syn_miner_uid := syn_miner_uid row;
     syn_miner_hotkey := syn_miner_hotkey row;
     syn_created_at := syn_created_at row;
     syn_has_error := true |}.

(** [synthetics[-1].has_error = True] *)
Fixpoint set_last_error (synthetics : list Synthetic) : list Synthetic :=
  match synthetics with
  | [] => []
  | [row] => [with_error row]
  | row :: rest => row :: set_last_error rest
  end.

(** The body of the loop over [resp.content] in [_perform_request]:
    the list [synthetics] before the chunk, and after it. *)
Definition process_chunk (parent_id : string) (chute : Chute)
    (synthetics : list Synthetic) (c : Chunk) : M (list Synthetic) :=
  if String.eqb (chunk_bytes c) "" || negb (startswith (chunk_bytes c) "data: ")
  then ret synthetics
  else
    data <- lift (json_loads c) ;;
    _ <- lift (_extract_target data) ;;
    target <- lift (_extract_target data) ;;
    match target with
    | Some target =>
        _debug_target data ;;
        ret (synthetics ++ [new_synthetic parent_id chute target])
    | None =>
        target <- lift (_extract_target_error data) ;;
        match target with
        | Some target =>
            emit (Log WARNING (TargetError (error target))) ;;
            last <- lift (py_last synthetics) ;;
            py_assert (String.eqb (instance_id target) (syn_instance_id last)) ;;
            last <- lift (py_last synthetics) ;;
            py_assert (String.eqb (invocation_id target) (syn_invocation_id last)) ;;
            _ <- lift (py_last synthetics) ;;
            ret (set_last_error synthetics)
        | None =>
            err <- lift (py_get data "error") ;;
            if truthy err then
              e <- lift (py_getitem data "error") ;;
              emit (Log ERROR (DataError e)) ;;
              ret synthetics
            else
              res <- lift (py_get data "result") ;;
              if truthy res then
                r <- lift (py_getitem data "result") ;;
                nonblank <- lift (py_strip_truthy r) ;;
                if (nonblank : bool) then
                  emit (Log DEBUG (ResultBytes (String.length (chunk_bytes c)))) ;;
                  ret synthetics
                else ret synthetics
              else ret synthetics
        end
    end.

(** [async for chunk_bytes in resp.content: ...] over the chunks received. *)
Fixpoint consume (parent_id : string) (chute : Chute) (cs : list Chunk)
    (synthetics : list Synthetic) : M (list Synthetic) :=
  match cs with
  | [] => ret synthetics
  | c :: cs' =>
      synthetics' <- process_chunk parent_id chute synthetics c ;;
      consume parent_id chute cs' synthetics'
  end.

(** The whole iteration: the chunks, then the end of the stream or the
    failure of the read. *)
Definition read_content (parent_id : string) (chute : Chute) (resp : Response)
    : M (list Synthetic) :=
  synthetics <- consume parent_id chute (content resp) [] ;;
  match ending resp with
  | None => ret synthetics
  | Some e => raise e
  end.

Definition _perform_request (chute : Chute) (payload : Payload) (url : string)
    (answer : result Response) : M (option (list Synthetic)) :=
  try_except
    (emit (Log INFO (Invoking (name chute) url)) ;;
     emit (Post url payload) ;;
     resp <- lift answer ;;
     if negb (Z.eqb (status resp) 200) then
       _ <- lift (text resp) ;;
       emit (Log WARNING (ErrorSending (chute_id chute) (status resp))) ;;
       ret None
     else
       parent_id <- lift (headers_getitem (headers resp) "X-Chutes-InvocationID") ;;
       synthetics <- read_content parent_id chute resp ;;
       ret (Some synthetics))
    (fun exc =>
       emit (Log WARNING (RequestFailed exc)) ;;
       ret None).

Definition is_hot (chute : Chute) : bool :=
  existsb (fun instance => active instance && verified instance) (instances chute).

Definition _get_vllm_chute (chutes : list Chute) (r : nat) : M (option Chute) :=
  let vllm_chutes :=
    filter (fun chute =>
              match standard_template chute with
              | Some t => String.eqb t "vllm"
              | None => false
              end
              && is_hot chute
              && String.eqb (name chute) vllm_name)
           chutes in
  match vllm_chutes with
  | [] => emit (Log WARNING NoVllmChutes) ;; ret None
  | _ => chute <- lift (random_choice r vllm_chutes) ;; ret (Some chute)
  end.

Definition get_random_text_payload (self : Auditor) (e : Env) (model : string)
    (endpoint : string) : result Payload :=
  (messages <-- py_index (text_prompts self)
                 (randint 0 (Z.of_nat (length (text_prompts self))) (rand_prompt e)) ;;;
   let messages := map (fun message => mkMessage (msg_role message) (msg_content message))
                       messages in
   let temperature := Qplus (rand_random e) (1 # 10) in
   let seed := randint 0 1000000000 (rand_seed e) in
   let max_tokens := randint 5 20 (rand_max_tokens e) in
   if negb (String.eqb endpoint "chat") then
     first <-- py_index messages 0 ;;;
     Ok (mkPayload model None (Some (msg_content first)) temperature seed max_tokens
                   true true)
   else
     Ok (mkPayload model (Some messages) None temperature seed max_tokens true true))%result.

Definition _perform_chat (self : Auditor) (chutes : list Chute) (e : Env)
    : M (option (list Synthetic)) :=
  chute <- _get_vllm_chute chutes (rand_chute e) ;;
  match chute with
  | None => ret None
  | Some chute =>
      payload <- lift (get_random_text_payload self e (name chute) "chat") ;;
      synthetics <- _perform_request chute payload chat_url (post e) ;;
      n <- lift (py_len synthetics) ;;
      emit (Log INFO (ChatGenerated n)) ;;
      ret synthetics
  end.

(** [session.commit()] *)
Definition session_commit (fault : option exn) : M unit :=
  match fault with
  | None => emit SessionCommit
  | Some e => raise e
  end.

(** [async with get_session() as session: body].  The session is closed
    by the [finally] of [get_session] and again when the block of
    [SessionLocal()] is left. *)
Definition get_session {A} (fault : option exn) (body : M A) : M A :=
  emit SessionOpen ;;
  try_finally
    (try_finally
       (try_except
          (a <- body ;; session_commit fault ;; ret a)
          (fun e => emit SessionRollback ;; raise e))
       (emit SessionClose))
    (emit SessionClose).

Fixpoint session_add_all (synthetics : list Synthetic) : M unit :=
  match synthetics with
  | [] => ret tt
  | synthetic :: rest => emit (SessionAdd synthetic) ;; session_add_all rest
  end.

Definition load_chutes (e : Env) : M (list Chute) :=
  emit (Log DEBUG LoadingChutes) ;;
  lift (fleet e).

(** [getattr(self, f"_perform_{task_type}")()]: the class defines the chat
    task only. *)
Definition perform_task (self : Auditor) (chutes : list Chute) (e : Env)
    (task_type : string) : M (option (list Synthetic)) :=
  if String.eqb task_type "chat" then _perform_chat self chutes e
  else raise AttributeError.

Definition perform_synthetic (self : Auditor) (e : Env) : M unit :=
  chutes <- load_chutes e ;;
  task_type <- lift (random_choice (rand_task e) ["chat"]) ;;
  emit (Log INFO (Attempting task_type)) ;;
  synthetics <- perform_task self chutes e task_type ;;
  match synthetics with          (* if not synthetics: return *)
  | Some (first :: rest) =>
      get_session (commit_outer e)
        (session_add_all (first :: rest) ;;
         session_commit (commit_inner e)) ;;
      emit (Log SUCCESS (Tracked (length (first :: rest)) task_type))
  | _ => ret tt
  end.

(** [while self._running: await self.perform_synthetic(); await asyncio.sleep(60)].
    Nothing clears [_running] while the loop runs, so that it has no last
    iteration; [envs] are the environments of the cycles that are observed. *)
Fixpoint perform_synthetics (self : Auditor) (envs : list Env) : M unit :=
  match envs with
  | [] => ret tt
  | e :: envs' =>
      if _running self then
        perform_synthetic self e ;;
        emit (Sleep 60) ;;
        perform_synthetics self envs'
      else ret tt
  end.

End Audit.

(** ** The events of the trace, as the loop of [_perform_request] sees them *)

(** A chunk the loop passes over at its first test. *)
Definition unframed (c : Chunk) : bool :=
  String.eqb (chunk_bytes c) "" || negb (startswith (chunk_bytes c) "data: ").

Section Events.
Context `{Pydantic}.

(** A routing event: a framed chunk that decodes and from which
    [_extract_target] builds the target [t]. *)
Definition routing_event (c : Chunk) (t : Target) : Prop :=
  unframed c = false /\
  exists data, loads c = Some data /\ _extract_target data = Ok (Some t).

(** Its trace carries the [str] timestamp that [_debug_target] prints. *)
Definition timestamped (c : Chunk) : Prop :=
  exists data, loads c = Some data /\ outcome (_debug_target data) = Ok tt.

(** A routing error event: a framed chunk that decodes, is no routing event,
    and from which [_extract_target_error] builds the target [t]. *)
Definition routing_error_event (c : Chunk) (t : Target) : Prop :=
  unframed c = false /\
  exists data, loads c = Some data /\
    _extract_target data = Ok None /\ _extract_target_error data = Ok (Some t).

End Events.

(** A framed payload that is an object without a (truthy) trace field and
    whose [result], where the loop looks at it, is a [str]. *)
Definition traceless (c : Chunk) : bool :=
  negb (unframed c) &&
  match loads c with
  | Some (JObj o) =>
      let field k := match assoc k o with Some x => x | None => JNull end in
      negb (truthy (field "trace")) &&
      (truthy (field "error") || negb (truthy (field "result"))
       || match field "result" with JStr _ => true | _ => false end)
  | _ => false
  end.

(** White space in the sense of [str.isspace], within ASCII. *)
Definition is_whitespace (a : ascii) : bool :=
  let n := N_of_ascii a in (((9 <=? n) && (n <=? 13)) || ((28 <=? n) && (n <=? 32)))%N.

Definition no_whitespace (s : string) : bool :=
  negb (String.eqb s "") && all_chars (fun a => negb (is_whitespace a)) s.

(** ** Notions used by the statements *)

(** A trace without session calls. *)
Definition quiet (t : list event) : bool :=
  forallb (fun ev => negb (is_session_event ev)) t.

(** A record of the request whose parent id is [parent_id]. *)
Definition of_parent (parent_id : string) (row : Synthetic) : Prop :=
  syn_parent_invocation_id row = parent_id.

(** The same response with other chunks. *)
Definition with_content (resp : Response) (cs : list Chunk) : Response :=
  {| status := status resp; headers := headers resp; text := text resp;
     content := cs; ending := ending resp |}.

(** ** Sample data *)

Module Sample.

Definition quote : string := String "034"%char EmptyString.
Definition newline : string := String "010"%char EmptyString.
Definition quoted (s : string) : string := quote ++ s ++ quote.

Fixpoint members (fields : list (string * string)) : string :=
  match fields with
  | [] => ""
  | [(k, v)] => quoted k ++ ": " ++ quoted v
  | (k, v) :: rest => quoted k ++ ": " ++ quoted v ++ ", " ++ members rest
  end.

Definition trace_json (fields : list (string * string)) : json :=
  JObj [("trace", JObj (map (fun kv => (fst kv, JStr (snd kv))) fields))].

(** The server-sent-event line of a trace whose fields are plain strings,
    with its decoding. *)
Definition trace_chunk (fields : list (string * string)) : Chunk :=
  {| chunk_bytes := "data: {" ++ quoted "trace" ++ ": {" ++ members fields ++ "}}" ++ newline;
     loads := Some (trace_json fields) |}.

Definition query_a : Chunk :=
  trace_chunk [("timestamp", "2025-02-01T10:00:00.120"); ("invocation_id", "inv-a");
               ("chute_id", "chute-1");
               ("message", "query target=inst-a uid=7 hotkey=5Fa")].

Definition query_b : Chunk :=
  trace_chunk [("timestamp", "2025-02-01T10:00:01.300"); ("invocation_id", "inv-b");
               ("chute_id", "chute-1");
               ("message", "query target=inst-b uid=12 hotkey=5Gb")].

Definition error_a : Chunk :=
  trace_chunk [("timestamp", "2025-02-01T10:00:01.250"); ("invocation_id", "inv-a");
               ("chute_id", "chute-1");
               ("message", "error encountered while querying target=inst-a uid=7 hotkey=5Fa coldkey=5Ca: timed out")].

Definition error_b : Chunk :=
  trace_chunk [("timestamp", "2025-02-01T10:00:02.900"); ("invocation_id", "inv-b");
               ("chute_id", "chute-1");
               ("message", "error encountered while querying target=inst-b uid=12 hotkey=5Gb coldkey=5Cb: connection reset")].

(** A routing line without a timestamp. *)
Definition query_unstamped : Chunk :=
  trace_chunk [("invocation_id", "inv-a");
               ("message", "query target=inst-a uid=7 hotkey=5Fa")].

(** A routing line without an invocation id. *)
Definition query_anonymous : Chunk :=
  trace_chunk [("timestamp", "2025-02-01T10:00:03.000");
               ("message", "query target=inst-c uid=3 hotkey=5Hc")].

(** A framed line cut in the middle of its JSON text. *)
Definition malformed : Chunk :=
  {| chunk_bytes := "data: {" ++ quoted "trace" ++ ": {";
     loads := None |}.

(** A partial result of the completion. *)
Definition partial_result : Chunk :=
  {| chunk_bytes := "data: {" ++ quoted "result" ++ ": " ++ quoted "data: tokens" ++ "}" ++ newline;
     loads := Some (JObj [("result", JStr "data: tokens")]) |}.

(** The blank line between two events. *)
Definition blank : Chunk := {| chunk_bytes := newline; loads := None |}.

Definition target_a : Target := mkTarget "inst-a" "inv-a" "7" "5Fa" None.
Definition target_b : Target := mkTarget "inst-b" "inv-b" "12" "5Gb" None.

Definition hot_chute : Chute :=
  mkChute "chute-1" vllm_name (Some "vllm") [mkInstance true false; mkInstance true true].

Definition cold_chute : Chute :=
  mkChute "chute-2" vllm_name (Some "vllm") [mkInstance true false; mkInstance false true].

Definition auditor : Auditor :=
  {| text_prompts := [[mkMessage "user" "hello"]]; _running := true |}.

Definition ok_response (cs : list Chunk) (ending : option exn) : Response :=
  {| status := 200;
     headers := [("Content-Type", "text/event-stream"); ("x-chutes-invocationid", "parent-1")];
     text := Ok "";
     content := cs;
     ending := ending |}.

Definition rejected_response : Response :=
  {| status := 503; headers := []; text := Ok "no capacity"; content := []; ending := None |}.

Definition cycle (chutes : list Chute) (answer : result Response)
    (inner outer : option exn) : Env :=
  {| fleet := Ok chutes;
     rand_task := 0; rand_chute := 0; rand_prompt := 0;
     rand_random := 1 # 2; rand_seed := 42; rand_max_tokens := 3;
     post := answer;
     commit_inner := inner; commit_outer := outer |}.

Definition payload : Payload :=
  mkPayload vllm_name (Some [mkMessage "user" "hello"]) None (1 # 2) 42 8 true true.

End Sample.

(** ** Sample cycles *)

Module Runs.
Import Sample.

Definition record_a : Synthetic := new_synthetic "parent-1" hot_chute target_a.
Definition record_b : Synthetic := new_synthetic "parent-1" hot_chute target_b.

(** The stream breaks after the routing line of A. *)
Definition interrupted : Env :=
  cycle [hot_chute] (Ok (ok_response [query_a] (Some ClientError))) None None.

(** The endpoint answers 503. *)
Definition rejected : Env := cycle [hot_chute] (Ok rejected_response) None None.

(** The error of A arrives after the routing line of B. *)
Definition crossed : Env :=
  cycle [hot_chute] (Ok (ok_response [query_a; query_b; error_a] None)) None None.

(** A routing line and its error; the commit of the batch fails. *)
Definition uncommitted : Env :=
  cycle [hot_chute] (Ok (ok_response [query_a; error_a] None)) (Some SQLAlchemyError) None.

Definition committed_later : Env :=
  cycle [hot_chute] (Ok (ok_response [query_b] None)) None None.

(** No chute is hot. *)
Definition cold : Env := cycle [cold_chute] (Ok (ok_response [query_a] None)) None None.

End Runs.

(** ** Further notions and functions of the source *)

(** What a match of a pattern leaves in its groups: one group for each
    captured repetition, made of characters of its class, at least as many
    as the repetition asks for. *)
Fixpoint well_grouped (p : Re.regex) (gs : list string) : Prop :=
  match p with
  | [] => gs = []
  | Re.Lit _ :: p' => well_grouped p' gs
  | Re.Rep true cls least :: p' =>
      exists g gs', gs = g :: gs' /\ all_chars cls g = true /\
                    least <= String.length g /\ well_grouped p' gs'
  | Re.Rep false _ _ :: p' => well_grouped p' gs
  end.

(** Does [l] occur in [s]? *)
Fixpoint occurs (l s : string) : bool :=
  startswith s l ||
  match s with
  | EmptyString => false
  | String _ s' => occurs l s'
  end.

(** The end of a line of text: nothing, or a newline and what follows. *)
Definition line_end (s : string) : Prop := Re.stops Re.not_newline s.

(** A decoded payload on which the extractors raise: a value that is not
    an object, an object whose trace is a truthy value other than an
    object, or a trace whose message is not a string. *)
Definition unreadable (v : json) : bool :=
  match v with
  | JObj o =>
      match assoc "trace" o with
      | Some (JObj trace) =>
          match trace with
          | [] => false
          | _ => match assoc "message" trace with
                 | Some (JStr _) => false
                 | _ => true
                 end
          end
      | Some tr => truthy tr
      | None => false
      end
  | _ => true
  end.

(** What identifies a record, its flag apart. *)
Definition identity_of (row : Synthetic) :
    string * string * string * string * string * string :=
  (syn_parent_invocation_id row, syn_invocation_id row, syn_instance_id row,
   syn_chute_id row, syn_miner_uid row, syn_miner_hotkey row).

(** [after] keeps the records of [before], in their order and with their
    identity, a raised flag staying raised, and adds records behind them. *)
Definition kept (before after : list Synthetic) : Prop :=
  exists front added,
    after = front ++ added /\
    Forall2 (fun row row' =>
               identity_of row' = identity_of row /\
               (syn_has_error row = true -> syn_has_error row' = true))
            before front.

(** The number of framed chunks of a stream. *)
Definition framed_count (cs : list Chunk) : nat :=
  length (filter (fun c => negb (unframed c)) cs).

(** Kinds of events. *)
Definition is_log (ev : event) : bool :=
  match ev with Log _ _ => true | _ => false end.
Definition is_post (ev : event) : bool :=
  match ev with Post _ _ => true | _ => false end.
Definition is_sleep (ev : event) : bool :=
  match ev with Sleep _ => true | _ => false end.
Definition is_open (ev : event) : bool :=
  match ev with SessionOpen => true | _ => false end.
Definition is_close (ev : event) : bool :=
  match ev with SessionClose => true | _ => false end.

(** How many events of a kind a trace holds. *)
Definition count (kind : event -> bool) (t : list event) : nat :=
  length (filter kind t).

(** A trace of logger calls only. *)
Definition only_logs (t : list event) : bool := forallb is_log t.

(** [run]: the tables are created, then one cycle is performed and the
    function returns; what follows the [return] in the source is never
    reached.  [create_all] is the outcome of the creation of the tables,
    which is not recorded in the trace. *)
Definition run `{Pydantic} (self : Auditor) (create_all : result unit) (e : Env) : M unit :=
  (lift create_all ;; perform_synthetic self e)%monad.

(** The characters of the literals of [get_random_image_prompt]. *)
Definition double_quote : ascii := "034"%char.
Definition backslash : ascii := "092"%char.

(** [s.lstrip(a)] and [s.rstrip(a)] for a single character. *)
Fixpoint lstrip (a : ascii) (s : string) : string :=
  match s with
  | EmptyString => EmptyString
  | String b s' => if Ascii.eqb b a then lstrip a s' else s
  end.

Fixpoint rstrip (a : ascii) (s : string) : string :=
  match s with
  | EmptyString => EmptyString
  | String b s' =>
      match rstrip a s' with
      | EmptyString => if Ascii.eqb b a then EmptyString else String b EmptyString
      | r => String b r
      end
  end.

(** [s.replace(old, new)] where [old] is a backslash followed by a double
    quote and [new] is a double quote: the occurrences are replaced from
    the left and do not overlap. *)
Fixpoint unescape_quotes (s : string) : string :=
  match s with
  | EmptyString => EmptyString
  | String x s' =>
      match s' with
      | String y s'' =>
          if Ascii.eqb x backslash && Ascii.eqb y double_quote
          then String double_quote (unescape_quotes s'')
          else String x (unescape_quotes s')
      | EmptyString => String x EmptyString
      end
  end.

(** [get_random_image_prompt], over [self.image_prompts] (each row at the
    configured field) and the raw draw of [random.randint]. *)
Definition get_random_image_prompt (image_prompts : list string) (r : Z) : result string :=
  (prompt <-- py_index image_prompts
                (randint 0 (Z.of_nat (length image_prompts)) r) ;;;
   Ok (unescape_quotes (rstrip double_quote (lstrip double_quote prompt))))%result.

(** The quoted form of a prompt: between double quotes, each double quote
    of the prompt written with a backslash before it. *)
Fixpoint escape_quotes (s : string) : string :=
  match s with
  | EmptyString => EmptyString
  | String x s' =>
      if Ascii.eqb x double_quote
      then String backslash (String double_quote (escape_quotes s'))
      else String x (escape_quotes s')
  end.

Definition quoted_form (p : string) : string :=
  String double_quote (escape_quotes p ++ String double_quote EmptyString).

(** The last character of a string, if any. *)
Fixpoint last_char (s : string) : option ascii :=
  match s with
  | EmptyString => None
  | String a EmptyString => Some a
  | String _ s' => last_char s'
  end.

(** The test of the comprehension of [_get_vllm_chute]. *)
Definition eligible (chute : Chute) : bool :=
  match standard_template chute with
  | Some t => String.eqb t "vllm"
  | None => false
  end
  && is_hot chute
  && String.eqb (name chute) vllm_name.

(** ** More sample data *)

Module More.
Import Sample.

(** An error line whose coldkey token holds colons. *)
Definition error_colons : Chunk :=
  trace_chunk [("timestamp", "2025-02-01T10:00:01.250"); ("invocation_id", "inv-a");
               ("message", "error encountered while querying target=inst-a uid=7 hotkey=5Fa coldkey=5C:a:: upstream: timed out")].

(** A framed line whose payload is a JSON array. *)
Definition array_line : Chunk :=
  {| chunk_bytes := "data: [1]" ++ newline; loads := Some (JArr [JNum 1]) |}.

(** A cycle that goes through: the routing line of A, its error, the
    routing line of B. *)
Definition smooth : Env :=
  cycle [hot_chute] (Ok (ok_response [query_a; error_a; query_b] None)) None None.


(** A cycle whose stream holds no routing line. *)
Definition eventless : Env :=
  cycle [hot_chute] (Ok (ok_response [blank; partial_result] None)) None None.

(** The payload the sample cycles send. *)
Definition sent : Payload :=
  mkPayload vllm_name (Some [mkMessage "user" "hello"]) None
            (Qplus (1 # 2) (1 # 10)) 42 8 true true.

(** A corpus of image prompts: one in quoted form, one plain. *)
Definition image_prompts : list string :=
  [quoted_form ("a " ++ String double_quote "red" ++ String double_quote " fox");
   "a plain prompt"].

End More.

(** * Properties *)

(** ** The monad of computations *)

Lemma bind_ret {A B} (a : A) (f : A -> M B) : bind (ret a) f = f a.
Proof. unfold bind, ret. destruct (f a). reflexivity. Qed.

Lemma bind_lift_ok {A B} (a : A) (f : A -> M B) : bind (lift (Ok a)) f = f a.
Proof. apply bind_ret. Qed.

Lemma bind_lift_raise {A B} (e : exn) (f : A -> M B) :
  bind (lift (Raise e)) f = raise e.
Proof. reflexivity. Qed.

Lemma bind_ok {A B} (t : list event) (a : A) (f : A -> M B) :
  bind (t, Ok a) f = (t ++ trace_of (f a), outcome (f a)).
Proof. unfold bind. destruct (f a). reflexivity. Qed.

Lemma outcome_bind {A B} (m : M A) (f : A -> M B) :
  outcome (bind m f) =
  match outcome m with
  | Ok a => outcome (f a)
  | Raise e => Raise e
  end.
Proof.
  destruct m as [t [a | e]]; simpl; [destruct (f a) |]; reflexivity.
Qed.

Lemma trace_bind {A B} (m : M A) (f : A -> M B) :
  trace_of (bind m f) =
  trace_of m ++ match outcome m with
                | Ok a => trace_of (f a)
                | Raise _ => []
                end.
Proof.
  destruct m as [t [a | e]]; simpl; [destruct (f a) | rewrite app_nil_r]; reflexivity.
Qed.

Lemma bind_assoc {A B C} (m : M A) (f : A -> M B) (g : B -> M C) :
  bind (bind m f) g = bind m (fun a => bind (f a) g).
Proof.
  destruct m as [t [a | e]]; simpl; [| reflexivity].
  destruct (f a) as [t1 [b | e1]]; simpl; [| reflexivity].
  destruct (g b) as [t2 r]. rewrite app_assoc. reflexivity.
Qed.

Lemma outcome_try_except_total {A} (m : M A) (handler : exn -> M A) :
  (forall e, exists a, outcome (handler e) = Ok a) ->
  exists a, outcome (try_except m handler) = Ok a.
Proof.
  intros Hh. destruct m as [t [a | e]]; simpl.
  - exists a. reflexivity.
  - destruct (Hh e) as [a Ha]. destruct (handler e) as [t' r]. exists a. exact Ha.
Qed.

(** ** Traces without session calls *)

Lemma quiet_app (t1 t2 : list event) : quiet (t1 ++ t2) = quiet t1 && quiet t2.
Proof. apply forallb_app. Qed.

Lemma quiet_no_session (t : list event) :
  quiet t = true -> existsb is_session_event t = false.
Proof.
  induction t as [| ev t IH]; simpl; [reflexivity |].
  intros Hq. apply andb_true_iff in Hq as [Hev Ht].
  apply negb_true_iff in Hev. rewrite Hev. simpl. auto.
Qed.

Lemma quiet_committed_from (t : list event) :
  quiet t = true -> forall pending, committed_from pending t = [].
Proof.
  induction t as [| ev t IH]; simpl; [reflexivity |].
  intros Hq pending. apply andb_true_iff in Hq as [Hev Ht].
  destruct ev; simpl in Hev; try discriminate; auto.
Qed.

Lemma quiet_committed (t : list event) : quiet t = true -> committed t = [].
Proof. intros Hq. apply quiet_committed_from. exact Hq. Qed.

Lemma quiet_bind {A B} (m : M A) (f : A -> M B) :
  quiet (trace_of m) = true ->
  (forall a, outcome m = Ok a -> quiet (trace_of (f a)) = true) ->
  quiet (trace_of (bind m f)) = true.
Proof.
  intros Hm Hf. rewrite trace_bind, quiet_app, Hm. simpl.
  destruct (outcome m) as [a | e]; [apply Hf |]; reflexivity.
Qed.

Lemma quiet_try_except {A} (m : M A) (handler : exn -> M A) :
  quiet (trace_of m) = true ->
  (forall e, quiet (trace_of (handler e)) = true) ->
  quiet (trace_of (try_except m handler)) = true.
Proof.
  intros Hm Hh. destruct m as [t [a | e]]; simpl in *; [exact Hm |].
  specialize (Hh e). destruct (handler e) as [t' r]. simpl in *.
  rewrite quiet_app, Hm, Hh. reflexivity.
Qed.

Lemma quiet_lift {A} (r : result A) : quiet (trace_of (lift r)) = true.
Proof. reflexivity. Qed.

Section Quiet.
Context `{Pydantic}.

Lemma _debug_target_quiet (chunk : json) : quiet (trace_of (_debug_target chunk)) = true.
Proof.
  unfold _debug_target.
  apply quiet_bind; [reflexivity | intros trace _].
  apply quiet_bind; [reflexivity | intros timestamp _].
  apply quiet_bind; [reflexivity | intros message _].
  destruct timestamp; reflexivity.
Qed.

Lemma py_assert_quiet (b : bool) : quiet (trace_of (py_assert b)) = true.
Proof. destruct b; reflexivity. Qed.

Lemma process_chunk_quiet parent_id chute synthetics c :
  quiet (trace_of (process_chunk parent_id chute synthetics c)) = true.
Proof.
  unfold process_chunk.
  destruct (_ || _); [reflexivity |].
  apply quiet_bind; [reflexivity | intros data _].
  apply quiet_bind; [reflexivity | intros first _].
  apply quiet_bind; [reflexivity | intros [target |] _].
  - apply quiet_bind; [apply _debug_target_quiet | reflexivity].
  - apply quiet_bind; [reflexivity | intros [target |] _].
    + apply quiet_bind; [reflexivity | intros _ _].
      apply quiet_bind; [reflexivity | intros last _].
      apply quiet_bind; [apply py_assert_quiet | intros _ _].
      apply quiet_bind; [reflexivity | intros last' _].
      apply quiet_bind; [apply py_assert_quiet | intros _ _].
      apply quiet_bind; [reflexivity | reflexivity].
    + apply quiet_bind; [reflexivity | intros err _].
      destruct (truthy err).
      * apply quiet_bind; [reflexivity | intros e _]. reflexivity.
      * apply quiet_bind; [reflexivity | intros res _].
        destruct (truthy res); [| reflexivity].
        apply quiet_bind; [reflexivity | intros r _].
        apply quiet_bind; [reflexivity | intros [|] _]; reflexivity.
Qed.

Lemma consume_quiet parent_id chute cs :
  forall synthetics, quiet (trace_of (consume parent_id chute cs synthetics)) = true.
Proof.
  induction cs as [| c cs IH]; intros synthetics; simpl; [reflexivity |].
  apply quiet_bind; [apply process_chunk_quiet | intros s _; apply IH].
Qed.

Lemma _perform_request_quiet chute payload url answer :
  quiet (trace_of (_perform_request chute payload url answer)) = true.
Proof.
  unfold _perform_request, read_content.
  apply quiet_try_except; [| reflexivity].
  apply quiet_bind; [reflexivity | intros _ _].
  apply quiet_bind; [reflexivity | intros _ _].
  apply quiet_bind; [reflexivity | intros resp _].
  destruct (negb _).
  - apply quiet_bind; [reflexivity | intros _ _]. reflexivity.
  - apply quiet_bind; [reflexivity | intros parent_id _].
    apply quiet_bind; [| reflexivity].
    apply quiet_bind; [apply consume_quiet | intros s _].
    destruct (ending resp); reflexivity.
Qed.

Lemma _perform_chat_quiet self chutes e :
  quiet (trace_of (_perform_chat self chutes e)) = true.
Proof.
  unfold _perform_chat, _get_vllm_chute.
  apply quiet_bind.
  - destruct (filter _ chutes); [reflexivity |].
    apply quiet_bind; [reflexivity | reflexivity].
  - intros [chute |] _; [| reflexivity].
    apply quiet_bind; [reflexivity | intros payload _].
    apply quiet_bind; [apply _perform_request_quiet | intros s _].
    apply quiet_bind; [reflexivity | intros n _]. reflexivity.
Qed.

(** [_perform_request] catches every exception. *)
Lemma _perform_request_total chute payload url answer :
  exists r, outcome (_perform_request chute payload url answer) = Ok r.
Proof.
  unfold _perform_request. apply outcome_try_except_total.
  intros e. exists None. reflexivity.
Qed.

(** Where the request yields no list of records, [_perform_chat] yields
    none either. *)
Lemma _perform_chat_no_records self chutes e :
  (forall chute payload,
     outcome (_get_vllm_chute chutes (rand_chute e)) = Ok (Some chute) ->
     outcome (_perform_request chute payload chat_url (post e)) = Ok None) ->
  forall rows, outcome (_perform_chat self chutes e) <> Ok (Some rows).
Proof.
  intros Hnone rows. unfold _perform_chat.
  rewrite outcome_bind.
  destruct (outcome (_get_vllm_chute chutes (rand_chute e))) as [[chute |] | x];
    [| discriminate | discriminate].
  rewrite outcome_bind.
  destruct (get_random_text_payload self e (name chute) "chat") as [payload | x];
    simpl; [| discriminate].
  rewrite outcome_bind, (Hnone chute payload eq_refl). discriminate.
Qed.

(** A cycle whose request yields no list of records opens no session. *)
Lemma no_records_no_session self e :
  (forall chutes chute payload,
     fleet e = Ok chutes ->
     outcome (_get_vllm_chute chutes (rand_chute e)) = Ok (Some chute) ->
     outcome (_perform_request chute payload chat_url (post e)) = Ok None) ->
  quiet (trace_of (perform_synthetic self e)) = true.
Proof.
  intros Hnone. unfold perform_synthetic, load_chutes.
  apply quiet_bind; [| intros chutes Hchutes].
  { apply quiet_bind; [reflexivity | reflexivity]. }
  assert (Hfleet : fleet e = Ok chutes) by exact Hchutes.
  apply quiet_bind; [reflexivity | intros task_type _].
  apply quiet_bind; [reflexivity | intros _ _].
  unfold perform_task.
  destruct (String.eqb task_type "chat").
  - apply quiet_bind; [apply _perform_chat_quiet |].
    intros [[| first rest] |] Hout; try reflexivity.
    exfalso. refine (_perform_chat_no_records self chutes e _ _ Hout).
    intros chute payload Hc. exact (Hnone chutes chute payload Hfleet Hc).
  - reflexivity.
Qed.

End Quiet.

(** ** Strings and the matcher *)

Lemma append_nil_r (s : string) : (s ++ "")%string = s.
Proof. induction s as [| a s IH]; simpl; [| rewrite IH]; reflexivity. Qed.

Lemma strip_prefix_app (p s : string) : strip_prefix p (p ++ s)%string = Some s.
Proof.
  induction p as [| a p IH]; simpl; [reflexivity |].
  rewrite Ascii.eqb_refl. exact IH.
Qed.

Lemma skip_app (u s : string) : skip (String.length u) (u ++ s)%string = s.
Proof. induction u as [| a u IH]; simpl; [reflexivity | exact IH]. Qed.

Lemma take_app (u s : string) : take (String.length u) (u ++ s)%string = u.
Proof. induction u as [| a u IH]; simpl; [| rewrite IH]; reflexivity. Qed.

Lemma length_nonempty (s : string) : s <> "" -> 1 <= String.length s.
Proof. destruct s; simpl; [congruence | lia]. Qed.

Lemma all_chars_weaken (p q : ascii -> bool) (s : string) :
  (forall a, p a = true -> q a = true) ->
  all_chars p s = true -> all_chars q s = true.
Proof.
  intros Hpq. induction s as [| a s IH]; simpl; [reflexivity |].
  intros Hs. apply andb_true_iff in Hs as [Ha Hs].
  rewrite (Hpq a Ha), (IH Hs). reflexivity.
Qed.

Module ReFacts.
Import Re.

Lemma span_app (cls : ascii -> bool) (u s : string) :
  all_chars cls u = true -> stops cls s -> span cls (u ++ s)%string = String.length u.
Proof.
  intros Hu Hs. induction u as [| a u IH]; simpl in *.
  - destruct s as [| b s]; simpl in *; [reflexivity | rewrite Hs; reflexivity].
  - apply andb_true_iff in Hu as [Ha Hu]. rewrite Ha, (IH Hu). reflexivity.
Qed.

Lemma backtrack_first {A} (try : nat -> option A) (least k : nat) (r : A) :
  least <= k -> try k = Some r -> backtrack try least k = Some r.
Proof.
  intros Hle Hk. destruct k as [| k]; simpl.
  - destruct least; [| lia]. simpl. rewrite Hk. reflexivity.
  - destruct (Nat.ltb_spec (S k) least) as [Hlt | _]; [lia |].
    rewrite Hk. reflexivity.
Qed.

Lemma match_here_lit (l : string) (p : regex) (s : string) :
  match_here (Lit l :: p) (l ++ s)%string = match_here p s.
Proof. simpl. rewrite strip_prefix_app. reflexivity. Qed.

(** A repetition whose longest run lets the rest of the pattern match
    takes that run. *)
Lemma match_here_rep (capture : bool) (cls : ascii -> bool) (least : nat)
    (p : regex) (u s : string) (gs : list string) :
  all_chars cls u = true -> least <= String.length u -> stops cls s ->
  match_here p s = Some gs ->
  match_here (Rep capture cls least :: p) (u ++ s)%string
  = Some (if capture then u :: gs else gs).
Proof.
  intros Hu Hle Hs Hp. simpl. rewrite (span_app _ _ _ Hu Hs).
  apply backtrack_first; [exact Hle |].
  rewrite skip_app, Hp, take_app. reflexivity.
Qed.

Lemma search_here (p : regex) (s : string) (gs : list string) :
  match_here p s = Some gs -> search p s = Some gs.
Proof. intros Hm. destruct s; simpl; rewrite Hm; reflexivity. Qed.

Lemma digit_is_digit_or_plus (a : ascii) : digit a = true -> digit_or_plus a = true.
Proof. unfold digit_or_plus. intros ->. reflexivity. Qed.

(** The routing line with an instance, a numeric uid and a hotkey: the
    leftmost match is the whole line and its groups are the three fields. *)
Lemma search_query_target (i u h : string) :
  i <> "" -> all_chars not_space i = true ->
  u <> "" -> all_chars digit u = true ->
  h <> "" -> all_chars not_space h = true ->
  search query_target ("query target=" ++ i ++ " uid=" ++ u ++ " hotkey=" ++ h)%string
  = Some [i; u; h].
Proof.
  intros Hi Hic Hu Huc Hh Hhc. apply search_here. unfold query_target.
  rewrite match_here_lit.
  apply (match_here_rep true); [exact Hic | apply length_nonempty, Hi | reflexivity |].
  rewrite match_here_lit.
  apply (match_here_rep true);
    [ apply (all_chars_weaken digit); [exact digit_is_digit_or_plus | exact Huc]
    | apply length_nonempty, Hu | reflexivity |].
  rewrite match_here_lit.
  rewrite <- (append_nil_r h) at 1.
  apply (match_here_rep true); [exact Hhc | apply length_nonempty, Hh | exact I |].
  reflexivity.
Qed.

End ReFacts.

(** ** The loop of [_perform_request], chunk by chunk *)

Lemma outcome_try_except {A} (m : M A) (handler : exn -> M A) :
  outcome (try_except m handler) =
  match outcome m with
  | Ok a => Ok a
  | Raise e => outcome (handler e)
  end.
Proof.
  destruct m as [t [a | e]]; simpl; [reflexivity |].
  destruct (handler e); reflexivity.
Qed.

Lemma py_last_snoc {A} (l : list A) (x : A) : py_last (l ++ [x]) = Ok x.
Proof. unfold py_last. rewrite rev_unit. reflexivity. Qed.

Lemma py_last_ok {A} (l : list A) (x : A) :
  py_last l = Ok x -> exists l', l = l' ++ [x].
Proof.
  unfold py_last. intros Hl. destruct (rev l) as [| y r] eqn:Hrev; [discriminate |].
  injection Hl as ->. exists (rev r).
  rewrite <- (rev_involutive l), Hrev. reflexivity.
Qed.

Lemma set_last_error_snoc (l : list Synthetic) (row : Synthetic) :
  set_last_error (l ++ [row]) = l ++ [with_error row].
Proof.
  induction l as [| a l IH]; [reflexivity |].
  change ((a :: l) ++ [row]) with (a :: (l ++ [row])).
  change ((a :: l) ++ [with_error row]) with (a :: (l ++ [with_error row])).
  rewrite <- IH. destruct l; reflexivity.
Qed.

Lemma set_last_error_nil : set_last_error [] = [].
Proof. reflexivity. Qed.

Ltac ok_step H :=
  rewrite outcome_bind in H;
  match type of H with
  | context [match ?o with Ok _ => _ | Raise _ => _ end] =>
      let E := fresh "E" in destruct o eqn:E; [| discriminate H]
  end.

Section Steps.
Context `{Pydantic}.
Variables (parent_id : string) (chute : Chute).

Lemma process_chunk_unframed synthetics c :
  unframed c = true -> process_chunk parent_id chute synthetics c = ret synthetics.
Proof. unfold process_chunk, unframed. intros ->. reflexivity. Qed.

Lemma process_chunk_framed synthetics c data :
  unframed c = false -> loads c = Some data ->
  process_chunk parent_id chute synthetics c =
  (_ <- lift (_extract_target data) ;;
   target <- lift (_extract_target data) ;;
   match target with
   | Some target =>
       _debug_target data ;;
       ret (synthetics ++ [new_synthetic parent_id chute target])
   | None =>
       target <- lift (_extract_target_error data) ;;
       match target with
       | Some target =>
           emit (Log WARNING (TargetError (error target))) ;;
           last <- lift (py_last synthetics) ;;
           py_assert (String.eqb (instance_id target) (syn_instance_id last)) ;;
           last <- lift (py_last synthetics) ;;
           py_assert (String.eqb (invocation_id target) (syn_invocation_id last)) ;;
           _ <- lift (py_last synthetics) ;;
           ret (set_last_error synthetics)
       | None =>
           err <- lift (py_get data "error") ;;
           if truthy err then
             e <- lift (py_getitem data "error") ;;
             emit (Log ERROR (DataError e)) ;;
             ret synthetics
           else
             res <- lift (py_get data "result") ;;
             if truthy res then
               r <- lift (py_getitem data "result") ;;
               nonblank <- lift (py_strip_truthy r) ;;
               if (nonblank : bool) then
                 emit (Log DEBUG (ResultBytes (String.length (chunk_bytes c)))) ;;
                 ret synthetics
               else ret synthetics
             else ret synthetics
       end
   end)%monad.
Proof.
  unfold process_chunk, unframed, json_loads. intros -> ->.
  rewrite bind_lift_ok. reflexivity.
Qed.

Lemma process_chunk_undecodable synthetics c :
  unframed c = false -> loads c = None ->
  outcome (process_chunk parent_id chute synthetics c) = Raise JSONDecodeError.
Proof.
  unfold process_chunk, unframed, json_loads. intros -> ->. reflexivity.
Qed.

Lemma process_chunk_routing synthetics c t :
  routing_event c t -> timestamped c ->
  outcome (process_chunk parent_id chute synthetics c)
  = Ok (synthetics ++ [new_synthetic parent_id chute t]).
Proof.
  intros [Hf [data [Hl He]]] [data' [Hl' Hd]].
  rewrite Hl in Hl'. injection Hl' as <-.
  rewrite (process_chunk_framed _ _ _ Hf Hl), He, !bind_lift_ok.
  rewrite outcome_bind, Hd. reflexivity.
Qed.

Lemma process_chunk_unstamped synthetics c t e :
  routing_event c t ->
  (forall data, loads c = Some data -> outcome (_debug_target data) = Raise e) ->
  outcome (process_chunk parent_id chute synthetics c) = Raise e.
Proof.
  intros [Hf [data [Hl He]]] Hd.
  rewrite (process_chunk_framed _ _ _ Hf Hl), He, !bind_lift_ok.
  rewrite outcome_bind, (Hd _ Hl). reflexivity.
Qed.

Lemma process_chunk_error_match earlier last c t :
  routing_error_event c t ->
  instance_id t = syn_instance_id last ->
  invocation_id t = syn_invocation_id last ->
  outcome (process_chunk parent_id chute (earlier ++ [last]) c)
  = Ok (earlier ++ [with_error last]).
Proof.
  intros [Hf [data [Hl [He Hx]]]] Hi Hv.
  rewrite (process_chunk_framed _ _ _ Hf Hl), He, !bind_lift_ok, Hx, bind_lift_ok.
  rewrite py_last_snoc, set_last_error_snoc. cbn.
  rewrite Hi, Hv, !String.eqb_refl. reflexivity.
Qed.

Lemma process_chunk_error_empty c t :
  routing_error_event c t ->
  outcome (process_chunk parent_id chute [] c) = Raise IndexError.
Proof.
  intros [Hf [data [Hl [He Hx]]]].
  rewrite (process_chunk_framed _ _ _ Hf Hl), He, !bind_lift_ok, Hx, bind_lift_ok.
  reflexivity.
Qed.

Lemma process_chunk_error_mismatch earlier last c t :
  routing_error_event c t ->
  instance_id t <> syn_instance_id last \/ invocation_id t <> syn_invocation_id last ->
  outcome (process_chunk parent_id chute (earlier ++ [last]) c) = Raise AssertionError.
Proof.
  intros [Hf [data [Hl [He Hx]]]] Hne.
  rewrite (process_chunk_framed _ _ _ Hf Hl), He, !bind_lift_ok, Hx, bind_lift_ok.
  rewrite py_last_snoc. cbn.
  destruct (String.eqb_spec (instance_id t) (syn_instance_id last)) as [Hi | Hi];
    [| reflexivity].
  destruct (String.eqb_spec (invocation_id t) (syn_invocation_id last)) as [Hv | Hv];
    [| reflexivity].
  destruct Hne as [Hne | Hne]; contradiction.
Qed.

Lemma extract_untraced (o : list (string * json)) :
  truthy (match assoc "trace" o with Some x => x | None => JNull end) = false ->
  _extract_target (JObj o) = Ok None /\ _extract_target_error (JObj o) = Ok None.
Proof.
  intros Ht. unfold _extract_target, _extract_target_error. simpl.
  rewrite Ht. split; reflexivity.
Qed.

Lemma process_chunk_traceless synthetics c :
  traceless c = true ->
  outcome (process_chunk parent_id chute synthetics c) = Ok synthetics.
Proof.
  unfold traceless. intros Ht.
  apply andb_true_iff in Ht as [Hf Ht]. apply negb_true_iff in Hf.
  destruct (loads c) as [[| | | | | o] |] eqn:Hl; try discriminate.
  apply andb_true_iff in Ht as [Htrace Hrest]. apply negb_true_iff in Htrace.
  destruct (extract_untraced o Htrace) as [He Hx].
  rewrite (process_chunk_framed _ _ _ Hf Hl), He, !bind_lift_ok, Hx, bind_lift_ok.
  simpl.
  destruct (truthy (match assoc "error" o with Some x => x | None => JNull end)) eqn:Herr.
  - destruct (assoc "error" o) as [x |]; [reflexivity | discriminate].
  - simpl in Hrest.
    destruct (truthy (match assoc "result" o with Some x => x | None => JNull end))
      eqn:Hres; [| reflexivity].
    simpl in Hrest.
    destruct (assoc "result" o) as [[| | | s | |] |]; try discriminate.
    simpl. destruct (strip_is_empty s); reflexivity.
Qed.

(** What a chunk can do to the list of records. *)
Lemma process_chunk_shape synthetics c synthetics' :
  outcome (process_chunk parent_id chute synthetics c) = Ok synthetics' ->
  synthetics' = synthetics \/
  (exists t, synthetics' = synthetics ++ [new_synthetic parent_id chute t]) \/
  synthetics' = set_last_error synthetics.
Proof.
  unfold process_chunk. destruct (_ || _).
  { intros Ho. injection Ho as <-. left. reflexivity. }
  intros Ho. ok_step Ho. ok_step Ho. ok_step Ho.
  destruct a1 as [target |].
  - ok_step Ho. injection Ho as <-. right. left. exists target. reflexivity.
  - ok_step Ho. destruct a1 as [target |].
    + do 6 ok_step Ho. injection Ho as <-. right. right. reflexivity.
    + ok_step Ho. destruct (truthy a1).
      * do 2 ok_step Ho. injection Ho as <-. left. reflexivity.
      * ok_step Ho. destruct (truthy a2).
        -- do 2 ok_step Ho. destruct a4.
           ++ ok_step Ho. injection Ho as <-. left. reflexivity.
           ++ injection Ho as <-. left. reflexivity.
        -- injection Ho as <-. left. reflexivity.
Qed.

Lemma consume_app cs1 cs2 synthetics :
  consume parent_id chute (cs1 ++ cs2) synthetics =
  (synthetics' <- consume parent_id chute cs1 synthetics ;;
   consume parent_id chute cs2 synthetics')%monad.
Proof.
  revert synthetics. induction cs1 as [| c cs1 IH]; intros synthetics;
    cbn [consume app].
  - rewrite bind_ret. reflexivity.
  - rewrite bind_assoc.
    destruct (process_chunk parent_id chute synthetics c) as [t [s | e]];
      [| reflexivity].
    cbn [bind]. rewrite IH. reflexivity.
Qed.

Lemma outcome_consume_app cs1 cs2 synthetics :
  outcome (consume parent_id chute (cs1 ++ cs2) synthetics) =
  match outcome (consume parent_id chute cs1 synthetics) with
  | Ok synthetics' => outcome (consume parent_id chute cs2 synthetics')
  | Raise e => Raise e
  end.
Proof. rewrite consume_app. apply outcome_bind. Qed.

Lemma outcome_consume_cons c cs synthetics :
  outcome (consume parent_id chute (c :: cs) synthetics) =
  match outcome (process_chunk parent_id chute synthetics c) with
  | Ok synthetics' => outcome (consume parent_id chute cs synthetics')
  | Raise e => Raise e
  end.
Proof. apply outcome_bind. Qed.

(** A chunk that raises ends the loop where it stands. *)
Lemma consume_raises before c after synthetics e :
  outcome (consume parent_id chute before []) = Ok synthetics ->
  outcome (process_chunk parent_id chute synthetics c) = Raise e ->
  outcome (consume parent_id chute (before ++ c :: after) []) = Raise e.
Proof.
  intros Hb Hc. rewrite outcome_consume_app, Hb, outcome_consume_cons, Hc.
  reflexivity.
Qed.

(** A chunk that leaves the records as they are can be taken out of the
    stream. *)
Lemma consume_skips before c after :
  (forall synthetics,
     outcome (process_chunk parent_id chute synthetics c) = Ok synthetics) ->
  outcome (consume parent_id chute (before ++ c :: after) [])
  = outcome (consume parent_id chute (before ++ after) []).
Proof.
  intros Hc. rewrite !outcome_consume_app.
  destruct (outcome (consume parent_id chute before [])) as [s | e]; [| reflexivity].
  rewrite outcome_consume_cons, Hc. reflexivity.
Qed.

Lemma set_last_error_of_parent synthetics :
  Forall (of_parent parent_id) synthetics -> Forall (of_parent parent_id) (set_last_error synthetics).
Proof.
  induction 1 as [| row rest Hrow Hrest IH]; [constructor |].
  destruct rest as [| row' rest'].
  - constructor; [exact Hrow | constructor].
  - change (set_last_error (row :: row' :: rest'))
      with (row :: set_last_error (row' :: rest')).
    constructor; assumption.
Qed.

Lemma process_chunk_of_parent synthetics c synthetics' :
  Forall (of_parent parent_id) synthetics ->
  outcome (process_chunk parent_id chute synthetics c) = Ok synthetics' ->
  Forall (of_parent parent_id) synthetics'.
Proof.
  intros Hall Ho.
  destruct (process_chunk_shape _ _ _ Ho) as [-> | [[t ->] | ->]].
  - exact Hall.
  - apply Forall_app. split; [exact Hall |]. constructor; [reflexivity | constructor].
  - apply set_last_error_of_parent, Hall.
Qed.

Lemma consume_of_parent cs :
  forall synthetics synthetics',
    Forall (of_parent parent_id) synthetics ->
    outcome (consume parent_id chute cs synthetics) = Ok synthetics' ->
    Forall (of_parent parent_id) synthetics'.
Proof.
  induction cs as [| c cs IH]; intros synthetics synthetics' Hall Ho.
  - injection Ho as <-. exact Hall.
  - rewrite outcome_consume_cons in Ho.
    destruct (outcome (process_chunk parent_id chute synthetics c)) as [s |] eqn:Hc;
      [| discriminate].
    exact (IH _ _ (process_chunk_of_parent _ _ _ Hall Hc) Ho).
Qed.

End Steps.

Section Requests.
Context `{Pydantic}.

(** When [_perform_request] returns a list, the answer was a 200 with the
    header, every chunk went through and the stream ended by itself. *)
Lemma _perform_request_rows chute payload url answer rows :
  outcome (_perform_request chute payload url answer) = Ok (Some rows) ->
  exists resp parent_id,
    answer = Ok resp /\ status resp = 200%Z /\
    headers_getitem (headers resp) "X-Chutes-InvocationID" = Ok parent_id /\
    outcome (consume parent_id chute (content resp) []) = Ok rows /\
    ending resp = None.
Proof.
  unfold _perform_request. rewrite outcome_try_except.
  match goal with |- context [match ?o with Ok _ => _ | Raise _ => _ end] =>
    destruct o as [r | e] eqn:Ho end; [| discriminate].
  intros Hr. injection Hr as ->.
  do 3 ok_step Ho. destruct answer as [resp | e]; [| discriminate E1].
  injection E1 as <-.
  destruct (Z.eqb_spec (status resp) 200) as [Hs | Hs]; cbn [negb] in Ho.
  - do 2 ok_step Ho. injection Ho as ->.
    unfold read_content in E2. ok_step E2.
    destruct (ending resp) eqn:Hend; [discriminate |].
    injection E2 as ->.
    exists resp, a1. repeat split; assumption.
  - do 2 ok_step Ho. discriminate.
Qed.

Lemma _perform_request_none chute payload url answer :
  (forall rows, outcome (_perform_request chute payload url answer) <> Ok (Some rows)) ->
  outcome (_perform_request chute payload url answer) = Ok None.
Proof.
  intros Hno. destruct (_perform_request_total chute payload url answer) as [[rows |] Hr].
  - exfalso. exact (Hno rows Hr).
  - exact Hr.
Qed.

(** A stream that does not end by itself, or in which a chunk raises,
    makes the request return [None]. *)
Lemma _perform_request_broken chute payload url resp :
  (forall parent_id rows,
     outcome (consume parent_id chute (content resp) []) = Ok rows ->
     ending resp <> None) ->
  outcome (_perform_request chute payload url (Ok resp)) = Ok None.
Proof.
  intros Hbroken. apply _perform_request_none. intros rows Hr.
  destruct (_perform_request_rows _ _ _ _ _ Hr)
    as [resp' [parent_id [Hresp [_ [_ [Hc Hend]]]]]].
  injection Hresp as <-. exact (Hbroken _ _ Hc Hend).
Qed.

End Requests.

(** ** The request and the cycle *)

Lemma trace_try_except {A} (m : M A) (handler : exn -> M A) :
  trace_of (try_except m handler) =
  trace_of m ++ match outcome m with
                | Ok _ => []
                | Raise e => trace_of (handler e)
                end.
Proof.
  destruct m as [t [a | e]]; simpl; [rewrite app_nil_r; reflexivity |].
  destruct (handler e); reflexivity.
Qed.

Lemma quiet_not_added (t : list event) (row : Synthetic) :
  quiet t = true -> ~ In (SessionAdd row) t.
Proof.
  intros Hq Hin. unfold quiet in Hq. rewrite forallb_forall in Hq.
  specialize (Hq _ Hin). discriminate Hq.
Qed.

Lemma session_add_all_run (rows : list Synthetic) :
  session_add_all rows = (map SessionAdd rows, Ok tt).
Proof.
  induction rows as [| row rows IH]; [reflexivity |].
  cbn [session_add_all map]. rewrite IH. reflexivity.
Qed.

Lemma random_choice_single {A} (r : nat) (x : A) : random_choice r [x] = Ok x.
Proof. unfold random_choice. cbn [length]. rewrite Nat.mod_1_r. reflexivity. Qed.

Lemma filter_nil_when {A} (f : A -> bool) (l : list A) :
  (forall x, In x l -> f x = false) -> filter f l = [].
Proof.
  induction l as [| a l IH]; intros Hf; [reflexivity |].
  simpl. rewrite (Hf a (or_introl eq_refl)). apply IH.
  intros x Hx. apply Hf. right. exact Hx.
Qed.

Section Cycle.
Context `{Pydantic}.

(** The outcome of the request, case by case. *)
Lemma _perform_request_outcome chute payload url resp :
  outcome (_perform_request chute payload url (Ok resp)) =
  if negb (Z.eqb (status resp) 200) then Ok None
  else
    match headers_getitem (headers resp) "X-Chutes-InvocationID" with
    | Raise _ => Ok None
    | Ok parent_id =>
        match outcome (consume parent_id chute (content resp) []) with
        | Raise _ => Ok None
        | Ok synthetics =>
            match ending resp with
            | None => Ok (Some synthetics)
            | Some _ => Ok None
            end
        end
    end.
Proof.
  unfold _perform_request, read_content.
  rewrite outcome_try_except, !outcome_bind. cbn [outcome emit lift snd].
  destruct (negb (Z.eqb (status resp) 200)).
  - rewrite outcome_bind. cbn [outcome lift snd].
    destruct (text resp); reflexivity.
  - rewrite outcome_bind. cbn [outcome lift snd].
    destruct (headers_getitem (headers resp) "X-Chutes-InvocationID") as [parent_id | x];
      [| reflexivity].
    rewrite !outcome_bind.
    destruct (outcome (consume parent_id chute (content resp) [])) as [s | x];
      [| reflexivity].
    destruct (ending resp); reflexivity.
Qed.

(** An exception of the loop is caught, logged as a warning, and the
    request returns [None]. *)
Lemma _perform_request_raised chute payload url resp parent_id x :
  status resp = 200%Z ->
  headers_getitem (headers resp) "X-Chutes-InvocationID" = Ok parent_id ->
  outcome (read_content parent_id chute resp) = Raise x ->
  exists t, _perform_request chute payload url (Ok resp)
            = (t ++ [Log WARNING (RequestFailed x)], Ok None).
Proof.
  intros Hs Hh Hr. unfold _perform_request.
  rewrite bind_lift_ok. cbv beta. rewrite Hs, Hh. cbn [Z.eqb Pos.eqb negb].
  rewrite bind_lift_ok.
  destruct (read_content parent_id chute resp) as [t r]. cbn [outcome snd] in Hr.
  subst r. cbn.
  exists (Log INFO (Invoking (name chute) url) :: Post url payload :: t).
  reflexivity.
Qed.

(** Every chunk of a stream that went through went through. *)
Lemma consume_ok_in parent_id chute cs :
  forall synthetics synthetics' c,
    outcome (consume parent_id chute cs synthetics) = Ok synthetics' ->
    In c cs ->
    exists before after,
      outcome (process_chunk parent_id chute before c) = Ok after.
Proof.
  induction cs as [| c0 cs IH]; intros synthetics synthetics' c Ho Hin;
    [contradiction |].
  rewrite outcome_consume_cons in Ho.
  destruct (outcome (process_chunk parent_id chute synthetics c0)) as [s |] eqn:Hc;
    [| discriminate].
  destruct Hin as [-> | Hin].
  - exists synthetics, s. exact Hc.
  - exact (IH _ _ _ Ho Hin).
Qed.

(** A chunk that raises whatever the records are makes the request return
    [None] wherever it stands in the stream. *)
Lemma _perform_request_poisoned chute payload url resp c :
  In c (content resp) ->
  (forall parent_id synthetics, exists x,
     outcome (process_chunk parent_id chute synthetics c) = Raise x) ->
  outcome (_perform_request chute payload url (Ok resp)) = Ok None.
Proof.
  intros Hin Hc. apply _perform_request_broken. intros parent_id rows Ho.
  destruct (consume_ok_in _ _ _ _ _ _ Ho Hin) as [before [after Hok]].
  destruct (Hc parent_id before) as [x Hx]. rewrite Hx in Hok. discriminate.
Qed.

Lemma _perform_chat_rows self chutes e rows :
  outcome (_perform_chat self chutes e) = Ok (Some rows) ->
  exists chute payload,
    outcome (_get_vllm_chute chutes (rand_chute e)) = Ok (Some chute) /\
    outcome (_perform_request chute payload chat_url (post e)) = Ok (Some rows).
Proof.
  unfold _perform_chat. intros Ho. ok_step Ho.
  destruct a as [chute |]; [| discriminate].
  do 3 ok_step Ho. ok_step Ho. injection Ho as ->.
  exists chute, a. split; [reflexivity | exact E1].
Qed.

(** The cycle once the directory has answered. *)
Lemma perform_synthetic_loaded self e chutes :
  fleet e = Ok chutes ->
  perform_synthetic self e =
  (emit (Log DEBUG LoadingChutes) ;;
   emit (Log INFO (Attempting "chat")) ;;
   synthetics <- _perform_chat self chutes e ;;
   match synthetics with
   | Some (first :: rest) =>
       get_session (commit_outer e)
         (session_add_all (first :: rest) ;;
          session_commit (commit_inner e)) ;;
       emit (Log SUCCESS (Tracked (length (first :: rest)) "chat"))
   | _ => ret tt
   end)%monad.
Proof.
  intros Hfleet. unfold perform_synthetic, load_chutes.
  rewrite Hfleet, bind_assoc, bind_lift_ok, random_choice_single, bind_lift_ok.
  reflexivity.
Qed.

Lemma perform_synthetic_unloaded self e x :
  fleet e = Raise x ->
  perform_synthetic self e = ([Log DEBUG LoadingChutes], Raise x).
Proof.
  intros Hfleet. unfold perform_synthetic, load_chutes. rewrite Hfleet. reflexivity.
Qed.

(** The rows a cycle adds to its session are those [_perform_chat]
    returns. *)
Lemma perform_synthetic_adds self e row :
  In (SessionAdd row) (trace_of (perform_synthetic self e)) ->
  exists chutes rows,
    fleet e = Ok chutes /\
    outcome (_perform_chat self chutes e) = Ok (Some rows) /\ In row rows.
Proof.
  destruct (fleet e) as [chutes | x] eqn:Hfleet.
  2:{ rewrite (perform_synthetic_unloaded _ _ _ Hfleet). cbn.
      intros [Hin | []]. discriminate Hin. }
  rewrite (perform_synthetic_loaded _ _ _ Hfleet).
  pose proof (_perform_chat_quiet self chutes e) as Hq.
  destruct (_perform_chat self chutes e) as [tc rc] eqn:Hc.
  cbn [trace_of fst] in Hq.
  intros Hin. exists chutes.
  destruct rc as [[[| first rest] |] | x].
  - exfalso. cbn in Hin. rewrite app_nil_r in Hin.
    destruct Hin as [Hin | [Hin | Hin]]; try discriminate.
    exact (quiet_not_added _ _ Hq Hin).
  - exists (first :: rest). split; [reflexivity |].
    split; [rewrite Hc; reflexivity |].
    rewrite bind_ok in Hin. cbv beta iota in Hin.
    unfold get_session in Hin. rewrite session_add_all_run in Hin.
    destruct (commit_inner e), (commit_outer e); cbn in Hin;
      rewrite ?in_app_iff in Hin; cbn in Hin;
      repeat match type of Hin with
             | _ \/ _ => destruct Hin as [Hin | Hin]
             | False => contradiction
             | In _ (map SessionAdd _) =>
                 apply in_map_iff in Hin as [row' [Heq Hin]]; injection Heq as <-;
                 right; exact Hin
             | SessionAdd _ = SessionAdd _ => injection Hin as <-; left; reflexivity
             | _ = SessionAdd _ => discriminate Hin
             | In _ tc => exfalso; exact (quiet_not_added _ _ Hq Hin)
             | In _ (_ ++ _) => apply in_app_or in Hin
             | In _ (_ :: _) => destruct Hin as [Hin | Hin]
             | In _ [] => destruct Hin
             end.
  - exfalso. cbn in Hin. rewrite app_nil_r in Hin.
    destruct Hin as [Hin | [Hin | Hin]]; try discriminate.
    exact (quiet_not_added _ _ Hq Hin).
  - exfalso. cbn in Hin.
    destruct Hin as [Hin | [Hin | Hin]]; try discriminate.
    exact (quiet_not_added _ _ Hq Hin).
Qed.

(** Where the request of the chute the cycle picked returns [None], the
    cycle opens no session and commits nothing. *)
Lemma failed_request_commits_nothing self e chutes chute :
  fleet e = Ok chutes ->
  outcome (_get_vllm_chute chutes (rand_chute e)) = Ok (Some chute) ->
  (forall payload,
     outcome (_perform_request chute payload chat_url (post e)) = Ok None) ->
  existsb is_session_event (trace_of (perform_synthetic self e)) = false /\
  committed (trace_of (perform_synthetic self e)) = [].
Proof.
  intros Hfleet Hchute Hnone.
  assert (Hq : quiet (trace_of (perform_synthetic self e)) = true).
  { apply no_records_no_session. intros chutes' chute' payload Hf Hc.
    rewrite Hfleet in Hf. injection Hf as <-.
    rewrite Hchute in Hc. injection Hc as <-. apply Hnone. }
  split; [apply quiet_no_session | apply quiet_committed]; exact Hq.
Qed.

Lemma process_chunk_extract_raises parent_id chute synthetics c data x :
  unframed c = false -> loads c = Some data ->
  _extract_target data = Raise x ->
  outcome (process_chunk parent_id chute synthetics c) = Raise x.
Proof.
  intros Hf Hl He. rewrite (process_chunk_framed _ _ _ _ _ Hf Hl), He.
  reflexivity.
Qed.

Lemma read_content_interrupted parent_id chute resp synthetics x :
  outcome (consume parent_id chute (content resp) []) = Ok synthetics ->
  ending resp = Some x ->
  outcome (read_content parent_id chute resp) = Raise x.
Proof.
  intros Hc He. unfold read_content. rewrite outcome_bind, Hc, He. reflexivity.
Qed.

Lemma read_content_raises parent_id chute resp x :
  outcome (consume parent_id chute (content resp) []) = Raise x ->
  outcome (read_content parent_id chute resp) = Raise x.
Proof.
  intros Hc. unfold read_content. rewrite outcome_bind, Hc. reflexivity.
Qed.

Lemma cold_fleet_has_no_vllm_chute chutes r :
  (forall chute, In chute chutes -> is_hot chute = false) ->
  _get_vllm_chute chutes r = ([Log WARNING NoVllmChutes], Ok None).
Proof.
  intros Hcold. unfold _get_vllm_chute. rewrite filter_nil_when; [reflexivity |].
  intros chute Hin. rewrite (Hcold chute Hin).
  destruct (standard_template chute) as [t |]; [| reflexivity].
  destruct (String.eqb t "vllm"); reflexivity.
Qed.

End Cycle.

(** ** Sessions *)

Lemma committed_from_quiet (t t' : list event) :
  quiet t = true ->
  forall pending, committed_from pending (t ++ t') = committed_from pending t'.
Proof.
  induction t as [| ev t IH]; [reflexivity |].
  cbn [quiet forallb]. intros Hq pending.
  apply andb_true_iff in Hq as [Hev Hq].
  destruct ev; simpl in Hev; try discriminate; simpl; apply IH; exact Hq.
Qed.

Lemma committed_from_rolled_back (rows : list Synthetic) (t : list event) :
  forall pending,
    committed_from pending (map SessionAdd rows ++ SessionRollback :: t)
    = committed_from [] t.
Proof.
  induction rows as [| row rows IH]; intros pending; [reflexivity |].
  simpl. apply IH.
Qed.

Lemma raised_run {A} (m : M A) (x : exn) :
  outcome m = Raise x -> m = (trace_of m, Raise x).
Proof. destruct m as [t r]. simpl. intros ->. reflexivity. Qed.

(** ** The loop *)

Section Loop.
Context `{Pydantic}.

(** With a result of [None], [_perform_chat] fails on [len]. *)
Lemma _perform_chat_len_of_none self chutes e chute payload :
  outcome (_get_vllm_chute chutes (rand_chute e)) = Ok (Some chute) ->
  get_random_text_payload self e (name chute) "chat" = Ok payload ->
  outcome (_perform_request chute payload chat_url (post e)) = Ok None ->
  outcome (_perform_chat self chutes e) = Raise TypeError.
Proof.
  intros Hchute Hpayload Hnone. unfold _perform_chat.
  rewrite outcome_bind, Hchute, outcome_bind, Hpayload. cbn [outcome lift snd].
  rewrite outcome_bind, Hnone. reflexivity.
Qed.

Lemma perform_synthetics_stopped self envs :
  _running self = false -> perform_synthetics self envs = ret tt.
Proof. intros Hrun. destruct envs; cbn [perform_synthetics]; [| rewrite Hrun]; reflexivity. Qed.

(** The cycles of a run are those of its first part, then those of the
    rest. *)
Lemma perform_synthetics_app self envs1 envs2 :
  perform_synthetics self (envs1 ++ envs2) =
  (perform_synthetics self envs1 ;; perform_synthetics self envs2)%monad.
Proof.
  destruct (_running self) eqn:Hrun.
  2:{ rewrite !perform_synthetics_stopped by exact Hrun. reflexivity. }
  induction envs1 as [| e envs1 IH]; cbn [perform_synthetics app].
  - rewrite bind_ret. reflexivity.
  - rewrite Hrun, IH.
    destruct (perform_synthetic self e) as [t [[] | x]]; [| reflexivity].
    cbn [bind emit].
    destruct (perform_synthetics self envs1) as [t1 [[] | x1]]; [| reflexivity].
    destruct (perform_synthetics self envs2) as [t2 r2].
    cbn. rewrite <- app_assoc. reflexivity.
Qed.

Lemma perform_synthetics_one self e :
  _running self = true ->
  trace_of (perform_synthetics self [e])
  = trace_of (perform_synthetic self e ;; emit (Sleep 60))%monad /\
  outcome (perform_synthetics self [e])
  = outcome (perform_synthetic self e ;; emit (Sleep 60))%monad.
Proof.
  intros Hrun. cbn [perform_synthetics]. rewrite Hrun.
  destruct (perform_synthetic self e) as [t [[] | x]]; split; reflexivity.
Qed.

End Loop.

(** * The claims *)

Section Claims.
Context `{Pydantic}.

(** C1 (as amended).  In the loop of [_perform_request], a routing event
    whose trace carries a timestamp appends a new record with [has_error]
    false, whatever the records so far; a routing error event whose
    instance id and invocation id are those of the last record sets the
    flag of that record and leaves the earlier records as they are.  In
    particular the stream of a routing event followed by its error yields
    exactly one record, flagged, and the stream of A, B and the error of B
    yields the records of A and B in that order with only the second
    flagged. *)
Theorem correlation_of_routing_and_error_events
    (parent_id : string) (chute : Chute) (a b eb : Chunk) (ta tb te : Target) :
  routing_event a ta -> timestamped a ->
  routing_event b tb -> timestamped b ->
  routing_error_event eb te ->
  instance_id te = instance_id tb -> invocation_id te = invocation_id tb ->
  (forall synthetics,
     outcome (process_chunk parent_id chute synthetics a)
     = Ok (synthetics ++ [new_synthetic parent_id chute ta])) /\
  syn_has_error (new_synthetic parent_id chute ta) = false /\
  (forall earlier last,
     instance_id te = syn_instance_id last ->
     invocation_id te = syn_invocation_id last ->
     outcome (process_chunk parent_id chute (earlier ++ [last]) eb)
     = Ok (earlier ++ [with_error last])) /\
  outcome (consume parent_id chute [b; eb] [])
  = Ok [with_error (new_synthetic parent_id chute tb)] /\
  outcome (consume parent_id chute [a; b; eb] [])
  = Ok [new_synthetic parent_id chute ta; with_error (new_synthetic parent_id chute tb)] /\
  map syn_has_error
      [new_synthetic parent_id chute ta; with_error (new_synthetic parent_id chute tb)]
  = [false; true].
Proof.
  intros Ha Sa Hb Sb He Hi Hv.
  split; [intros synthetics; apply process_chunk_routing; assumption |].
  split; [reflexivity |].
  split; [intros earlier last Hi' Hv';
          apply (process_chunk_error_match _ _ earlier last eb te); assumption |].
  split; [| split; [| reflexivity]].
  - rewrite outcome_consume_cons, (process_chunk_routing _ _ [] b tb Hb Sb).
    rewrite outcome_consume_cons.
    rewrite (process_chunk_error_match _ _ [] (new_synthetic parent_id chute tb) eb te He Hi Hv).
    reflexivity.
  - rewrite outcome_consume_cons, (process_chunk_routing _ _ [] a ta Ha Sa).
    rewrite outcome_consume_cons, (process_chunk_routing _ _ _ b tb Hb Sb).
    rewrite outcome_consume_cons.
    rewrite (process_chunk_error_match _ _ [new_synthetic parent_id chute ta]
               (new_synthetic parent_id chute tb) eb te He Hi Hv).
    reflexivity.
Qed.

(** C2 (as amended).  For a trace whose message is the line
    query target=I uid=U hotkey=H, with I and H non-empty and free of
    spaces and U a non-empty string of decimal digits, and which carries a
    string invocation id, [_extract_target] returns the target whose
    instance id, uid and hotkey are I, U and H as they stand in the line. *)
Theorem extract_target_reads_routing_line
    (i u h inv : string) (chunk trace : list (string * json)) :
  i <> "" -> all_chars Re.not_space i = true ->
  u <> "" -> all_chars Re.digit u = true ->
  h <> "" -> all_chars Re.not_space h = true ->
  assoc "trace" chunk = Some (JObj trace) ->
  assoc "message" trace
  = Some (JStr ("query target=" ++ i ++ " uid=" ++ u ++ " hotkey=" ++ h)%string) ->
  assoc "invocation_id" trace = Some (JStr inv) ->
  _extract_target (JObj chunk)
  = Ok (Some {| instance_id := i; invocation_id := inv; uid := u; hotkey := h;
                error := None |}).
Proof.
  intros Hi Hic Hu Huc Hh Hhc Htrace Hmsg Hinv.
  unfold _extract_target. cbn [py_get rbind]. rewrite Htrace.
  assert (Ht : truthy (JObj trace) = true).
  { destruct trace; [discriminate Hmsg | reflexivity]. }
  rewrite Ht. cbn [negb py_get rbind]. rewrite Hmsg. cbn [re_search rbind].
  rewrite (ReFacts.search_query_target i u h Hi Hic Hu Huc Hh Hhc).
  rewrite Hinv. unfold new_Target. rewrite validate_str_str. reflexivity.
Qed.

(** C3 (as amended).  When the read of the stream fails after the chunks
    received so far went through the loop, [_perform_request] catches the
    failure, logs it as a warning and returns [None]: the records built
    from those chunks are given up, no session is opened and nothing is
    committed in that cycle. *)
Theorem interrupted_stream_returns_nothing
    (self : Auditor) (e : Env) (chutes : list Chute) (chute : Chute)
    (resp : Response) (parent_id : string) (synthetics : list Synthetic) (x : exn) :
  fleet e = Ok chutes ->
  outcome (_get_vllm_chute chutes (rand_chute e)) = Ok (Some chute) ->
  post e = Ok resp ->
  status resp = 200%Z ->
  headers_getitem (headers resp) "X-Chutes-InvocationID" = Ok parent_id ->
  outcome (consume parent_id chute (content resp) []) = Ok synthetics ->
  ending resp = Some x ->
  (forall payload, exists t,
     _perform_request chute payload chat_url (post e)
     = (t ++ [Log WARNING (RequestFailed x)], Ok None)) /\
  existsb is_session_event (trace_of (perform_synthetic self e)) = false /\
  committed (trace_of (perform_synthetic self e)) = [].
Proof.
  intros Hfleet Hchute Hpost Hs Hh Hc Hend.
  assert (Hreq : forall payload, exists t,
            _perform_request chute payload chat_url (post e)
            = (t ++ [Log WARNING (RequestFailed x)], Ok None)).
  { intros payload. rewrite Hpost.
    apply (_perform_request_raised _ _ _ _ parent_id); [exact Hs | exact Hh |].
    exact (read_content_interrupted _ _ _ _ _ Hc Hend). }
  split; [exact Hreq |].
  apply (failed_request_commits_nothing self e chutes chute Hfleet Hchute).
  intros payload. destruct (Hreq payload) as [t ->]. reflexivity.
Qed.

(** C5 (as amended).  A chunk without the framing, and a framed payload
    that is an object without a trace field (and whose result field, where
    the loop looks at it, is a string), leave the records as they are: the
    stream gives the same result with or without such a chunk.  A framed
    chunk that does not decode is not skipped: the request returns [None]
    wherever the chunk stands in the stream. *)
Theorem unframed_and_traceless_chunks_are_skipped (chute : Chute) (c : Chunk) :
  unframed c = true \/ traceless c = true ->
  (forall parent_id synthetics,
     outcome (process_chunk parent_id chute synthetics c) = Ok synthetics) /\
  (forall parent_id before after,
     outcome (consume parent_id chute (before ++ c :: after) [])
     = outcome (consume parent_id chute (before ++ after) [])) /\
  (forall payload url resp before after,
     content resp = before ++ c :: after ->
     outcome (_perform_request chute payload url (Ok resp))
     = outcome (_perform_request chute payload url
                  (Ok (with_content resp (before ++ after))))) /\
  (forall bad payload url resp,
     unframed bad = false -> loads bad = None -> In bad (content resp) ->
     outcome (_perform_request chute payload url (Ok resp)) = Ok None).
Proof.
  intros Hskip.
  assert (Hstep : forall parent_id synthetics,
            outcome (process_chunk parent_id chute synthetics c) = Ok synthetics).
  { intros parent_id synthetics. destruct Hskip as [Hu | Ht].
    - rewrite (process_chunk_unframed _ _ _ _ Hu). reflexivity.
    - apply process_chunk_traceless, Ht. }
  split; [exact Hstep |].
  split; [intros parent_id before after; apply consume_skips, Hstep |].
  split.
  - intros payload url resp before after Hcontent.
    rewrite !_perform_request_outcome. cbn [with_content status headers content ending].
    rewrite Hcontent.
    destruct (negb (Z.eqb (status resp) 200)); [reflexivity |].
    destruct (headers_getitem (headers resp) "X-Chutes-InvocationID") as [parent_id |];
      [| reflexivity].
    rewrite (consume_skips parent_id chute before c after (Hstep parent_id)).
    reflexivity.
  - intros bad payload url resp Hf Hl Hin.
    apply (_perform_request_poisoned _ _ _ _ bad Hin).
    intros parent_id synthetics. exists JSONDecodeError.
    apply process_chunk_undecodable; assumption.
Qed.

(** C6.  A routing error event that arrives when no record has been
    appended, or whose instance id or invocation id differs from the last
    record's, raises in the loop ([IndexError] on the empty list, else
    [AssertionError]): the loop stops at that chunk, the request logs the
    failure and returns [None], and the cycle opens no session and commits
    no record. *)
Theorem protocol_violation_aborts_cycle
    (self : Auditor) (e : Env) (chutes : list Chute) (chute : Chute)
    (resp : Response) (parent_id : string) (before after : list Chunk) (c : Chunk)
    (t : Target) (synthetics : list Synthetic) :
  fleet e = Ok chutes ->
  outcome (_get_vllm_chute chutes (rand_chute e)) = Ok (Some chute) ->
  post e = Ok resp ->
  status resp = 200%Z ->
  headers_getitem (headers resp) "X-Chutes-InvocationID" = Ok parent_id ->
  content resp = before ++ c :: after ->
  outcome (consume parent_id chute before []) = Ok synthetics ->
  routing_error_event c t ->
  (synthetics = [] \/
   exists earlier last,
     synthetics = earlier ++ [last] /\
     (instance_id t <> syn_instance_id last \/
      invocation_id t <> syn_invocation_id last)) ->
  exists x,
    (x = IndexError \/ x = AssertionError) /\
    outcome (process_chunk parent_id chute synthetics c) = Raise x /\
    outcome (consume parent_id chute (content resp) []) = Raise x /\
    (forall payload, exists tr,
       _perform_request chute payload chat_url (post e)
       = (tr ++ [Log WARNING (RequestFailed x)], Ok None)) /\
    existsb is_session_event (trace_of (perform_synthetic self e)) = false /\
    committed (trace_of (perform_synthetic self e)) = [].
Proof.
  intros Hfleet Hchute Hpost Hs Hh Hcontent Hbefore Hev Hbad.
  assert (Hx : exists x, (x = IndexError \/ x = AssertionError) /\
                 outcome (process_chunk parent_id chute synthetics c) = Raise x).
  { destruct Hbad as [-> | [earlier [last [-> Hne]]]].
    - exists IndexError. split; [left; reflexivity |].
      exact (process_chunk_error_empty _ _ _ _ Hev).
    - exists AssertionError. split; [right; reflexivity |].
      exact (process_chunk_error_mismatch _ _ _ _ _ _ Hev Hne). }
  destruct Hx as [x [Hkind Hraise]]. exists x.
  assert (Hloop : outcome (consume parent_id chute (content resp) []) = Raise x).
  { rewrite Hcontent. exact (consume_raises _ _ _ _ _ _ _ Hbefore Hraise). }
  assert (Hreq : forall payload, exists tr,
            _perform_request chute payload chat_url (post e)
            = (tr ++ [Log WARNING (RequestFailed x)], Ok None)).
  { intros payload. rewrite Hpost.
    apply (_perform_request_raised _ _ _ _ parent_id); [exact Hs | exact Hh |].
    exact (read_content_raises _ _ _ _ Hloop). }
  repeat split; try assumption.
  - apply (failed_request_commits_nothing self e chutes chute Hfleet Hchute).
    intros payload. destruct (Hreq payload) as [tr ->]. reflexivity.
  - apply (failed_request_commits_nothing self e chutes chute Hfleet Hchute).
    intros payload. destruct (Hreq payload) as [tr ->]. reflexivity.
Qed.

(** C7 (as amended).  In the loop [perform_synthetics], a failure of the
    commit of a cycle's batch is not caught: the session is rolled back and
    closed, so that the batch is dropped and nothing of it is committed,
    nothing is logged about the failure, and the exception leaves
    [perform_synthetic] and the loop, which neither sleeps nor runs a later
    cycle. *)
Theorem commit_failure_aborts_loop
    (self : Auditor) (e : Env) (later : list Env) (chutes : list Chute)
    (first : Synthetic) (rest : list Synthetic) (x : exn) :
  _running self = true ->
  fleet e = Ok chutes ->
  outcome (_perform_chat self chutes e) = Ok (Some (first :: rest)) ->
  commit_inner e = Some x ->
  outcome (perform_synthetic self e) = Raise x /\
  perform_synthetics self (e :: later) = perform_synthetic self e /\
  (exists t,
     quiet t = true /\
     trace_of (perform_synthetic self e)
     = t ++ SessionOpen :: map SessionAdd (first :: rest)
         ++ [SessionRollback; SessionClose; SessionClose]) /\
  committed (trace_of (perform_synthetic self e)) = [].
Proof.
  intros Hrun Hfleet Hchat Hcommit.
  pose proof (_perform_chat_quiet self chutes e) as Hq.
  assert (Hcycle : perform_synthetic self e
            = ((Log DEBUG LoadingChutes :: Log INFO (Attempting "chat")
                  :: trace_of (_perform_chat self chutes e))
               ++ SessionOpen :: map SessionAdd (first :: rest)
               ++ [SessionRollback; SessionClose; SessionClose], Raise x)).
  { rewrite (perform_synthetic_loaded _ _ _ Hfleet).
    destruct (_perform_chat self chutes e) as [tc rc]. cbn [outcome snd] in Hchat.
    subst rc. rewrite bind_ok. cbv beta iota.
    unfold get_session. rewrite session_add_all_run, Hcommit. cbn.
    rewrite !app_nil_r, <- !app_assoc. reflexivity. }
  assert (Hraise : outcome (perform_synthetic self e) = Raise x)
    by (rewrite Hcycle; reflexivity).
  split; [exact Hraise |]. split; [| split].
  - cbn [perform_synthetics]. rewrite Hrun, (raised_run _ _ Hraise). reflexivity.
  - eexists. split; [| rewrite Hcycle; reflexivity]. exact Hq.
  - rewrite Hcycle. unfold committed. cbn [trace_of fst].
    rewrite committed_from_quiet; [| exact Hq].
    cbn [committed_from]. apply committed_from_rolled_back.
Qed.

(** C8.  When no chute of the directory has an instance that is both
    active and verified, [_perform_chat] returns [None] and the cycle ends
    normally after a warning: no record, no session opened, nothing
    committed. *)
Theorem no_eligible_target_skips_persistence
    (self : Auditor) (e : Env) (chutes : list Chute) :
  fleet e = Ok chutes ->
  (forall chute, In chute chutes -> is_hot chute = false) ->
  outcome (_perform_chat self chutes e) = Ok None /\
  perform_synthetic self e
  = ([Log DEBUG LoadingChutes; Log INFO (Attempting "chat"); Log WARNING NoVllmChutes],
     Ok tt) /\
  existsb is_session_event (trace_of (perform_synthetic self e)) = false /\
  committed (trace_of (perform_synthetic self e)) = [].
Proof.
  intros Hfleet Hcold.
  assert (Hchat : _perform_chat self chutes e = ([Log WARNING NoVllmChutes], Ok None)).
  { unfold _perform_chat. rewrite (cold_fleet_has_no_vllm_chute _ _ Hcold). reflexivity. }
  assert (Hcycle : perform_synthetic self e
            = ([Log DEBUG LoadingChutes; Log INFO (Attempting "chat");
                Log WARNING NoVllmChutes], Ok tt)).
  { rewrite (perform_synthetic_loaded _ _ _ Hfleet), Hchat. reflexivity. }
  rewrite Hchat, Hcycle. repeat split.
Qed.

(** C9.  The records [_perform_request] returns all carry the value of the
    header X-Chutes-InvocationID of the response; the header is read before
    the body, so that without it no chunk is consumed; the rows a cycle
    adds to its session carry the header of that cycle's own response; and
    what a cycle does in the loop is [perform_synthetic] on its own
    environment, whatever the cycles before it. *)
Theorem records_share_response_parent_id :
  (forall chute payload url answer rows,
     outcome (_perform_request chute payload url answer) = Ok (Some rows) ->
     exists resp parent_id,
       answer = Ok resp /\
       headers_getitem (headers resp) "X-Chutes-InvocationID" = Ok parent_id /\
       Forall (fun row => syn_parent_invocation_id row = parent_id) rows) /\
  (forall chute payload url resp x,
     status resp = 200%Z ->
     headers_getitem (headers resp) "X-Chutes-InvocationID" = Raise x ->
     _perform_request chute payload url (Ok resp)
     = ([Log INFO (Invoking (name chute) url); Post url payload;
         Log WARNING (RequestFailed x)], Ok None)) /\
  (forall self e row,
     In (SessionAdd row) (trace_of (perform_synthetic self e)) ->
     exists resp,
       post e = Ok resp /\
       headers_getitem (headers resp) "X-Chutes-InvocationID"
       = Ok (syn_parent_invocation_id row)) /\
  (forall self earlier e,
     _running self = true ->
     trace_of (perform_synthetics self (earlier ++ [e]))
     = trace_of (perform_synthetics self earlier)
       ++ match outcome (perform_synthetics self earlier) with
          | Ok _ => trace_of (perform_synthetic self e ;; emit (Sleep 60))%monad
          | Raise _ => []
          end).
Proof.
  assert (Hrows : forall chute payload url answer rows,
     outcome (_perform_request chute payload url answer) = Ok (Some rows) ->
     exists resp parent_id,
       answer = Ok resp /\
       headers_getitem (headers resp) "X-Chutes-InvocationID" = Ok parent_id /\
       Forall (fun row => syn_parent_invocation_id row = parent_id) rows).
  { intros chute payload url answer rows Hr.
    destruct (_perform_request_rows _ _ _ _ _ Hr)
      as [resp [parent_id [Ha [_ [Hh [Hc _]]]]]].
    exists resp, parent_id. split; [exact Ha |]. split; [exact Hh |].
    exact (consume_of_parent parent_id chute _ _ _ (Forall_nil _) Hc). }
  split; [exact Hrows |]. split; [| split].
  - intros chute payload url resp x Hs Hh. unfold _perform_request.
    rewrite bind_lift_ok. cbv beta. rewrite Hs, Hh. reflexivity.
  - intros self e row Hin.
    destruct (perform_synthetic_adds _ _ _ Hin) as [chutes [rows [_ [Hchat Hrow]]]].
    destruct (_perform_chat_rows _ _ _ _ Hchat) as [chute [payload [_ Hreq]]].
    destruct (Hrows _ _ _ _ _ Hreq) as [resp [parent_id [Hpost [Hh Hall]]]].
    exists resp. split; [exact Hpost |].
    rewrite Forall_forall in Hall. rewrite (Hall row Hrow). exact Hh.
  - intros self earlier e Hrun.
    rewrite perform_synthetics_app, trace_bind.
    rewrite (proj1 (perform_synthetics_one self e Hrun)). reflexivity.
Qed.

(** C10.  [_extract_target] is partial: on a chunk whose trace message
    matches the routing pattern and whose trace has no invocation id it
    raises [ValidationError]; in the loop the exception ends the request,
    which returns [None] whatever records were collected before. *)
Theorem anonymous_routing_trace_aborts_request
    (chunk trace : list (string * json)) (message : string) (gs : list string) :
  assoc "trace" chunk = Some (JObj trace) ->
  assoc "message" trace = Some (JStr message) ->
  Re.search Re.query_target message = Some gs ->
  assoc "invocation_id" trace = None ->
  _extract_target (JObj chunk) = Raise ValidationError /\
  (forall parent_id chute c before after synthetics,
     unframed c = false -> loads c = Some (JObj chunk) ->
     outcome (consume parent_id chute before []) = Ok synthetics ->
     outcome (consume parent_id chute (before ++ c :: after) [])
     = Raise ValidationError) /\
  (forall chute payload url resp c,
     unframed c = false -> loads c = Some (JObj chunk) ->
     In c (content resp) ->
     outcome (_perform_request chute payload url (Ok resp)) = Ok None).
Proof.
  intros Htrace Hmsg Hmatch Hinv.
  assert (Hraise : _extract_target (JObj chunk) = Raise ValidationError).
  { unfold _extract_target. cbn [py_get rbind]. rewrite Htrace.
    assert (Ht : truthy (JObj trace) = true).
    { destruct trace; [discriminate Hmsg | reflexivity]. }
    rewrite Ht. cbn [negb py_get rbind]. rewrite Hmsg. cbn [re_search rbind].
    rewrite Hmatch, Hinv. unfold new_Target. rewrite validate_str_none.
    reflexivity. }
  split; [exact Hraise |]. split.
  - intros parent_id chute c before after synthetics Hf Hl Hb.
    apply (consume_raises _ _ _ _ _ synthetics); [exact Hb |].
    exact (process_chunk_extract_raises _ _ _ _ _ _ Hf Hl Hraise).
  - intros chute payload url resp c Hf Hl Hin.
    apply (_perform_request_poisoned _ _ _ _ c Hin).
    intros parent_id synthetics. exists ValidationError.
    exact (process_chunk_extract_raises _ _ _ _ _ _ Hf Hl Hraise).
Qed.

End Claims.

(** C1, on the sample stream: [query_a; query_b; error_b]. *)
Lemma correlation_of_routing_and_error_events_witness :
  outcome (consume "parent-1" Sample.hot_chute [Sample.query_b; Sample.error_b] [])
  = Ok [with_error (new_synthetic "parent-1" Sample.hot_chute Sample.target_b)] /\
  outcome (consume "parent-1" Sample.hot_chute
             [Sample.query_a; Sample.query_b; Sample.error_b] [])
  = Ok [new_synthetic "parent-1" Sample.hot_chute Sample.target_a;
        with_error (new_synthetic "parent-1" Sample.hot_chute Sample.target_b)].
Proof.
  assert (Ha : routing_event Sample.query_a Sample.target_a).
  { split; [reflexivity |]. eexists. split; reflexivity. }
  assert (Sa : timestamped Sample.query_a).
  { eexists. split; reflexivity. }
  assert (Hb : routing_event Sample.query_b Sample.target_b).
  { split; [reflexivity |]. eexists. split; reflexivity. }
  assert (Sb : timestamped Sample.query_b).
  { eexists. split; reflexivity. }
  assert (He : routing_error_event Sample.error_b
                 (mkTarget "inst-b" "inv-b" "12" "5Gb" (Some "connection reset"))).
  { split; [reflexivity |]. eexists. split; [reflexivity |]. split; reflexivity. }
  destruct (correlation_of_routing_and_error_events "parent-1" Sample.hot_chute
              _ _ _ _ _ _ Ha Sa Hb Sb He eq_refl eq_refl)
    as [_ [_ [_ [Hone [Htwo _]]]]].
  split; [exact Hone | exact Htwo].
Defined.

(** C1 as stated fails: a routing event whose trace has no timestamp
    appends no record; [_debug_target] raises [KeyError] and the request
    returns [None]. *)
Lemma unstamped_routing_event_appends_nothing :
  routing_event Sample.query_unstamped Sample.target_a /\
  outcome (process_chunk "parent-1" Sample.hot_chute [] Sample.query_unstamped)
  = Raise (KeyError "timestamp") /\
  outcome (_perform_request Sample.hot_chute Sample.payload chat_url
             (Ok (Sample.ok_response [Sample.query_unstamped] None)))
  = Ok None.
Proof.
  split; [| split; reflexivity].
  split; [reflexivity |]. eexists. split; reflexivity.
Qed.

(** C2, on the routing line of the sample. *)
Lemma extract_target_reads_routing_line_witness :
  _extract_target
    (Sample.trace_json [("timestamp", "2025-02-01T10:00:00.120"); ("invocation_id", "inv-a");
                        ("message", "query target=inst-a uid=7 hotkey=5Fa")])
  = Ok (Some Sample.target_a).
Proof.
  apply (extract_target_reads_routing_line "inst-a" "7" "5Fa" "inv-a"
           _ [("timestamp", JStr "2025-02-01T10:00:00.120"); ("invocation_id", JStr "inv-a");
              ("message", JStr "query target=inst-a uid=7 hotkey=5Fa")]);
    try reflexivity; discriminate.
Defined.

(** C2 as stated fails: I, U and H free of white space are not enough.  A
    uid that is not numeric is not matched and the extractor returns [None];
    and a trace without an invocation id raises instead of classifying. *)
Lemma extract_target_rejects_other_lines :
  no_whitespace "inst-a" = true /\ no_whitespace "seven" = true /\
  no_whitespace "5Fa" = true /\
  _extract_target
    (Sample.trace_json [("invocation_id", "inv-a");
                        ("message", "query target=inst-a uid=seven hotkey=5Fa")])
  = Ok None /\
  _extract_target
    (Sample.trace_json [("message", "query target=inst-a uid=7 hotkey=5Fa")])
  = Raise ValidationError.
Proof. repeat split; reflexivity. Qed.

(** C3, on a stream that breaks after the routing line of A. *)
Lemma interrupted_stream_returns_nothing_witness :
  (forall payload, exists t,
     _perform_request Sample.hot_chute payload chat_url (post Runs.interrupted)
     = (t ++ [Log WARNING (RequestFailed ClientError)], Ok None)) /\
  existsb is_session_event (trace_of (perform_synthetic Sample.auditor Runs.interrupted))
  = false /\
  committed (trace_of (perform_synthetic Sample.auditor Runs.interrupted)) = [].
Proof.
  apply (interrupted_stream_returns_nothing Sample.auditor Runs.interrupted
           [Sample.hot_chute] Sample.hot_chute
           (Sample.ok_response [Sample.query_a] (Some ClientError))
           "parent-1" [Runs.record_a] ClientError); reflexivity.
Defined.

(** C3 as stated fails: the record built from the routing line of A is
    not returned when the stream breaks after it, and nothing is
    persisted. *)
Lemma interrupted_stream_discards_partial_records :
  outcome (consume "parent-1" Sample.hot_chute [Sample.query_a] []) = Ok [Runs.record_a] /\
  outcome (_perform_request Sample.hot_chute Sample.payload chat_url
             (Ok (Sample.ok_response [Sample.query_a] (Some ClientError))))
  = Ok None /\
  committed (trace_of (perform_synthetic Sample.auditor Runs.interrupted)) = [].
Proof. repeat split; reflexivity. Qed.

(** C4: the code at the failing input.  On a 503 the request logs its
    warning and returns [None]; [_perform_chat] then takes [len] of it and
    the [TypeError] leaves the cycle. *)
Example rejected_request_raises_type_error :
  outcome (_perform_request Sample.hot_chute Sample.payload chat_url (post Runs.rejected))
  = Ok None /\
  existsb is_warning (trace_of (perform_synthetic Sample.auditor Runs.rejected)) = true /\
  committed (trace_of (perform_synthetic Sample.auditor Runs.rejected)) = [] /\
  outcome (perform_synthetic Sample.auditor Runs.rejected) = Raise TypeError.
Proof. repeat split; reflexivity. Qed.

(** C5, on a blank line and on a partial result between a routing line
    and its error. *)
Lemma unframed_and_traceless_chunks_are_skipped_witness :
  outcome (consume "parent-1" Sample.hot_chute
             ([Sample.query_a] ++ Sample.blank :: [Sample.error_a]) [])
  = outcome (consume "parent-1" Sample.hot_chute ([Sample.query_a] ++ [Sample.error_a]) []) /\
  outcome (consume "parent-1" Sample.hot_chute
             ([Sample.query_a] ++ Sample.partial_result :: [Sample.error_a]) [])
  = outcome (consume "parent-1" Sample.hot_chute ([Sample.query_a] ++ [Sample.error_a]) []).
Proof.
  split.
  - apply (unframed_and_traceless_chunks_are_skipped Sample.hot_chute Sample.blank).
    left. reflexivity.
  - apply (unframed_and_traceless_chunks_are_skipped Sample.hot_chute Sample.partial_result).
    right. reflexivity.
Defined.

(** C5 as stated fails: a framed chunk that does not decode is not
    skipped.  With it the record of A is lost and the request returns
    [None]; without it the request returns the record. *)
Lemma malformed_chunk_aborts_request :
  unframed Sample.malformed = false /\ loads Sample.malformed = None /\
  outcome (process_chunk "parent-1" Sample.hot_chute [Runs.record_a] Sample.malformed)
  = Raise JSONDecodeError /\
  outcome (_perform_request Sample.hot_chute Sample.payload chat_url
             (Ok (Sample.ok_response [Sample.query_a; Sample.malformed] None)))
  = Ok None /\
  outcome (_perform_request Sample.hot_chute Sample.payload chat_url
             (Ok (Sample.ok_response [Sample.query_a] None)))
  = Ok (Some [Runs.record_a]).
Proof. repeat split; reflexivity. Qed.

(** C6, on a stream where the error of A arrives after the routing line
    of B. *)
Lemma protocol_violation_aborts_cycle_witness :
  exists x,
    (x = IndexError \/ x = AssertionError) /\
    outcome (process_chunk "parent-1" Sample.hot_chute [Runs.record_a; Runs.record_b]
               Sample.error_a) = Raise x /\
    outcome (consume "parent-1" Sample.hot_chute
               [Sample.query_a; Sample.query_b; Sample.error_a] []) = Raise x /\
    (forall payload, exists tr,
       _perform_request Sample.hot_chute payload chat_url (post Runs.crossed)
       = (tr ++ [Log WARNING (RequestFailed x)], Ok None)) /\
    existsb is_session_event (trace_of (perform_synthetic Sample.auditor Runs.crossed))
    = false /\
    committed (trace_of (perform_synthetic Sample.auditor Runs.crossed)) = [].
Proof.
  apply (protocol_violation_aborts_cycle Sample.auditor Runs.crossed
           [Sample.hot_chute] Sample.hot_chute
           (Sample.ok_response [Sample.query_a; Sample.query_b; Sample.error_a] None)
           "parent-1" [Sample.query_a; Sample.query_b] [] Sample.error_a
           (mkTarget "inst-a" "inv-a" "7" "5Fa" (Some "timed out"))
           [Runs.record_a; Runs.record_b]); try reflexivity.
  - split; [reflexivity |]. eexists. split; [reflexivity |]. split; reflexivity.
  - right. exists [Runs.record_a], Runs.record_b. split; [reflexivity |].
    left. discriminate.
Defined.

(** C7, on a cycle whose commit fails, followed by another cycle. *)
Lemma commit_failure_aborts_loop_witness :
  outcome (perform_synthetic Sample.auditor Runs.uncommitted) = Raise SQLAlchemyError /\
  perform_synthetics Sample.auditor [Runs.uncommitted; Runs.committed_later]
  = perform_synthetic Sample.auditor Runs.uncommitted /\
  (exists t,
     quiet t = true /\
     trace_of (perform_synthetic Sample.auditor Runs.uncommitted)
     = t ++ SessionOpen :: map SessionAdd [with_error Runs.record_a]
         ++ [SessionRollback; SessionClose; SessionClose]) /\
  committed (trace_of (perform_synthetic Sample.auditor Runs.uncommitted)) = [].
Proof.
  apply (commit_failure_aborts_loop Sample.auditor Runs.uncommitted
           [Runs.committed_later] [Sample.hot_chute]
           (with_error Runs.record_a) [] SQLAlchemyError); reflexivity.
Defined.

(** C7 as stated fails: after the failed commit of the first cycle the
    loop is over with the exception; it does not sleep and the second
    cycle, whose commit would succeed, never runs; the last events are the
    rollback and the closing of the session, none of them a log. *)
Lemma commit_failure_stops_scheduler :
  outcome (perform_synthetics Sample.auditor [Runs.uncommitted; Runs.committed_later])
  = Raise SQLAlchemyError /\
  existsb (fun ev => match ev with Sleep _ => true | _ => false end)
    (trace_of (perform_synthetics Sample.auditor [Runs.uncommitted; Runs.committed_later]))
  = false /\
  committed
    (trace_of (perform_synthetics Sample.auditor [Runs.uncommitted; Runs.committed_later]))
  = [] /\
  skipn 7 (trace_of (perform_synthetics Sample.auditor
                       [Runs.uncommitted; Runs.committed_later]))
  = [SessionOpen; SessionAdd (with_error Runs.record_a);
     SessionRollback; SessionClose; SessionClose] /\
  committed (trace_of (perform_synthetics Sample.auditor [Runs.committed_later]))
  = [Runs.record_b].
Proof. repeat split; reflexivity. Qed.

(** C8, on a directory whose only chute has no instance both active and
    verified. *)
Lemma no_eligible_target_skips_persistence_witness :
  outcome (_perform_chat Sample.auditor [Sample.cold_chute] Runs.cold) = Ok None /\
  perform_synthetic Sample.auditor Runs.cold
  = ([Log DEBUG LoadingChutes; Log INFO (Attempting "chat"); Log WARNING NoVllmChutes],
     Ok tt) /\
  existsb is_session_event (trace_of (perform_synthetic Sample.auditor Runs.cold)) = false /\
  committed (trace_of (perform_synthetic Sample.auditor Runs.cold)) = [].
Proof.
  apply (no_eligible_target_skips_persistence Sample.auditor Runs.cold [Sample.cold_chute]);
    [reflexivity |].
  intros chute [<- | []]. reflexivity.
Defined.

(** C9, on the stream of A, B and the error of B. *)
Lemma records_share_response_parent_id_witness :
  exists resp parent_id,
    Ok (Sample.ok_response [Sample.query_a; Sample.query_b; Sample.error_b] None) = Ok resp /\
    headers_getitem (headers resp) "X-Chutes-InvocationID" = Ok parent_id /\
    Forall (fun row => syn_parent_invocation_id row = parent_id)
      [Runs.record_a; with_error Runs.record_b].
Proof.
  apply (proj1 records_share_response_parent_id Sample.hot_chute Sample.payload chat_url).
  reflexivity.
Defined.

(** C10, on a routing line without invocation id that follows the routing
    line of A. *)
Lemma anonymous_routing_trace_aborts_request_witness :
  outcome (consume "parent-1" Sample.hot_chute [Sample.query_a] []) = Ok [Runs.record_a] /\
  _extract_target
    (Sample.trace_json [("timestamp", "2025-02-01T10:00:03.000");
                        ("message", "query target=inst-c uid=3 hotkey=5Hc")])
  = Raise ValidationError /\
  outcome (consume "parent-1" Sample.hot_chute
             ([Sample.query_a] ++ Sample.query_anonymous :: []) [])
  = Raise ValidationError /\
  outcome (_perform_request Sample.hot_chute Sample.payload chat_url
             (Ok (Sample.ok_response [Sample.query_a; Sample.query_anonymous] None)))
  = Ok None.
Proof.
  destruct (anonymous_routing_trace_aborts_request
              [("trace", JObj [("timestamp", JStr "2025-02-01T10:00:03.000");
                               ("message", JStr "query target=inst-c uid=3 hotkey=5Hc")])]
              [("timestamp", JStr "2025-02-01T10:00:03.000");
               ("message", JStr "query target=inst-c uid=3 hotkey=5Hc")]
              "query target=inst-c uid=3 hotkey=5Hc" ["inst-c"; "3"; "5Hc"]
              eq_refl eq_refl eq_refl eq_refl) as [Hraise [Hloop Hreq]].
  split; [reflexivity |]. split; [exact Hraise |]. split.
  - apply (Hloop "parent-1" Sample.hot_chute Sample.query_anonymous
             [Sample.query_a] [] [Runs.record_a]); reflexivity.
  - apply (Hreq Sample.hot_chute Sample.payload chat_url _ Sample.query_anonymous);
      [reflexivity | reflexivity |].
    right. left. reflexivity.
Defined.

(** * Further properties of the source *)

(** ** The matcher *)

Module ReSound.
Import Re.

Lemma span_le_length (cls : ascii -> bool) (s : string) : span cls s <= String.length s.
Proof.
  induction s as [| a s IH]; simpl; [lia |].
  destruct (cls a); simpl; lia.
Qed.

Lemma take_span (cls : ascii -> bool) (s : string) (k : nat) :
  k <= span cls s ->
  all_chars cls (take k s) = true /\ String.length (take k s) = k.
Proof.
  revert s. induction k as [| k IH]; intros s Hk; [split; reflexivity |].
  destruct s as [| a s]; simpl in Hk; [lia |].
  destruct (cls a) eqn:Ha; [| lia].
  destruct (IH s ltac:(lia)) as [Hall Hlen].
  simpl. rewrite Ha, Hall, Hlen. split; reflexivity.
Qed.

Lemma backtrack_inv {A} (try : nat -> option A) (least k : nat) (r : A) :
  backtrack try least k = Some r ->
  exists j, least <= j /\ j <= k /\ try j = Some r.
Proof.
  induction k as [| k IH]; simpl.
  - destruct (Nat.ltb_spec 0 least) as [| Hle]; [discriminate |].
    destruct (try 0) as [r0 |] eqn:Ht; [| discriminate].
    intros Hr. injection Hr as <-. exists 0. repeat split; [lia | lia | exact Ht].
  - destruct (Nat.ltb_spec (S k) least) as [| Hle]; [discriminate |].
    destruct (try (S k)) as [r0 |] eqn:Ht.
    + intros Hr. injection Hr as <-. exists (S k). repeat split; [lia | lia | exact Ht].
    + intros Hr. destruct (IH Hr) as [j [Hj [Hjk Htry]]].
      exists j. repeat split; [lia | lia | exact Htry].
Qed.

(** A failed longest run is followed by the next shorter one. *)
Lemma backtrack_next {A} (try : nat -> option A) (least k : nat) (r : A) :
  least <= k -> try (S k) = None -> try k = Some r ->
  backtrack try least (S k) = Some r.
Proof.
  intros Hle Hfail Hk. cbn [backtrack].
  destruct (Nat.ltb_spec (S k) least) as [| _]; [lia |].
  rewrite Hfail. apply ReFacts.backtrack_first; assumption.
Qed.

Lemma match_here_sound (p : regex) :
  forall s gs, match_here p s = Some gs -> well_grouped p gs.
Proof.
  induction p as [| it p IH]; intros s gs Hm.
  - simpl in Hm. injection Hm as <-. reflexivity.
  - destruct it as [l | capture cls least]; simpl in Hm.
    + destruct (strip_prefix l s) as [rest |]; [| discriminate].
      exact (IH _ _ Hm).
    + apply backtrack_inv in Hm as [j [Hleast [Hj Htry]]].
      destruct (match_here p (skip j s)) as [gs' |] eqn:Hrest; [| discriminate].
      injection Htry as <-. specialize (IH _ _ Hrest).
      destruct capture; simpl; [| exact IH].
      destruct (take_span cls s j Hj) as [Hall Hlen].
      exists (take j s), gs'. rewrite Hlen. auto.
Qed.

Lemma search_sound (p : regex) (s : string) (gs : list string) :
  search p s = Some gs -> well_grouped p gs.
Proof.
  induction s as [| a s IH]; simpl.
  - destruct (match_here p "") as [gs0 |] eqn:Hm; [| discriminate].
    intros Hs. injection Hs as <-. exact (match_here_sound _ _ _ Hm).
  - destruct (match_here p (String a s)) as [gs0 |] eqn:Hm.
    + intros Hs. injection Hs as <-. exact (match_here_sound _ _ _ Hm).
    + exact IH.
Qed.

(** A pattern that starts with a literal only matches where the literal
    occurs. *)
Lemma search_needs_literal (l : string) (p : regex) (s : string) :
  occurs l s = false -> search (Lit l :: p) s = None.
Proof.
  induction s as [| a s IH]; intros Ho; cbn [occurs] in Ho;
    apply orb_false_iff in Ho as [Hstart Hrest]; unfold startswith in Hstart.
  - cbn [search match_here].
    destruct (strip_prefix l "") as [rest |]; [discriminate | reflexivity].
  - cbn [search match_here].
    destruct (strip_prefix l (String a s)) as [rest |]; [discriminate |].
    exact (IH Hrest).
Qed.

End ReSound.

Lemma append_assoc_s (a b c : string) : ((a ++ b) ++ c)%string = (a ++ b ++ c)%string.
Proof. induction a as [| x a IH]; simpl; [| rewrite IH]; reflexivity. Qed.

Lemma length_append_s (a b : string) :
  String.length (a ++ b)%string = String.length a + String.length b.
Proof. induction a as [| x a IH]; simpl; [| rewrite IH]; reflexivity. Qed.

Lemma all_chars_app (cls : ascii -> bool) (a b : string) :
  all_chars cls (a ++ b)%string = all_chars cls a && all_chars cls b.
Proof.
  induction a as [| x a IH]; simpl; [reflexivity |].
  rewrite IH, andb_assoc. reflexivity.
Qed.

Lemma nonempty_length (s : string) : 1 <= String.length s -> s <> "".
Proof. destruct s; simpl; [lia | discriminate]. Qed.

Module ReLines.
Import Re.

(** The tail of the error pattern, from the coldkey token on: the token
    gives back its last colon to the literal that follows it. *)
Lemma match_coldkey_tail (c e rest : string) :
  c <> "" -> all_chars not_space c = true ->
  all_chars not_newline e = true -> stops not_newline rest ->
  match_here [Rep false not_space 1; Lit ": "; Rep true not_newline 0]
             (c ++ ": " ++ e ++ rest)%string
  = Some [e].
Proof.
  intros Hc Hcs He Hrest.
  assert (Hspan : span not_space (c ++ ": " ++ e ++ rest)%string = S (String.length c)).
  { change (c ++ ": " ++ e ++ rest)%string
      with (c ++ ":" ++ (" " ++ e ++ rest))%string.
    rewrite <- append_assoc_s, ReFacts.span_app.
    - rewrite length_append_s. simpl. lia.
    - rewrite all_chars_app, Hcs. reflexivity.
    - reflexivity. }
  cbn [match_here]. rewrite Hspan.
  apply ReSound.backtrack_next.
  - apply length_nonempty, Hc.
  - change (c ++ ": " ++ e ++ rest)%string
      with (c ++ ":" ++ (" " ++ e ++ rest))%string.
    rewrite <- append_assoc_s.
    replace (S (String.length c)) with (String.length (c ++ ":")%string)
      by (rewrite length_append_s; simpl; lia).
    cbv beta. rewrite skip_app. reflexivity.
  - cbv beta. rewrite skip_app. cbn [match_here]. rewrite strip_prefix_app.
    rewrite (ReFacts.span_app _ _ _ He Hrest).
    rewrite (ReFacts.backtrack_first _ 0 (String.length e) [e]); [reflexivity | lia |].
    cbv beta. rewrite take_app. reflexivity.
Qed.

Lemma search_target_error (i u h c e rest : string) :
  i <> "" -> all_chars not_space i = true ->
  u <> "" -> all_chars digit u = true ->
  h <> "" -> all_chars not_space h = true ->
  c <> "" -> all_chars not_space c = true ->
  all_chars not_newline e = true -> stops not_newline rest ->
  search target_error
    ("error encountered while querying target=" ++ i ++ " uid=" ++ u ++ " hotkey=" ++ h
     ++ " coldkey=" ++ c ++ ": " ++ e ++ rest)%string
  = Some [i; u; h; e].
Proof.
  intros Hi Hic Hu Huc Hh Hhc Hc Hcc He Hrest.
  apply ReFacts.search_here. unfold target_error.
  rewrite ReFacts.match_here_lit.
  apply (ReFacts.match_here_rep true); [exact Hic | apply length_nonempty, Hi | reflexivity |].
  rewrite ReFacts.match_here_lit.
  apply (ReFacts.match_here_rep true); [exact Huc | apply length_nonempty, Hu | reflexivity |].
  rewrite ReFacts.match_here_lit.
  apply (ReFacts.match_here_rep true); [exact Hhc | apply length_nonempty, Hh | reflexivity |].
  rewrite ReFacts.match_here_lit.
  exact (match_coldkey_tail c e rest Hc Hcc He Hrest).
Qed.

End ReLines.

(** ** The extractors *)

Section Extractors.
Context `{Pydantic}.

Lemma _extract_target_inv (chunk : json) (t : Target) :
  _extract_target chunk = Ok (Some t) ->
  exists o trace msg gs inv,
    chunk = JObj o /\ assoc "trace" o = Some (JObj trace) /\
    assoc "message" trace = Some (JStr msg) /\
    Re.search Re.query_target msg = Some gs /\
    validate_str (match assoc "invocation_id" trace with Some x => x | None => JNull end)
    = Some inv /\
    t = mkTarget (group 1 gs) inv (group 2 gs) (group 3 gs) None.
Proof.
  unfold _extract_target. destruct chunk as [| | | | | o]; try discriminate.
  cbn [py_get rbind].
  destruct (assoc "trace" o) as [tr |] eqn:Htr; [| discriminate].
  destruct (truthy tr); [| discriminate]. cbn [negb].
  destruct tr as [| | | | | trace]; try discriminate. cbn [py_get rbind].
  destruct (assoc "message" trace) as [[| | | msg | |] |] eqn:Hm; try discriminate.
  cbn [re_search rbind].
  destruct (Re.search Re.query_target msg) as [gs |] eqn:Hs; [| discriminate].
  unfold new_Target.
  destruct (validate_str _) as [inv |] eqn:Hv; [| discriminate].
  cbn [rbind]. intros Ht. injection Ht as <-.
  exists o, trace, msg, gs, inv. repeat split; try reflexivity; assumption.
Qed.

Lemma _extract_target_error_inv (chunk : json) (t : Target) :
  _extract_target_error chunk = Ok (Some t) ->
  exists o trace msg gs inv,
    chunk = JObj o /\ assoc "trace" o = Some (JObj trace) /\
    assoc "message" trace = Some (JStr msg) /\
    Re.search Re.target_error msg = Some gs /\
    validate_str (match assoc "invocation_id" trace with Some x => x | None => JNull end)
    = Some inv /\
    t = mkTarget (group 1 gs) inv (group 2 gs) (group 3 gs) (Some (group 4 gs)).
Proof.
  unfold _extract_target_error. destruct chunk as [| | | | | o]; try discriminate.
  cbn [py_get rbind].
  destruct (assoc "trace" o) as [tr |] eqn:Htr; [| discriminate].
  destruct (truthy tr); [| discriminate]. cbn [negb].
  destruct tr as [| | | | | trace]; try discriminate. cbn [py_get rbind].
  destruct (assoc "message" trace) as [[| | | msg | |] |] eqn:Hm; try discriminate.
  cbn [re_search rbind].
  destruct (Re.search Re.target_error msg) as [gs |] eqn:Hs; [| discriminate].
  unfold new_Target.
  destruct (validate_str _) as [inv |] eqn:Hv; [| discriminate].
  cbn [rbind]. intros Ht. injection Ht as <-.
  exists o, trace, msg, gs, inv. repeat split; try reflexivity; assumption.
Qed.

(** X1.  The fields of an extracted target are tokens of the line: the
    instance id and the hotkey are non-empty and hold no space, the uid is
    a non-empty run of digits (and plus signs for a routing line); a routing
    target has no error text, and the error text of an error target holds
    no newline. *)
Theorem extracted_fields_are_tokens :
  (forall chunk t,
     _extract_target chunk = Ok (Some t) ->
     instance_id t <> "" /\ all_chars Re.not_space (instance_id t) = true /\
     uid t <> "" /\ all_chars Re.digit_or_plus (uid t) = true /\
     hotkey t <> "" /\ all_chars Re.not_space (hotkey t) = true /\
     error t = None) /\
  (forall chunk t,
     _extract_target_error chunk = Ok (Some t) ->
     instance_id t <> "" /\ all_chars Re.not_space (instance_id t) = true /\
     uid t <> "" /\ all_chars Re.digit (uid t) = true /\
     hotkey t <> "" /\ all_chars Re.not_space (hotkey t) = true /\
     exists e, error t = Some e /\ all_chars Re.not_newline e = true).
Proof.
  split; intros chunk t Ht.
  - destruct (_extract_target_inv _ _ Ht)
      as [o [trace [msg [gs [inv [_ [_ [_ [Hs [_ ->]]]]]]]]]].
    apply ReSound.search_sound in Hs. cbn in Hs.
    destruct Hs as [g1 [gs1 [-> [H1 [L1 [g2 [gs2 [-> [H2 [L2 [g3 [gs3 [-> [H3 [L3 ->]]]]]]]]]]]]]]].
    cbn. repeat split; try assumption; apply nonempty_length; assumption.
  - destruct (_extract_target_error_inv _ _ Ht)
      as [o [trace [msg [gs [inv [_ [_ [_ [Hs [_ ->]]]]]]]]]].
    apply ReSound.search_sound in Hs. cbn in Hs.
    destruct Hs as [g1 [gs1 [-> [H1 [L1 [g2 [gs2 [-> [H2 [L2 [g3 [gs3 [-> [H3 [L3
                   [g4 [gs4 [-> [H4 [L4 ->]]]]]]]]]]]]]]]]]]]].
    cbn. repeat split; try assumption; try (apply nonempty_length; assumption).
    exists g4. split; [reflexivity | assumption].
Qed.

(** X2.  An error line
    error encountered while querying target=I uid=U hotkey=H coldkey=C: E
    is read field by field, whatever colons the coldkey token C holds, and
    the error text E stops at the end of the line.  When the message does
    not contain the words of a routing line, the chunk is a routing error
    event of the loop. *)
Theorem extract_target_error_reads_error_line
    (i u h c e rest inv : string) (chunk trace : list (string * json)) :
  i <> "" -> all_chars Re.not_space i = true ->
  u <> "" -> all_chars Re.digit u = true ->
  h <> "" -> all_chars Re.not_space h = true ->
  c <> "" -> all_chars Re.not_space c = true ->
  all_chars Re.not_newline e = true -> line_end rest ->
  assoc "trace" chunk = Some (JObj trace) ->
  assoc "message" trace
  = Some (JStr ("error encountered while querying target=" ++ i ++ " uid=" ++ u
                ++ " hotkey=" ++ h ++ " coldkey=" ++ c ++ ": " ++ e ++ rest)%string) ->
  assoc "invocation_id" trace = Some (JStr inv) ->
  _extract_target_error (JObj chunk)
  = Ok (Some {| instance_id := i; invocation_id := inv; uid := u; hotkey := h;
                error := Some e |}) /\
  (occurs "query target="
     ("error encountered while querying target=" ++ i ++ " uid=" ++ u
      ++ " hotkey=" ++ h ++ " coldkey=" ++ c ++ ": " ++ e ++ rest)%string = false ->
   forall line,
     unframed line = false -> loads line = Some (JObj chunk) ->
     routing_error_event line
       {| instance_id := i; invocation_id := inv; uid := u; hotkey := h;
          error := Some e |}).
Proof.
  intros Hi Hic Hu Huc Hh Hhc Hc Hcc He Hrest Htrace Hmsg Hinv.
  assert (Ht : truthy (JObj trace) = true).
  { destruct trace; [discriminate Hmsg | reflexivity]. }
  assert (Herr : _extract_target_error (JObj chunk)
                 = Ok (Some (mkTarget i inv u h (Some e)))).
  { unfold _extract_target_error. cbn [py_get rbind]. rewrite Htrace, Ht.
    cbn [negb py_get rbind]. rewrite Hmsg. cbn [re_search rbind].
    rewrite (ReLines.search_target_error i u h c e rest Hi Hic Hu Huc Hh Hhc Hc Hcc He Hrest).
    rewrite Hinv. unfold new_Target. rewrite validate_str_str. reflexivity. }
  split; [exact Herr |].
  intros Hno line Hf Hl. split; [exact Hf |].
  exists (JObj chunk). split; [exact Hl |]. split; [| exact Herr].
  unfold _extract_target. cbn [py_get rbind]. rewrite Htrace, Ht.
  cbn [negb py_get rbind]. rewrite Hmsg. cbn [re_search rbind].
  unfold Re.query_target. rewrite (ReSound.search_needs_literal _ _ _ Hno).
  reflexivity.
Qed.

(** X3.  A payload is only taken for a routing line when its trace message
    contains the words query target=, and only for an error line when it
    contains the words error encountered while querying target=. *)
Theorem classification_needs_its_marker :
  (forall chunk t,
     _extract_target chunk = Ok (Some t) ->
     exists o trace msg,
       chunk = JObj o /\ assoc "trace" o = Some (JObj trace) /\
       assoc "message" trace = Some (JStr msg) /\
       occurs "query target=" msg = true) /\
  (forall chunk t,
     _extract_target_error chunk = Ok (Some t) ->
     exists o trace msg,
       chunk = JObj o /\ assoc "trace" o = Some (JObj trace) /\
       assoc "message" trace = Some (JStr msg) /\
       occurs "error encountered while querying target=" msg = true).
Proof.
  split; intros chunk t Ht.
  - destruct (_extract_target_inv _ _ Ht)
      as [o [trace [msg [gs [inv [Hc [Htr [Hm [Hs _]]]]]]]]].
    exists o, trace, msg. repeat split; try assumption.
    destruct (occurs "query target=" msg) eqn:Ho; [reflexivity |].
    unfold Re.query_target in Hs.
    rewrite (ReSound.search_needs_literal _ _ _ Ho) in Hs. discriminate.
  - destruct (_extract_target_error_inv _ _ Ht)
      as [o [trace [msg [gs [inv [Hc [Htr [Hm [Hs _]]]]]]]]].
    exists o, trace, msg. repeat split; try assumption.
    destruct (occurs "error encountered while querying target=" msg) eqn:Ho;
      [reflexivity |].
    unfold Re.target_error in Hs.
    rewrite (ReSound.search_needs_literal _ _ _ Ho) in Hs. discriminate.
Qed.

End Extractors.

(** ** The loop, record by record *)

Lemma kept_refl (s : list Synthetic) : kept s s.
Proof.
  exists s, []. split; [rewrite app_nil_r; reflexivity |].
  induction s as [| row s IH]; constructor; auto.
Qed.

Lemma kept_trans (a b c : list Synthetic) : kept a b -> kept b c -> kept a c.
Proof.
  intros [f1 [a1 [-> H1]]] [f2 [a2 [-> H2]]].
  apply Forall2_app_inv_l in H2 as [f2a [f2b [H2a [H2b ->]]]].
  exists f2a, (f2b ++ a2). split; [rewrite app_assoc; reflexivity |].
  clear H2b. revert f2a H2a.
  induction H1 as [| r r1 a f1 [Hid Hflag] H1 IH]; intros f2a H2a.
  - inversion H2a. constructor.
  - inversion H2a as [| r1' r2 f1' f2' [Hid' Hflag'] Hrest]; subst.
    constructor; [| apply IH; exact Hrest].
    split; [congruence | auto].
Qed.

Lemma kept_snoc (s : list Synthetic) (row : Synthetic) : kept s (s ++ [row]).
Proof.
  exists s, [row]. split; [reflexivity |].
  induction s as [| r s IH]; constructor; auto.
Qed.

Lemma kept_flagged (earlier : list Synthetic) (last : Synthetic) :
  kept (earlier ++ [last]) (earlier ++ [with_error last]).
Proof.
  exists (earlier ++ [with_error last]), []. split; [rewrite app_nil_r; reflexivity |].
  apply Forall2_app.
  - induction earlier as [| r s IH]; constructor; auto.
  - constructor; [| constructor]. split; reflexivity.
Qed.

Section Records.
Context `{Pydantic}.
Variables (parent_id : string) (chute : Chute).

(** What a chunk does to the records, and why. *)
Lemma process_chunk_cases synthetics c synthetics' :
  outcome (process_chunk parent_id chute synthetics c) = Ok synthetics' ->
  synthetics' = synthetics \/
  (exists t, routing_event c t /\ timestamped c /\
             synthetics' = synthetics ++ [new_synthetic parent_id chute t]) \/
  (exists t earlier last,
     routing_error_event c t /\ synthetics = earlier ++ [last] /\
     instance_id t = syn_instance_id last /\
     invocation_id t = syn_invocation_id last /\
     synthetics' = earlier ++ [with_error last]).
Proof.
  destruct (unframed c) eqn:Hf.
  { rewrite (process_chunk_unframed _ _ _ _ Hf). intros Ho. injection Ho as <-.
    left. reflexivity. }
  destruct (loads c) as [data |] eqn:Hl.
  2:{ rewrite (process_chunk_undecodable _ _ _ _ Hf Hl). discriminate. }
  rewrite (process_chunk_framed _ _ _ _ _ Hf Hl).
  destruct (_extract_target data) as [[t |] | x] eqn:He; [| | discriminate].
  - rewrite !bind_lift_ok. intros Ho. rewrite outcome_bind in Ho.
    destruct (outcome (_debug_target data)) as [[] | x] eqn:Hd; [| discriminate].
    injection Ho as <-. right. left. exists t.
    split; [split; [exact Hf | exists data; split; assumption] |].
    split; [exists data; split; assumption | reflexivity].
  - rewrite !bind_lift_ok.
    destruct (_extract_target_error data) as [[t |] | x] eqn:Hx; [| | discriminate].
    + rewrite bind_lift_ok. intros Ho. rewrite outcome_bind in Ho.
      cbn [outcome emit snd] in Ho.
      destruct (py_last synthetics) as [last | x] eqn:Hlast; [| discriminate Ho].
      destruct (py_last_ok _ _ Hlast) as [earlier ->].
      rewrite bind_lift_ok in Ho. rewrite outcome_bind in Ho.
      destruct (String.eqb_spec (instance_id t) (syn_instance_id last)) as [Hi | Hi];
        [| discriminate Ho].
      cbn [py_assert outcome ret snd] in Ho. rewrite bind_lift_ok in Ho.
      rewrite outcome_bind in Ho.
      destruct (String.eqb_spec (invocation_id t) (syn_invocation_id last)) as [Hv | Hv];
        [| discriminate Ho].
      cbn [py_assert outcome ret snd] in Ho. rewrite bind_lift_ok in Ho.
      injection Ho as <-. right. right. exists t, earlier, last.
      split; [split; [exact Hf | exists data; repeat split; assumption] |].
      rewrite set_last_error_snoc. auto.
    + rewrite bind_lift_ok. intros Ho. left.
      ok_step Ho. destruct (truthy a).
      * do 2 ok_step Ho. injection Ho as <-. reflexivity.
      * ok_step Ho. destruct (truthy a0).
        -- do 2 ok_step Ho. destruct a2.
           ++ ok_step Ho. injection Ho as <-. reflexivity.
           ++ injection Ho as <-. reflexivity.
        -- injection Ho as <-. reflexivity.
Qed.

Lemma consume_append_only (cs : list Chunk) :
  forall synthetics synthetics',
    outcome (consume parent_id chute cs synthetics) = Ok synthetics' ->
    kept synthetics synthetics' /\
    length synthetics <= length synthetics' /\
    length synthetics' <= length synthetics + framed_count cs.
Proof.
  induction cs as [| c cs IH]; intros s s' Ho.
  - injection Ho as <-. split; [apply kept_refl |]. unfold framed_count. simpl. lia.
  - rewrite outcome_consume_cons in Ho.
    destruct (outcome (process_chunk parent_id chute s c)) as [s1 |] eqn:Hc;
      [| discriminate].
    destruct (IH _ _ Ho) as [Hk [Hlo Hhi]].
    assert (Hstep : kept s s1 /\ length s <= length s1 /\
                    length s1 <= length s + (if unframed c then 0 else 1)).
    { destruct (process_chunk_cases _ _ _ Hc)
        as [-> | [[t [[Hf _] [_ ->]]] | [t [earlier [last [[Hf _] [-> [_ [_ ->]]]]]]]]].
      - split; [apply kept_refl |]. destruct (unframed c); lia.
      - split; [apply kept_snoc |]. rewrite Hf, length_app. simpl. lia.
      - split; [apply kept_flagged |]. rewrite !length_app. simpl. lia. }
    destruct Hstep as [Hk1 [Hlo1 Hhi1]].
    split; [exact (kept_trans _ _ _ Hk1 Hk) |].
    unfold framed_count in *. cbn [filter].
    destruct (unframed c); cbn [negb length]; lia.
Qed.

(** A property of the new records that flagging keeps holds of all. *)
Lemma consume_invariant (P : Synthetic -> Prop) (cs : list Chunk) :
  (forall t, P (new_synthetic parent_id chute t)) ->
  (forall row, P row -> P (with_error row)) ->
  forall synthetics synthetics',
    Forall P synthetics ->
    outcome (consume parent_id chute cs synthetics) = Ok synthetics' ->
    Forall P synthetics'.
Proof.
  intros Hnew Hflag.
  induction cs as [| c cs IH]; intros s s' Hall Ho.
  - injection Ho as <-. exact Hall.
  - rewrite outcome_consume_cons in Ho.
    destruct (outcome (process_chunk parent_id chute s c)) as [s1 |] eqn:Hc;
      [| discriminate].
    apply (IH s1 s'); [| exact Ho].
    destruct (process_chunk_cases _ _ _ Hc)
      as [-> | [[t [_ [_ ->]]] | [t [earlier [last [_ [-> [_ [_ ->]]]]]]]]].
    + exact Hall.
    + apply Forall_app. split; [exact Hall |]. constructor; [apply Hnew | constructor].
    + apply Forall_app in Hall as [Hearlier Hlast]. apply Forall_app.
      split; [exact Hearlier |]. inversion Hlast; subst.
      constructor; [apply Hflag; assumption | constructor].
Qed.

(** X4.  The loop only appends: the records it had are kept, in order and
    with their identity, a raised flag stays raised, and each chunk adds at
    most one record, an unframed one none. *)
Theorem records_are_append_only (cs : list Chunk) :
  forall synthetics synthetics',
    outcome (consume parent_id chute cs synthetics) = Ok synthetics' ->
    kept synthetics synthetics' /\
    length synthetics <= length synthetics' /\
    length synthetics' <= length synthetics + framed_count cs.
Proof. exact (consume_append_only cs). Qed.

(** X5.  A stream without routing error event leaves every flag down. *)
Theorem clean_stream_raises_no_flag (cs : list Chunk) :
  (forall c t, In c cs -> ~ routing_error_event c t) ->
  forall synthetics synthetics',
    Forall (fun row => syn_has_error row = false) synthetics ->
    outcome (consume parent_id chute cs synthetics) = Ok synthetics' ->
    Forall (fun row => syn_has_error row = false) synthetics'.
Proof.
  induction cs as [| c cs IH]; intros Hclean s s' Hall Ho.
  - injection Ho as <-. exact Hall.
  - rewrite outcome_consume_cons in Ho.
    destruct (outcome (process_chunk parent_id chute s c)) as [s1 |] eqn:Hc;
      [| discriminate].
    apply (IH (fun c0 t0 Hin => Hclean c0 t0 (or_intror Hin)) s1 s'); [| exact Ho].
    destruct (process_chunk_cases _ _ _ Hc)
      as [-> | [[t [_ [_ ->]]] | [t [earlier [last [Hev _]]]]]].
    + exact Hall.
    + apply Forall_app. split; [exact Hall |]. constructor; [reflexivity | constructor].
    + exfalso. exact (Hclean c t (or_introl eq_refl) Hev).
Qed.

End Records.

(** ** Traces of logger calls *)

Lemma only_logs_app (t1 t2 : list event) :
  only_logs (t1 ++ t2) = only_logs t1 && only_logs t2.
Proof. apply forallb_app. Qed.

Lemma only_logs_bind {A B} (m : M A) (f : A -> M B) :
  only_logs (trace_of m) = true ->
  (forall a, outcome m = Ok a -> only_logs (trace_of (f a)) = true) ->
  only_logs (trace_of (bind m f)) = true.
Proof.
  intros Hm Hf. rewrite trace_bind, only_logs_app, Hm. simpl.
  destruct (outcome m) as [a | e]; [apply Hf |]; reflexivity.
Qed.

Lemma only_logs_count (kind : event -> bool) (t : list event) :
  (forall lvl msg, kind (Log lvl msg) = false) ->
  only_logs t = true -> count kind t = 0.
Proof.
  intros Hkind. unfold count. induction t as [| ev t IH]; [reflexivity |].
  cbn [only_logs forallb filter]. intros Hl. apply andb_true_iff in Hl as [Hev Ht].
  destruct ev; try discriminate. rewrite Hkind. exact (IH Ht).
Qed.

Lemma count_app (kind : event -> bool) (t1 t2 : list event) :
  count kind (t1 ++ t2) = count kind t1 + count kind t2.
Proof. unfold count. rewrite filter_app, length_app. reflexivity. Qed.

Section Logs.
Context `{Pydantic}.

Lemma _debug_target_only_logs (chunk : json) :
  only_logs (trace_of (_debug_target chunk)) = true.
Proof.
  unfold _debug_target.
  apply only_logs_bind; [reflexivity | intros trace _].
  apply only_logs_bind; [reflexivity | intros timestamp _].
  apply only_logs_bind; [reflexivity | intros message _].
  destruct timestamp; reflexivity.
Qed.

Lemma py_assert_only_logs (b : bool) : only_logs (trace_of (py_assert b)) = true.
Proof. destruct b; reflexivity. Qed.

Lemma process_chunk_only_logs parent_id chute synthetics c :
  only_logs (trace_of (process_chunk parent_id chute synthetics c)) = true.
Proof.
  unfold process_chunk.
  destruct (_ || _); [reflexivity |].
  apply only_logs_bind; [reflexivity | intros data _].
  apply only_logs_bind; [reflexivity | intros first _].
  apply only_logs_bind; [reflexivity | intros [target |] _].
  - apply only_logs_bind; [apply _debug_target_only_logs | reflexivity].
  - apply only_logs_bind; [reflexivity | intros [target |] _].
    + apply only_logs_bind; [reflexivity | intros _ _].
      apply only_logs_bind; [reflexivity | intros last _].
      apply only_logs_bind; [apply py_assert_only_logs | intros _ _].
      apply only_logs_bind; [reflexivity | intros last' _].
      apply only_logs_bind; [apply py_assert_only_logs | intros _ _].
      apply only_logs_bind; [reflexivity | reflexivity].
    + apply only_logs_bind; [reflexivity | intros err _].
      destruct (truthy err).
      * apply only_logs_bind; [reflexivity | intros e _]. reflexivity.
      * apply only_logs_bind; [reflexivity | intros res _].
        destruct (truthy res); [| reflexivity].
        apply only_logs_bind; [reflexivity | intros r _].
        apply only_logs_bind; [reflexivity | intros [|] _]; reflexivity.
Qed.

Lemma consume_only_logs parent_id chute cs :
  forall synthetics, only_logs (trace_of (consume parent_id chute cs synthetics)) = true.
Proof.
  induction cs as [| c cs IH]; intros synthetics; simpl; [reflexivity |].
  apply only_logs_bind; [apply process_chunk_only_logs | intros s _; apply IH].
Qed.

(** The request: the log that announces it, the POST, then logs only, and
    a value. *)
Lemma _perform_request_run chute payload url answer :
  exists r rest,
    _perform_request chute payload url answer
    = (Log INFO (Invoking (name chute) url) :: Post url payload :: rest, Ok r) /\
    only_logs rest = true.
Proof.
  unfold _perform_request.
  set (body := (resp <- lift answer ;;
                if negb (Z.eqb (status resp) 200) then
                  _ <- lift (text resp) ;;
                  emit (Log WARNING (ErrorSending (chute_id chute) (status resp))) ;;
                  ret None
                else
                  parent_id <- lift (headers_getitem (headers resp) "X-Chutes-InvocationID") ;;
                  synthetics <- read_content parent_id chute resp ;;
                  ret (Some synthetics))%monad).
  assert (Hb : only_logs (trace_of body) = true).
  { unfold body, read_content.
    apply only_logs_bind; [reflexivity | intros resp _].
    destruct (negb _).
    - apply only_logs_bind; [reflexivity | intros _ _]. reflexivity.
    - apply only_logs_bind; [reflexivity | intros parent_id _].
      apply only_logs_bind; [| reflexivity].
      apply only_logs_bind; [apply consume_only_logs | intros s _].
      destruct (ending resp); reflexivity. }
  destruct body as [t [r | x]]; cbn [trace_of fst] in Hb; cbn.
  - exists r, t. split; [reflexivity | exact Hb].
  - exists None, (t ++ [Log WARNING (RequestFailed x)]).
    split; [reflexivity |]. rewrite only_logs_app, Hb. reflexivity.
Qed.

End Logs.

(** ** The request *)

Section RequestFacts.
Context `{Pydantic}.

(** X6.  [_perform_request] never raises, whatever the endpoint and the
    stream do: it announces the request in the log, sends one POST with
    the payload to the url it was given, and after that only logs. *)
Theorem request_posts_once_and_never_raises
    (chute : Chute) (payload : Payload) (url : string) (answer : result Response) :
  exists r rest,
    _perform_request chute payload url answer
    = (Log INFO (Invoking (name chute) url) :: Post url payload :: rest, Ok r) /\
    only_logs rest = true /\
    count is_post (trace_of (_perform_request chute payload url answer)) = 1.
Proof.
  destruct (_perform_request_run chute payload url answer) as [r [rest [Hrun Hrest]]].
  exists r, rest. split; [exact Hrun |]. split; [exact Hrest |].
  rewrite Hrun. cbn [trace_of fst].
  change (Log INFO (Invoking (name chute) url) :: Post url payload :: rest)
    with ([Log INFO (Invoking (name chute) url); Post url payload] ++ rest).
  rewrite count_app, (only_logs_count is_post rest (fun _ _ => eq_refl) Hrest).
  reflexivity.
Qed.

(** X7.  The request returns a list of records exactly when the endpoint
    answered 200 with the invocation header, every chunk of the stream
    went through the loop and the stream ended by itself; the list is then
    what the loop built.  A failed connection, another status, a missing
    header, a chunk that raises or a broken stream give [None]. *)
Theorem request_returns_records_iff
    (chute : Chute) (payload : Payload) (url : string) (answer : result Response)
    (rows : list Synthetic) :
  (outcome (_perform_request chute payload url answer) = Ok (Some rows) <->
   exists resp parent_id,
     answer = Ok resp /\ status resp = 200%Z /\
     headers_getitem (headers resp) "X-Chutes-InvocationID" = Ok parent_id /\
     outcome (consume parent_id chute (content resp) []) = Ok rows /\
     ending resp = None) /\
  ((forall rows', outcome (_perform_request chute payload url answer) <> Ok (Some rows')) ->
   outcome (_perform_request chute payload url answer) = Ok None).
Proof.
  split; [split |].
  - apply _perform_request_rows.
  - intros [resp [parent_id [-> [Hs [Hh [Hc He]]]]]].
    rewrite _perform_request_outcome, Hs, Hh, Hc, He. reflexivity.
  - apply _perform_request_none.
Qed.

(** X8.  The records of a request carry the id of the chute that was
    probed, and there are no more of them than framed chunks in the
    stream. *)
Theorem request_records_belong_to_chute
    (chute : Chute) (payload : Payload) (url : string) (answer : result Response)
    (rows : list Synthetic) :
  outcome (_perform_request chute payload url answer) = Ok (Some rows) ->
  exists resp,
    answer = Ok resp /\
    Forall (fun row => syn_chute_id row = chute_id chute) rows /\
    length rows <= framed_count (content resp).
Proof.
  intros Hr.
  destruct (_perform_request_rows _ _ _ _ _ Hr)
    as [resp [parent_id [Ha [_ [_ [Hc _]]]]]].
  exists resp. split; [exact Ha |]. split.
  - apply (consume_invariant parent_id chute
             (fun row => syn_chute_id row = chute_id chute) (content resp))
      with (synthetics := []); auto.
  - destruct (consume_append_only parent_id chute _ _ _ Hc) as [_ [_ Hlen]].
    exact Hlen.
Qed.

Lemma unreadable_raises (v : json) :
  unreadable v = true ->
  exists x, (x = AttributeError \/ x = TypeError) /\ _extract_target v = Raise x.
Proof.
  unfold unreadable, _extract_target. intros Hu.
  destruct v as [| | | | | o];
    try (exists AttributeError; split; [left; reflexivity | reflexivity]).
  cbn [py_get rbind].
  destruct (assoc "trace" o) as [tr |]; [| discriminate].
  destruct tr as [| b | q | s | l | trace]; cbn [truthy] in *;
    try discriminate;
    try (rewrite Hu; exists AttributeError; split; [left; reflexivity | reflexivity]).
  destruct trace as [| kv trace]; [discriminate |].
  cbn [negb py_get rbind].
  destruct (assoc "message" (kv :: trace)) as [[| b | q | s | l | tr'] |];
    try discriminate;
    exists TypeError; (split; [right; reflexivity | reflexivity]).
Qed.

(** X9.  A framed chunk that decodes to something else than a trace
    object of the expected shape (a value that is not an object, a trace
    that is a truthy value but no object, a message that is no string)
    raises in the extractor, and the request returns [None] wherever the
    chunk stands. *)
Theorem unreadable_payload_aborts_request (line : Chunk) (v : json) :
  unframed line = false -> loads line = Some v -> unreadable v = true ->
  (exists x, (x = AttributeError \/ x = TypeError) /\ _extract_target v = Raise x) /\
  (forall chute payload url resp,
     In line (content resp) ->
     outcome (_perform_request chute payload url (Ok resp)) = Ok None).
Proof.
  intros Hf Hl Hu. destruct (unreadable_raises v Hu) as [x [Hkind Hraise]].
  split; [exists x; split; assumption |].
  intros chute payload url resp Hin.
  apply (_perform_request_poisoned _ _ _ _ line Hin).
  intros parent_id synthetics. exists x.
  exact (process_chunk_extract_raises _ _ _ _ _ _ Hf Hl Hraise).
Qed.

End RequestFacts.

(** ** The cycle *)


Lemma count_bind {A B} (kind : event -> bool) (m : M A) (f : A -> M B) :
  count kind (trace_of (bind m f)) =
  count kind (trace_of m) + match outcome m with
                            | Ok a => count kind (trace_of (f a))
                            | Raise _ => 0
                            end.
Proof.
  rewrite trace_bind, count_app. destruct (outcome m); reflexivity.
Qed.

Lemma quiet_count (kind : event -> bool) (t : list event) :
  (forall ev, kind ev = true -> is_session_event ev = true) ->
  quiet t = true -> count kind t = 0.
Proof.
  intros Hkind. unfold count. induction t as [| ev t IH]; [reflexivity |].
  cbn [quiet forallb filter]. intros Hq. apply andb_true_iff in Hq as [Hev Ht].
  destruct (kind ev) eqn:Hk.
  - rewrite (Hkind ev Hk) in Hev. discriminate.
  - exact (IH Ht).
Qed.

Section CycleFacts.
Context `{Pydantic}.

Lemma session_run (rows : list Synthetic) (inner outer : option exn) :
  get_session outer (session_add_all rows ;; session_commit inner)%monad
  = match inner, outer with
    | None, None =>
        (SessionOpen :: map SessionAdd rows
           ++ [SessionCommit; SessionCommit; SessionClose; SessionClose], Ok tt)
    | None, Some x =>
        (SessionOpen :: map SessionAdd rows
           ++ [SessionCommit; SessionRollback; SessionClose; SessionClose], Raise x)
    | Some x, _ =>
        (SessionOpen :: map SessionAdd rows
           ++ [SessionRollback; SessionClose; SessionClose], Raise x)
    end.
Proof.
  unfold get_session. rewrite session_add_all_run.
  destruct inner, outer; cbn; rewrite ?app_nil_r, <- ?app_assoc; reflexivity.
Qed.

(** The cycle once [_perform_chat] has returned its rows. *)
Lemma perform_synthetic_with_rows self e chutes first rest :
  fleet e = Ok chutes ->
  outcome (_perform_chat self chutes e) = Ok (Some (first :: rest)) ->
  perform_synthetic self e =
  let session :=
    get_session (commit_outer e)
      (session_add_all (first :: rest) ;; session_commit (commit_inner e))%monad in
  ((Log DEBUG LoadingChutes :: Log INFO (Attempting "chat")
      :: trace_of (_perform_chat self chutes e))
   ++ trace_of session
   ++ match outcome session with
      | Ok _ => [Log SUCCESS (Tracked (length (first :: rest)) "chat")]
      | Raise _ => []
      end,
   outcome session).
Proof.
  intros Hfleet Hchat. rewrite (perform_synthetic_loaded _ _ _ Hfleet).
  destruct (_perform_chat self chutes e) as [tc rc]. cbn [outcome snd] in Hchat.
  subst rc. rewrite bind_ok. cbv beta iota zeta.
  destruct (get_session _ _) as [ts [[] | x]]; cbn;
    rewrite ?app_nil_r, <- ?app_assoc; reflexivity.
Qed.



(** The cycle when [_perform_chat] brings no row to persist. *)
Lemma perform_synthetic_without_rows self e chutes :
  fleet e = Ok chutes ->
  (forall first rest,
     outcome (_perform_chat self chutes e) <> Ok (Some (first :: rest))) ->
  perform_synthetic self e =
  (Log DEBUG LoadingChutes :: Log INFO (Attempting "chat")
     :: trace_of (_perform_chat self chutes e),
   match outcome (_perform_chat self chutes e) with
   | Ok _ => Ok tt
   | Raise x => Raise x
   end).
Proof.
  intros Hfleet Hno. rewrite (perform_synthetic_loaded _ _ _ Hfleet).
  destruct (_perform_chat self chutes e) as [tc [[[| first rest] |] | x]]; cbn;
    rewrite ?app_nil_r; try reflexivity.
  exfalso. exact (Hno first rest eq_refl).
Qed.

(** X12.  Whenever the request of a cycle returns [None] (the endpoint
    refused, the connection or the stream failed, a chunk raised),
    [_perform_chat] raises [TypeError] on [len] and the exception leaves
    [perform_synthetic]; no session is opened and nothing is committed. *)
Theorem failed_request_raises_out_of_cycle
    (self : Auditor) (e : Env) (chutes : list Chute) (chute : Chute) (payload : Payload) :
  fleet e = Ok chutes ->
  outcome (_get_vllm_chute chutes (rand_chute e)) = Ok (Some chute) ->
  get_random_text_payload self e (name chute) "chat" = Ok payload ->
  outcome (_perform_request chute payload chat_url (post e)) = Ok None ->
  outcome (_perform_chat self chutes e) = Raise TypeError /\
  outcome (perform_synthetic self e) = Raise TypeError /\
  count is_open (trace_of (perform_synthetic self e)) = 0 /\
  committed (trace_of (perform_synthetic self e)) = [].
Proof.
  intros Hfleet Hchute Hpayload Hnone.
  pose proof (_perform_chat_len_of_none _ _ _ _ _ Hchute Hpayload Hnone) as Hchat.
  pose proof (_perform_chat_quiet self chutes e) as Hq.
  split; [exact Hchat |].
  rewrite (perform_synthetic_without_rows _ _ _ Hfleet)
    by (intros first rest; rewrite Hchat; discriminate).
  rewrite Hchat. cbn [outcome snd trace_of fst].
  split; [reflexivity |]. split.
  - apply (quiet_count is_open); [intros [] Hk; (discriminate || reflexivity) | exact Hq].
  - apply quiet_committed. exact Hq.
Qed.

(** X13.  When the stream went through without any routing event, the
    request returns the empty list; the cycle logs a count of zero and
    ends normally without opening a session. *)
Theorem empty_result_is_not_persisted
    (self : Auditor) (e : Env) (chutes : list Chute) (chute : Chute) (payload : Payload) :
  fleet e = Ok chutes ->
  outcome (_get_vllm_chute chutes (rand_chute e)) = Ok (Some chute) ->
  get_random_text_payload self e (name chute) "chat" = Ok payload ->
  outcome (_perform_request chute payload chat_url (post e)) = Ok (Some []) ->
  outcome (perform_synthetic self e) = Ok tt /\
  In (Log INFO (ChatGenerated 0)) (trace_of (perform_synthetic self e)) /\
  count is_open (trace_of (perform_synthetic self e)) = 0 /\
  committed (trace_of (perform_synthetic self e)) = [].
Proof.
  intros Hfleet Hchute Hpayload Hempty.
  pose proof (_perform_chat_quiet self chutes e) as Hq.
  assert (Hchat : outcome (_perform_chat self chutes e) = Ok (Some [])
                  /\ In (Log INFO (ChatGenerated 0)) (trace_of (_perform_chat self chutes e))).
  { unfold _perform_chat.
    destruct (_get_vllm_chute chutes (rand_chute e)) as [tv rv]. cbn [outcome snd] in Hchute.
    subst rv. rewrite bind_ok. cbv beta iota. rewrite Hpayload, bind_lift_ok.
    destruct (_perform_request chute payload chat_url (post e)) as [tr rr].
    cbn [outcome snd] in Hempty. subst rr. cbn.
    split; [reflexivity |]. rewrite !in_app_iff. right. right. left. reflexivity. }
  destruct Hchat as [Hchat Hlog].
  rewrite (perform_synthetic_without_rows _ _ _ Hfleet)
    by (intros first rest; rewrite Hchat; discriminate).
  rewrite Hchat. cbn [outcome snd trace_of fst].
  split; [reflexivity |]. split; [right; right; exact Hlog |]. split.
  - apply (quiet_count is_open); [intros [] Hk; (discriminate || reflexivity) | exact Hq].
  - apply quiet_committed. exact Hq.
Qed.

Lemma count_added (kind : event -> bool) (rows : list Synthetic) :
  (forall row, kind (SessionAdd row) = false) ->
  count kind (map SessionAdd rows) = 0.
Proof.
  intros Hkind. unfold count. induction rows as [| row rows IH]; [reflexivity |].
  cbn [map filter]. rewrite Hkind. exact IH.
Qed.

(** X14.  Whatever happens in a cycle, it opens at most one session, and
    a session that was opened is closed (by [get_session] and again by the
    block of [SessionLocal]), also when a commit fails. *)
Theorem session_is_always_closed (self : Auditor) (e : Env) :
  count is_open (trace_of (perform_synthetic self e)) <= 1 /\
  count is_close (trace_of (perform_synthetic self e))
  = 2 * count is_open (trace_of (perform_synthetic self e)).
Proof.
  destruct (fleet e) as [chutes | x] eqn:Hfleet.
  2:{ rewrite (perform_synthetic_unloaded _ _ _ Hfleet). cbn. lia. }
  pose proof (_perform_chat_quiet self chutes e) as Hq.
  assert (Hopen : count is_open (trace_of (_perform_chat self chutes e)) = 0).
  { apply (quiet_count is_open); [intros [] Hk; (discriminate || reflexivity) | exact Hq]. }
  assert (Hclose : count is_close (trace_of (_perform_chat self chutes e)) = 0).
  { apply (quiet_count is_close); [intros [] Hk; (discriminate || reflexivity) | exact Hq]. }
  destruct (outcome (_perform_chat self chutes e)) as [[[| first rest] |] | x] eqn:Hchat.
  2:{ rewrite (perform_synthetic_with_rows _ _ _ _ _ Hfleet Hchat), session_run.
      cbv zeta.
      destruct (commit_inner e), (commit_outer e); cbn [trace_of fst outcome snd];
        change (Log DEBUG LoadingChutes :: Log INFO (Attempting "chat")
                  :: trace_of (_perform_chat self chutes e))
          with ([Log DEBUG LoadingChutes; Log INFO (Attempting "chat")]
                  ++ trace_of (_perform_chat self chutes e));
        rewrite !count_app, Hopen, Hclose;
        change (SessionOpen :: map SessionAdd (first :: rest) ++ ?l)
          with ([SessionOpen] ++ map SessionAdd (first :: rest) ++ l);
        rewrite !count_app, !count_added by reflexivity; cbn; lia. }
  all: rewrite (perform_synthetic_without_rows _ _ _ Hfleet)
         by (intros first rest; rewrite Hchat; discriminate);
       cbn [trace_of fst];
       change (Log DEBUG LoadingChutes :: Log INFO (Attempting "chat")
                 :: trace_of (_perform_chat self chutes e))
         with ([Log DEBUG LoadingChutes; Log INFO (Attempting "chat")]
                 ++ trace_of (_perform_chat self chutes e));
       rewrite !count_app, Hopen, Hclose; cbn; lia.
Qed.

End CycleFacts.

(** ** One request per cycle, and the loop *)

Section LoopFacts.
Context `{Pydantic}.

Lemma _get_vllm_chute_only_logs chutes r :
  only_logs (trace_of (_get_vllm_chute chutes r)) = true.
Proof.
  unfold _get_vllm_chute. destruct (filter _ chutes); [reflexivity |].
  apply only_logs_bind; [reflexivity | reflexivity].
Qed.

Lemma _perform_request_counts chute payload url answer :
  count is_post (trace_of (_perform_request chute payload url answer)) = 1 /\
  count is_sleep (trace_of (_perform_request chute payload url answer)) = 0.
Proof.
  destruct (_perform_request_run chute payload url answer) as [r [rest [-> Hrest]]].
  cbn [trace_of fst].
  change (Log INFO (Invoking (name chute) url) :: Post url payload :: rest)
    with ([Log INFO (Invoking (name chute) url); Post url payload] ++ rest).
  rewrite !count_app.
  rewrite (only_logs_count is_post rest (fun _ _ => eq_refl) Hrest).
  rewrite (only_logs_count is_sleep rest (fun _ _ => eq_refl) Hrest).
  split; reflexivity.
Qed.

Lemma _perform_chat_counts self chutes e :
  count is_post (trace_of (_perform_chat self chutes e)) <= 1 /\
  count is_sleep (trace_of (_perform_chat self chutes e)) = 0.
Proof.
  unfold _perform_chat. rewrite !count_bind.
  pose proof (_get_vllm_chute_only_logs chutes (rand_chute e)) as Hv.
  rewrite (only_logs_count is_post _ (fun _ _ => eq_refl) Hv).
  rewrite (only_logs_count is_sleep _ (fun _ _ => eq_refl) Hv).
  destruct (outcome (_get_vllm_chute chutes (rand_chute e))) as [[chute |] | x];
    [| cbn; lia | cbn; lia].
  rewrite !count_bind. cbn [trace_of lift fst outcome snd].
  destruct (get_random_text_payload self e (name chute) "chat") as [payload | x];
    [| cbn; lia].
  rewrite !count_bind.
  destruct (_perform_request_counts chute payload chat_url (post e)) as [-> ->].
  destruct (outcome (_perform_request chute payload chat_url (post e))) as [rows | x];
    [| cbn; lia].
  rewrite !count_bind. cbn [trace_of lift fst outcome snd].
  destruct (py_len rows); cbn; lia.
Qed.

Lemma perform_synthetic_counts self e :
  count is_post (trace_of (perform_synthetic self e)) <= 1 /\
  count is_sleep (trace_of (perform_synthetic self e)) = 0.
Proof.
  destruct (fleet e) as [chutes | x] eqn:Hfleet.
  2:{ rewrite (perform_synthetic_unloaded _ _ _ Hfleet). cbn. lia. }
  destruct (_perform_chat_counts self chutes e) as [Hpost Hsleep].
  destruct (outcome (_perform_chat self chutes e)) as [[[| first rest] |] | x] eqn:Hchat.
  2:{ rewrite (perform_synthetic_with_rows _ _ _ _ _ Hfleet Hchat), session_run.
      cbv zeta.
      destruct (commit_inner e), (commit_outer e); cbn [trace_of fst outcome snd];
        change (Log DEBUG LoadingChutes :: Log INFO (Attempting "chat")
                  :: trace_of (_perform_chat self chutes e))
          with ([Log DEBUG LoadingChutes; Log INFO (Attempting "chat")]
                  ++ trace_of (_perform_chat self chutes e));
        rewrite !count_app, Hsleep;
        change (SessionOpen :: map SessionAdd (first :: rest) ++ ?l)
          with ([SessionOpen] ++ map SessionAdd (first :: rest) ++ l);
        rewrite !count_app, !count_added by reflexivity; cbn; lia. }
  all: rewrite (perform_synthetic_without_rows _ _ _ Hfleet)
         by (intros first rest; rewrite Hchat; discriminate);
       cbn [trace_of fst];
       change (Log DEBUG LoadingChutes :: Log INFO (Attempting "chat")
                 :: trace_of (_perform_chat self chutes e))
         with ([Log DEBUG LoadingChutes; Log INFO (Attempting "chat")]
                 ++ trace_of (_perform_chat self chutes e));
       rewrite !count_app, Hsleep; cbn; lia.
Qed.

(** X15.  A cycle sends at most one request to the probe endpoint,
    whatever the outcome (nothing is retried), and never sleeps; [run]
    performs one such cycle and returns, also while [_running] is set: it
    never enters the loop. *)
Theorem cycle_posts_at_most_once (self : Auditor) (e : Env) :
  count is_post (trace_of (perform_synthetic self e)) <= 1 /\
  count is_sleep (trace_of (perform_synthetic self e)) = 0 /\
  (forall create_all,
     count is_post (trace_of (run self create_all e)) <= 1 /\
     count is_sleep (trace_of (run self create_all e)) = 0 /\
     (create_all = Ok tt -> run self create_all e = perform_synthetic self e) /\
     (forall x, create_all = Raise x -> run self create_all e = raise x)).
Proof.
  destruct (perform_synthetic_counts self e) as [Hpost Hsleep].
  split; [exact Hpost |]. split; [exact Hsleep |].
  intros create_all. unfold run.
  destruct create_all as [[] | x].
  - rewrite bind_lift_ok. repeat split; try assumption. intros x Hx. discriminate.
  - rewrite bind_lift_raise. cbn. repeat split; try lia.
    + intros Hx. discriminate.
    + intros x' Hx. injection Hx as <-. reflexivity.
Qed.

(** X16.  In the loop, a cycle that raises is the last one: the loop ends
    with its exception, without the sleep and without the cycles that
    would follow. *)
Theorem raising_cycle_ends_the_loop
    (self : Auditor) (earlier : list Env) (e : Env) (later : list Env) (x : exn) :
  _running self = true ->
  outcome (perform_synthetic self e) = Raise x ->
  perform_synthetics self (e :: later) = perform_synthetic self e /\
  perform_synthetics self (earlier ++ e :: later)
  = perform_synthetics self (earlier ++ [e]) /\
  (outcome (perform_synthetics self earlier) = Ok tt ->
   outcome (perform_synthetics self (earlier ++ e :: later)) = Raise x).
Proof.
  intros Hrun Hraise.
  assert (Hone : forall rest, perform_synthetics self (e :: rest) = perform_synthetic self e).
  { intros rest. cbn [perform_synthetics]. rewrite Hrun, (raised_run _ _ Hraise).
    reflexivity. }
  split; [apply Hone |]. split.
  - rewrite !perform_synthetics_app, !Hone. reflexivity.
  - intros Hearlier. rewrite perform_synthetics_app, outcome_bind, Hearlier, Hone.
    exact Hraise.
Qed.


End LoopFacts.

(** ** The choice of the chute and the payload *)

Lemma random_choice_in {A} (r : nat) (l : list A) (x : A) :
  random_choice r l = Ok x -> In x l.
Proof.
  unfold random_choice. destruct l as [| a l]; [discriminate |].
  destruct (nth_error (a :: l) (r mod length (a :: l))) as [y |] eqn:Hn; [| discriminate].
  intros Hx. injection Hx as <-. exact (nth_error_In _ _ Hn).
Qed.

Lemma random_choice_some {A} (r : nat) (l : list A) :
  l <> [] -> exists x, random_choice r l = Ok x.
Proof.
  intros Hl. unfold random_choice. destruct l as [| a l]; [contradiction |].
  destruct (nth_error (a :: l) (r mod length (a :: l))) as [y |] eqn:Hn.
  - exists y. reflexivity.
  - exfalso. apply nth_error_None in Hn.
    pose proof (Nat.mod_upper_bound r (length (a :: l)) ltac:(simpl; lia)). lia.
Qed.

Lemma randint_bounds (a b r : Z) : (a <= b -> a <= randint a b r <= b)%Z.
Proof.
  intros Hab. unfold randint.
  pose proof (Z.mod_pos_bound r (b - a + 1) ltac:(lia)). lia.
Qed.

Lemma copy_messages (row : list Message) :
  map (fun message => mkMessage (msg_role message) (msg_content message)) row = row.
Proof.
  induction row as [| [role content] row IH]; [reflexivity |].
  cbn [map msg_role msg_content]. rewrite IH. reflexivity.
Qed.

Lemma eligible_spec (chute : Chute) :
  eligible chute = true <->
  standard_template chute = Some "vllm" /\ is_hot chute = true /\ name chute = vllm_name.
Proof.
  unfold eligible. rewrite !andb_true_iff. split.
  - intros [[Ht Hh] Hn]. destruct (standard_template chute) as [t |]; [| discriminate].
    apply String.eqb_eq in Ht, Hn. subst t. auto.
  - intros [Ht [Hh Hn]]. rewrite Ht, Hh, Hn, !String.eqb_refl. auto.
Qed.

Lemma _get_vllm_chute_filter (chutes : list Chute) (r : nat) :
  _get_vllm_chute chutes r =
  match filter eligible chutes with
  | [] => ([Log WARNING NoVllmChutes], Ok None)
  | c :: l =>
      match random_choice r (c :: l) with
      | Ok chute => ([], Ok (Some chute))
      | Raise x => ([], Raise x)
      end
  end.
Proof.
  unfold _get_vllm_chute.
  change (filter _ chutes) with (filter eligible chutes).
  destruct (filter eligible chutes) as [| c l]; [reflexivity |].
  destruct (random_choice r (c :: l)); reflexivity.
Qed.

(** X18.  The chute [_get_vllm_chute] returns is one of the directory, of
    the vllm template, with an instance both active and verified, and of
    the model name the probe is pinned to; and nothing is logged. *)
Theorem selected_chute_is_eligible (chutes : list Chute) (r : nat) (chute : Chute) :
  outcome (_get_vllm_chute chutes r) = Ok (Some chute) ->
  In chute chutes /\
  standard_template chute = Some "vllm" /\
  is_hot chute = true /\
  name chute = vllm_name /\
  trace_of (_get_vllm_chute chutes r) = [].
Proof.
  rewrite _get_vllm_chute_filter.
  destruct (filter eligible chutes) as [| c l] eqn:Hf; [discriminate |].
  destruct (random_choice r (c :: l)) as [chute' | x] eqn:Hc; [| discriminate].
  intros Ho. injection Ho as <-.
  apply random_choice_in in Hc. rewrite <- Hf in Hc.
  apply filter_In in Hc as [Hin Hel]. apply eligible_spec in Hel.
  destruct Hel as [Ht [Hh Hn]]. repeat split; assumption.
Qed.

(** X19.  Whatever the draw, [_get_vllm_chute] never raises: when some
    chute of the directory is eligible it returns one without a warning;
    when none is (none hot, or none of the pinned name or template) it
    warns and returns [None]; a single eligible chute is always the one
    returned. *)
Theorem eligible_chute_is_always_selected (chutes : list Chute) :
  ((exists chute, In chute chutes /\ eligible chute = true) ->
   forall r, exists chute', _get_vllm_chute chutes r = ([], Ok (Some chute'))) /\
  ((forall chute, In chute chutes -> eligible chute = false) ->
   forall r, _get_vllm_chute chutes r = ([Log WARNING NoVllmChutes], Ok None)) /\
  (forall chute,
     In chute chutes -> eligible chute = true ->
     (forall other, In other chutes -> eligible other = true -> other = chute) ->
     forall r, _get_vllm_chute chutes r = ([], Ok (Some chute))).
Proof.
  assert (Hsome : (exists chute, In chute chutes /\ eligible chute = true) ->
                  forall r, exists chute', _get_vllm_chute chutes r = ([], Ok (Some chute'))).
  { intros [chute [Hin Hel]] r. rewrite _get_vllm_chute_filter.
    destruct (filter eligible chutes) as [| c l] eqn:Hf.
    - exfalso. assert (Hc : In chute (filter eligible chutes))
        by (apply filter_In; split; assumption).
      rewrite Hf in Hc. exact Hc.
    - destruct (random_choice_some r (c :: l) ltac:(discriminate)) as [chute' ->].
      exists chute'. reflexivity. }
  split; [exact Hsome |]. split.
  - intros Hnone r. rewrite _get_vllm_chute_filter, (filter_nil_when _ _ Hnone).
    reflexivity.
  - intros chute Hin Hel Huniq r.
    destruct (Hsome (ex_intro _ chute (conj Hin Hel)) r) as [chute' Hrun].
    rewrite Hrun. f_equal. f_equal. f_equal.
    assert (Ho : outcome (_get_vllm_chute chutes r) = Ok (Some chute'))
      by (rewrite Hrun; reflexivity).
    rewrite _get_vllm_chute_filter in Ho.
    destruct (filter eligible chutes) as [| c l] eqn:Hf; [discriminate |].
    destruct (random_choice r (c :: l)) as [c' | x] eqn:Hc; [| discriminate].
    injection Ho as <-. apply random_choice_in in Hc. rewrite <- Hf in Hc.
    apply filter_In in Hc as [Hin' Hel']. exact (Huniq _ Hin' Hel').
Qed.

(** X20.  The row of the corpus is drawn with [randint(0, len)], both
    ends included: the draw of [len] raises [IndexError] (always so on an
    empty corpus); any other draw gives, for the chat endpoint, a payload
    with the messages of the row, no prompt, streaming and logprobs on, a
    seed between 0 and 1000000000 and between 5 and 20 tokens. *)
Theorem chat_payload_is_well_formed (self : Auditor) (e : Env) (m : string) :
  let n := Z.of_nat (length (text_prompts self)) in
  let i := randint 0 n (rand_prompt e) in
  (0 <= i <= n)%Z /\
  (i = n -> get_random_text_payload self e m "chat" = Raise IndexError) /\
  ((i < n)%Z ->
   exists row,
     nth_error (text_prompts self) (Z.to_nat i) = Some row /\
     get_random_text_payload self e m "chat"
     = Ok {| model := m; messages := Some row; prompt := None;
             temperature := Qplus (rand_random e) (1 # 10);
             seed := randint 0 1000000000 (rand_seed e);
             max_tokens := randint 5 20 (rand_max_tokens e);
             stream := true; logprobs := true |} /\
     (0 <= randint 0 1000000000 (rand_seed e) <= 1000000000)%Z /\
     (5 <= randint 5 20 (rand_max_tokens e) <= 20)%Z).
Proof.
  intros n i.
  assert (Hi : (0 <= i <= n)%Z) by (apply randint_bounds; unfold n; lia).
  split; [exact Hi |]. split.
  - intros Hn. unfold get_random_text_payload, py_index. fold n. fold i.
    rewrite (proj2 (nth_error_None _ _)); [reflexivity |]. unfold n in Hn. lia.
  - intros Hlt.
    destruct (nth_error (text_prompts self) (Z.to_nat i)) as [row |] eqn:Hrow.
    2:{ apply nth_error_None in Hrow. unfold n in Hlt. lia. }
    exists row. split; [reflexivity |]. split.
    + unfold get_random_text_payload, py_index. fold n. fold i. rewrite Hrow.
      cbn [rbind String.eqb Ascii.eqb Bool.eqb negb]. rewrite copy_messages. reflexivity.
    + split; apply randint_bounds; lia.
Qed.

(** X21.  For another endpoint the payload carries, instead of the
    messages, the content of the first message of the row as its prompt;
    a row without message raises [IndexError]. *)
Theorem prompt_payload_takes_first_message
    (self : Auditor) (e : Env) (m endpoint : string) (row : list Message) :
  endpoint <> "chat" ->
  nth_error (text_prompts self)
    (Z.to_nat (randint 0 (Z.of_nat (length (text_prompts self))) (rand_prompt e)))
  = Some row ->
  match row with
  | [] => get_random_text_payload self e m endpoint = Raise IndexError
  | first :: _ =>
      get_random_text_payload self e m endpoint
      = Ok {| model := m; messages := None; prompt := Some (msg_content first);
              temperature := Qplus (rand_random e) (1 # 10);
              seed := randint 0 1000000000 (rand_seed e);
              max_tokens := randint 5 20 (rand_max_tokens e);
              stream := true; logprobs := true |}
  end.
Proof.
  intros Hne Hrow. unfold get_random_text_payload, py_index. rewrite Hrow.
  cbn [rbind]. rewrite copy_messages.
  destruct (String.eqb_spec endpoint "chat") as [Heq | _]; [contradiction |].
  cbn [negb]. destruct row as [| first rest]; reflexivity.
Qed.

(** ** The image prompt *)

Lemma lstrip_kept (a : ascii) (s : string) :
  match s with
  | EmptyString => True
  | String b _ => b <> a
  end ->
  lstrip a s = s.
Proof.
  destruct s as [| b s]; [reflexivity |]. intros Hb. cbn [lstrip].
  destruct (Ascii.eqb_spec b a); [contradiction | reflexivity].
Qed.

Lemma rstrip_kept (a b : ascii) (s : string) :
  last_char s = Some b -> b <> a -> rstrip a s = s.
Proof.
  intros Hlast Hb. induction s as [| c s IH]; [discriminate |].
  cbn [rstrip]. destruct s as [| d s].
  - cbn in Hlast. injection Hlast as ->. cbn [rstrip].
    destruct (Ascii.eqb_spec b a); [contradiction | reflexivity].
  - rewrite IH by exact Hlast. reflexivity.
Qed.

Lemma rstrip_snoc (a : ascii) (s : string) :
  rstrip a (s ++ String a EmptyString)%string = rstrip a s.
Proof.
  induction s as [| c s IH].
  - cbn. rewrite Ascii.eqb_refl. reflexivity.
  - cbn [append rstrip]. rewrite IH. reflexivity.
Qed.

Lemma no_quote_kept (s : string) :
  all_chars (fun a => negb (Ascii.eqb a double_quote)) s = true ->
  lstrip double_quote s = s /\ rstrip double_quote s = s /\ unescape_quotes s = s.
Proof.
  induction s as [| b s IH]; [repeat split |].
  cbn [all_chars]. intros Hs. apply andb_true_iff in Hs as [Hb Hs].
  apply negb_true_iff in Hb. destruct (IH Hs) as [_ [Hr Hu]].
  split; [cbn [lstrip]; rewrite Hb; reflexivity |]. split.
  - cbn [rstrip]. rewrite Hr. destruct s; [rewrite Hb |]; reflexivity.
  - cbn [unescape_quotes]. destruct s as [| c s]; [reflexivity |].
    cbn [all_chars] in Hs. apply andb_true_iff in Hs as [Hc _].
    apply negb_true_iff in Hc. rewrite Hc, andb_false_r, Hu. reflexivity.
Qed.

Lemma escape_head (p : string) :
  match escape_quotes p with
  | EmptyString => True
  | String y _ => y <> double_quote
  end.
Proof.
  destruct p as [| x p]; [exact I |]. cbn [escape_quotes].
  destruct (Ascii.eqb_spec x double_quote) as [-> | Hx]; [discriminate | exact Hx].
Qed.

Lemma unescape_escape (p : string) : unescape_quotes (escape_quotes p) = p.
Proof.
  induction p as [| x p IH]; [reflexivity |]. cbn [escape_quotes].
  destruct (Ascii.eqb_spec x double_quote) as [-> | Hx].
  - cbn [unescape_quotes]. rewrite !Ascii.eqb_refl, IH. reflexivity.
  - pose proof (escape_head p) as Hhead. cbn [unescape_quotes].
    destruct (escape_quotes p) as [| y s] eqn:He.
    + destruct p as [| z p]; [reflexivity |]. cbn [escape_quotes] in He.
      destruct (Ascii.eqb z double_quote); discriminate.
    + destruct (Ascii.eqb_spec y double_quote) as [Hy | _]; [contradiction |].
      rewrite andb_false_r, IH. reflexivity.
Qed.

Lemma escape_last (p : string) (b : ascii) :
  last_char p = Some b -> b <> double_quote -> last_char (escape_quotes p) = Some b.
Proof.
  intros Hlast Hb. induction p as [| x p IH]; [discriminate |].
  destruct p as [| y p].
  - cbn in Hlast. injection Hlast as ->. cbn [escape_quotes].
    destruct (Ascii.eqb_spec b double_quote); [contradiction | reflexivity].
  - specialize (IH Hlast). cbn [escape_quotes] in *.
    destruct (Ascii.eqb x double_quote), (Ascii.eqb y double_quote);
      cbn [last_char] in *; exact IH.
Qed.

(** X22.  The image prompt is drawn like the text row: the draw of [len]
    raises [IndexError]; and a prompt that holds no double quote is
    returned as it is. *)
Theorem plain_image_prompt_is_unchanged (image_prompts : list string) (r : Z) :
  let n := Z.of_nat (length image_prompts) in
  let i := randint 0 n r in
  (0 <= i <= n)%Z /\
  (i = n -> get_random_image_prompt image_prompts r = Raise IndexError) /\
  (forall prompt,
     nth_error image_prompts (Z.to_nat i) = Some prompt ->
     all_chars (fun a => negb (Ascii.eqb a double_quote)) prompt = true ->
     get_random_image_prompt image_prompts r = Ok prompt).
Proof.
  intros n i.
  split; [apply randint_bounds; unfold n; lia |]. split.
  - intros Hn. unfold get_random_image_prompt, py_index. fold n. fold i.
    rewrite (proj2 (nth_error_None _ _)); [reflexivity |]. unfold n in Hn. lia.
  - intros prompt Hrow Hplain. unfold get_random_image_prompt, py_index.
    fold n. fold i. rewrite Hrow. cbn [rbind].
    destruct (no_quote_kept prompt Hplain) as [-> [-> ->]]. reflexivity.
Qed.

(** X23.  The function undoes the quoted form of a prompt (the prompt
    between double quotes, its own double quotes escaped with a
    backslash), provided the prompt does not end with a double quote. *)
Theorem image_prompt_is_unquoted (image_prompts : list string) (r : Z) (p : string) :
  nth_error image_prompts
    (Z.to_nat (randint 0 (Z.of_nat (length image_prompts)) r))
  = Some (quoted_form p) ->
  last_char p <> Some double_quote ->
  get_random_image_prompt image_prompts r = Ok p.
Proof.
  intros Hrow Hlast. unfold get_random_image_prompt, py_index. rewrite Hrow.
  cbn [rbind]. f_equal. unfold quoted_form. cbn [lstrip].
  rewrite Ascii.eqb_refl.
  destruct p as [| x p]; [reflexivity |].
  destruct (last_char (String x p)) as [b |] eqn:Hb.
  2:{ exfalso. clear -Hb. revert x Hb. induction p as [| y p IH]; intros x Hb;
        [discriminate | exact (IH y Hb)]. }
  assert (Hne : b <> double_quote) by congruence.
  pose proof (escape_last _ _ Hb Hne) as Hel.
  pose proof (escape_head (String x p)) as Hhead.
  destruct (escape_quotes (String x p)) as [| y s] eqn:He; [discriminate |].
  rewrite lstrip_kept by exact Hhead.
  rewrite rstrip_snoc, (rstrip_kept _ _ _ Hel Hne), <- He.
  apply unescape_escape.
Qed.

(** ** Routing lines and their timestamp *)

Section Stamps.
Context `{Pydantic}.

(** X24.  What the loop does with a routing line is decided by the
    timestamp of its trace: with a string timestamp it logs the line and
    appends the record; without timestamp [_debug_target] raises
    [KeyError], with a timestamp that is no string [TypeError], and then
    the request returns [None] wherever the line stands in the stream. *)
Theorem timestamp_decides_the_routing_line (line : Chunk) (t : Target) :
  routing_event line t ->
  exists o trace,
    loads line = Some (JObj o) /\ assoc "trace" o = Some (JObj trace) /\
    match assoc "timestamp" trace with
    | Some (JStr ts) =>
        timestamped line /\
        forall parent_id chute synthetics,
          process_chunk parent_id chute synthetics line
          = ([Log INFO (TargetTrace ts)],
             Ok (synthetics ++ [new_synthetic parent_id chute t]))
    | other =>
        let x := match other with
                 | None => KeyError "timestamp"
                 | Some _ => TypeError
                 end in
        (forall parent_id chute synthetics,
           outcome (process_chunk parent_id chute synthetics line) = Raise x) /\
        (forall chute payload url resp,
           In line (content resp) ->
           outcome (_perform_request chute payload url (Ok resp)) = Ok None)
    end.
Proof.
  intros [Hf [data [Hl He]]].
  destruct (_extract_target_inv _ _ He)
    as [o [trace [msg [gs [inv [-> [Htr [Hm [Hs [Hv Ht]]]]]]]]]].
  exists o, trace. split; [exact Hl |]. split; [exact Htr |].
  assert (Hd : _debug_target (JObj o) =
               match assoc "timestamp" trace with
               | Some (JStr ts) => ([Log INFO (TargetTrace ts)], Ok tt)
               | Some _ => ([], Raise TypeError)
               | None => ([], Raise (KeyError "timestamp"))
               end).
  { unfold _debug_target. cbn [py_getitem]. rewrite Htr, bind_lift_ok.
    cbn [py_getitem]. rewrite Hm.
    destruct (assoc "timestamp" trace) as [[| b | q | ts | l | tr'] |]; reflexivity. }
  assert (Hstep : forall parent_id chute synthetics,
            process_chunk parent_id chute synthetics line
            = (_ <- _debug_target (JObj o) ;;
               ret (synthetics ++ [new_synthetic parent_id chute t]))%monad).
  { intros parent_id chute synthetics.
    rewrite (process_chunk_framed _ _ _ _ _ Hf Hl), He, !bind_lift_ok. reflexivity. }
  assert (Hbad : forall x,
            outcome (_debug_target (JObj o)) = Raise x ->
            (forall parent_id chute synthetics,
               outcome (process_chunk parent_id chute synthetics line) = Raise x) /\
            (forall chute payload url resp,
               In line (content resp) ->
               outcome (_perform_request chute payload url (Ok resp)) = Ok None)).
  { intros x Hx.
    assert (Hraise : forall parent_id chute synthetics,
              outcome (process_chunk parent_id chute synthetics line) = Raise x).
    { intros parent_id chute synthetics. rewrite Hstep, outcome_bind, Hx. reflexivity. }
    split; [exact Hraise |].
    intros chute payload url resp Hin.
    apply (_perform_request_poisoned _ _ _ _ line Hin).
    intros parent_id synthetics. exists x. apply Hraise. }
  destruct (assoc "timestamp" trace) as [[| b | q | ts | l | tr'] |];
    try (apply Hbad; rewrite Hd; reflexivity).
  split.
  - exists (JObj o). split; [exact Hl |]. rewrite Hd. reflexivity.
  - intros parent_id chute synthetics. rewrite Hstep, Hd. reflexivity.
Qed.

(** X25.  An error line that comes twice for the same record does what
    it does once: the flag of the last record is raised and stays so. *)
Theorem repeated_error_event_is_idempotent
    (parent_id : string) (chute : Chute) (earlier : list Synthetic) (last : Synthetic)
    (c : Chunk) (t : Target) :
  routing_error_event c t ->
  instance_id t = syn_instance_id last ->
  invocation_id t = syn_invocation_id last ->
  outcome (consume parent_id chute [c; c] (earlier ++ [last]))
  = Ok (earlier ++ [with_error last]) /\
  outcome (consume parent_id chute [c; c] (earlier ++ [last]))
  = outcome (consume parent_id chute [c] (earlier ++ [last])).
Proof.
  intros Hev Hi Hv.
  assert (Hone : outcome (consume parent_id chute [c] (earlier ++ [last]))
                 = Ok (earlier ++ [with_error last])).
  { rewrite outcome_consume_cons, (process_chunk_error_match _ _ _ _ _ _ Hev Hi Hv).
    reflexivity. }
  assert (Htwo : outcome (consume parent_id chute [c; c] (earlier ++ [last]))
                 = Ok (earlier ++ [with_error last])).
  { rewrite outcome_consume_cons, (process_chunk_error_match _ _ _ _ _ _ Hev Hi Hv).
    rewrite outcome_consume_cons.
    rewrite (process_chunk_error_match _ _ earlier (with_error last) c t Hev Hi Hv).
    reflexivity. }
  split; [exact Htwo | rewrite Htwo, Hone; reflexivity].
Qed.

End Stamps.

(** ** The further properties on the sample data *)

(** X1, on the routing line of A. *)
Lemma extracted_fields_are_tokens_witness :
  instance_id Sample.target_a <> "" /\
  all_chars Re.not_space (instance_id Sample.target_a) = true /\
  uid Sample.target_a <> "" /\ all_chars Re.digit_or_plus (uid Sample.target_a) = true /\
  hotkey Sample.target_a <> "" /\ all_chars Re.not_space (hotkey Sample.target_a) = true /\
  error Sample.target_a = None.
Proof.
  apply (proj1 extracted_fields_are_tokens
           (Sample.trace_json [("invocation_id", "inv-a");
                               ("message", "query target=inst-a uid=7 hotkey=5Fa")])).
  reflexivity.
Defined.

(** X2, on an error line whose coldkey token holds colons. *)
Lemma extract_target_error_reads_error_line_witness :
  routing_error_event More.error_colons
    (mkTarget "inst-a" "inv-a" "7" "5Fa" (Some "upstream: timed out")).
Proof.
  apply (extract_target_error_reads_error_line
           "inst-a" "7" "5Fa" "5C:a:" "upstream: timed out" "" "inv-a"
           [("trace", JObj [("timestamp", JStr "2025-02-01T10:00:01.250");
                            ("invocation_id", JStr "inv-a");
                            ("message", JStr "error encountered while querying target=inst-a uid=7 hotkey=5Fa coldkey=5C:a:: upstream: timed out")])]
           [("timestamp", JStr "2025-02-01T10:00:01.250");
            ("invocation_id", JStr "inv-a");
            ("message", JStr "error encountered while querying target=inst-a uid=7 hotkey=5Fa coldkey=5C:a:: upstream: timed out")]);
    try reflexivity; try discriminate.
Defined.

(** X3, on the routing line of A. *)
Lemma classification_needs_its_marker_witness :
  exists o trace msg,
    Sample.trace_json [("invocation_id", "inv-a");
                       ("message", "query target=inst-a uid=7 hotkey=5Fa")] = JObj o /\
    assoc "trace" o = Some (JObj trace) /\
    assoc "message" trace = Some (JStr msg) /\
    occurs "query target=" msg = true.
Proof.
  apply (proj1 classification_needs_its_marker _ Sample.target_a). reflexivity.
Defined.

(** X4, on a blank line, the routing line of B and its error, after the record of A. *)
Lemma records_are_append_only_witness :
  kept [Runs.record_a] [Runs.record_a; with_error Runs.record_b] /\
  length [Runs.record_a] <= length [Runs.record_a; with_error Runs.record_b] /\
  length [Runs.record_a; with_error Runs.record_b]
  <= length [Runs.record_a] + framed_count [Sample.blank; Sample.query_b; Sample.error_b].
Proof.
  apply (records_are_append_only "parent-1" Sample.hot_chute
           [Sample.blank; Sample.query_b; Sample.error_b]).
  reflexivity.
Defined.

(** X5, on two routing lines around a partial result. *)
Lemma clean_stream_raises_no_flag_witness :
  Forall (fun row => syn_has_error row = false) [Runs.record_a; Runs.record_b].
Proof.
  apply (clean_stream_raises_no_flag "parent-1" Sample.hot_chute
           [Sample.query_a; Sample.partial_result; Sample.query_b]) with (synthetics := []).
  - intros c t Hin [_ [data [Hl [_ Hx]]]].
    destruct Hin as [<- | [<- | [<- | []]]];
      injection Hl as <-; discriminate Hx.
  - constructor.
  - reflexivity.
Defined.

(** X7, on the routing line of A and its error. *)
Lemma request_returns_records_iff_witness :
  outcome (_perform_request Sample.hot_chute More.sent chat_url
             (Ok (Sample.ok_response [Sample.query_a; Sample.error_a] None)))
  = Ok (Some [with_error Runs.record_a]).
Proof.
  apply (proj1 (request_returns_records_iff Sample.hot_chute More.sent chat_url _ _)).
  exists (Sample.ok_response [Sample.query_a; Sample.error_a] None), "parent-1".
  repeat split; reflexivity.
Defined.

(** X8, on a blank line and two routing lines. *)
Lemma request_records_belong_to_chute_witness :
  exists resp,
    Ok (Sample.ok_response [Sample.blank; Sample.query_a; Sample.query_b] None) = Ok resp /\
    Forall (fun row => syn_chute_id row = chute_id Sample.hot_chute)
      [Runs.record_a; Runs.record_b] /\
    length [Runs.record_a; Runs.record_b] <= framed_count (content resp).
Proof.
  apply (request_records_belong_to_chute Sample.hot_chute More.sent chat_url).
  reflexivity.
Defined.

(** X9, on a payload that is an array, after the routing line of A. *)
Lemma unreadable_payload_aborts_request_witness :
  outcome (_perform_request Sample.hot_chute More.sent chat_url
             (Ok (Sample.ok_response [Sample.query_a; More.array_line] None)))
  = Ok None.
Proof.
  apply (unreadable_payload_aborts_request More.array_line (JArr [JNum 1])
           ltac:(reflexivity) ltac:(reflexivity) ltac:(reflexivity)).
  right. left. reflexivity.
Defined.



(** X12, on a cycle whose stream breaks. *)
Lemma failed_request_raises_out_of_cycle_witness :
  outcome (_perform_chat Sample.auditor [Sample.hot_chute] Runs.interrupted)
  = Raise TypeError /\
  outcome (perform_synthetic Sample.auditor Runs.interrupted) = Raise TypeError /\
  count is_open (trace_of (perform_synthetic Sample.auditor Runs.interrupted)) = 0 /\
  committed (trace_of (perform_synthetic Sample.auditor Runs.interrupted)) = [].
Proof.
  apply (failed_request_raises_out_of_cycle Sample.auditor Runs.interrupted
           [Sample.hot_chute] Sample.hot_chute More.sent); reflexivity.
Defined.

(** X13, on a cycle whose stream holds no routing line. *)
Lemma empty_result_is_not_persisted_witness :
  outcome (perform_synthetic Sample.auditor More.eventless) = Ok tt /\
  In (Log INFO (ChatGenerated 0)) (trace_of (perform_synthetic Sample.auditor More.eventless)) /\
  count is_open (trace_of (perform_synthetic Sample.auditor More.eventless)) = 0 /\
  committed (trace_of (perform_synthetic Sample.auditor More.eventless)) = [].
Proof.
  apply (empty_result_is_not_persisted Sample.auditor More.eventless
           [Sample.hot_chute] Sample.hot_chute More.sent); reflexivity.
Defined.

(** X15, on a run whose tables are created, and on one where that fails. *)
Lemma cycle_posts_at_most_once_witness :
  run Sample.auditor (Ok tt) More.smooth = perform_synthetic Sample.auditor More.smooth /\
  run Sample.auditor (Raise SQLAlchemyError) More.smooth = raise SQLAlchemyError.
Proof.
  destruct (cycle_posts_at_most_once Sample.auditor More.smooth) as [_ [_ Hrun]].
  split.
  - exact (proj1 (proj2 (proj2 (Hrun (Ok tt)))) eq_refl).
  - exact (proj2 (proj2 (proj2 (Hrun (Raise SQLAlchemyError)))) SQLAlchemyError eq_refl).
Defined.

(** X16, on a refused request between two cycles that would go through. *)
Lemma raising_cycle_ends_the_loop_witness :
  perform_synthetics Sample.auditor [Runs.rejected; More.smooth]
  = perform_synthetic Sample.auditor Runs.rejected /\
  perform_synthetics Sample.auditor ([More.smooth] ++ Runs.rejected :: [More.smooth])
  = perform_synthetics Sample.auditor ([More.smooth] ++ [Runs.rejected]) /\
  (outcome (perform_synthetics Sample.auditor [More.smooth]) = Ok tt ->
   outcome (perform_synthetics Sample.auditor
              ([More.smooth] ++ Runs.rejected :: [More.smooth])) = Raise TypeError).
Proof.
  apply (raising_cycle_ends_the_loop Sample.auditor [More.smooth] Runs.rejected
           [More.smooth] TypeError); reflexivity.
Defined.


(** X18, on a directory with a cold and a hot chute. *)
Lemma selected_chute_is_eligible_witness :
  In Sample.hot_chute [Sample.cold_chute; Sample.hot_chute] /\
  standard_template Sample.hot_chute = Some "vllm" /\
  is_hot Sample.hot_chute = true /\
  name Sample.hot_chute = vllm_name /\
  trace_of (_get_vllm_chute [Sample.cold_chute; Sample.hot_chute] 5) = [].
Proof.
  apply (selected_chute_is_eligible [Sample.cold_chute; Sample.hot_chute] 5 Sample.hot_chute).
  reflexivity.
Defined.

(** X19, on the same directory. *)
Lemma eligible_chute_is_always_selected_witness :
  _get_vllm_chute [Sample.cold_chute; Sample.hot_chute] 0
  = ([], Ok (Some Sample.hot_chute)) /\
  _get_vllm_chute [Sample.cold_chute; Sample.hot_chute] 7
  = ([], Ok (Some Sample.hot_chute)).
Proof.
  assert (W : forall r, _get_vllm_chute [Sample.cold_chute; Sample.hot_chute] r
                        = ([], Ok (Some Sample.hot_chute))).
  { apply (proj2 (proj2 (eligible_chute_is_always_selected
                           [Sample.cold_chute; Sample.hot_chute])) Sample.hot_chute).
    - right. left. reflexivity.
    - reflexivity.
    - intros other [<- | [<- | []]] Hel; [discriminate Hel | reflexivity]. }
  split; apply W.
Defined.

(** X20, on the corpus of the sample. *)
Lemma chat_payload_is_well_formed_witness :
  get_random_text_payload Sample.auditor More.smooth vllm_name "chat" = Ok More.sent /\
  get_random_text_payload Sample.auditor
    (Sample.cycle [Sample.hot_chute] (Ok Sample.rejected_response) None None) vllm_name "chat"
  = Ok More.sent.
Proof.
  destruct (chat_payload_is_well_formed Sample.auditor More.smooth vllm_name)
    as [_ [_ Hrow]].
  destruct (Hrow ltac:(reflexivity)) as [row [Hnth [Hpayload _]]].
  injection Hnth as <-. split; [exact Hpayload | reflexivity].
Defined.

(** X21, on the corpus of the sample. *)
Lemma prompt_payload_takes_first_message_witness :
  get_random_text_payload Sample.auditor More.smooth vllm_name "prompt"
  = Ok {| model := vllm_name; messages := None; prompt := Some "hello";
          temperature := Qplus (1 # 2) (1 # 10); seed := 42; max_tokens := 8;
          stream := true; logprobs := true |}.
Proof.
  apply (prompt_payload_takes_first_message Sample.auditor More.smooth vllm_name "prompt"
           [mkMessage "user" "hello"]); [discriminate | reflexivity].
Defined.

(** X22, on the plain prompt of the sample, and on the draw of the length. *)
Lemma plain_image_prompt_is_unchanged_witness :
  get_random_image_prompt More.image_prompts 1 = Ok "a plain prompt" /\
  get_random_image_prompt More.image_prompts 2 = Raise IndexError.
Proof.
  split.
  - apply (proj2 (proj2 (plain_image_prompt_is_unchanged More.image_prompts 1)));
      reflexivity.
  - apply (proj1 (proj2 (plain_image_prompt_is_unchanged More.image_prompts 2))).
    reflexivity.
Defined.

(** X23, on the quoted prompt of the sample. *)
Lemma image_prompt_is_unquoted_witness :
  get_random_image_prompt More.image_prompts 0
  = Ok ("a " ++ String double_quote "red" ++ String double_quote " fox")%string.
Proof.
  apply image_prompt_is_unquoted; [reflexivity | discriminate].
Defined.

(** X24, on the routing line of A and on the one without timestamp. *)
Lemma timestamp_decides_the_routing_line_witness :
  (exists o trace,
     loads Sample.query_a = Some (JObj o) /\ assoc "trace" o = Some (JObj trace) /\
     assoc "timestamp" trace = Some (JStr "2025-02-01T10:00:00.120") /\
     timestamped Sample.query_a) /\
  outcome (_perform_request Sample.hot_chute More.sent chat_url
             (Ok (Sample.ok_response [Sample.query_b; Sample.query_unstamped] None)))
  = Ok None.
Proof.
  split.
  - destruct (timestamp_decides_the_routing_line Sample.query_a Sample.target_a)
      as [o [trace [Hl [Htr Hcase]]]].
    { split; [reflexivity |]. eexists. split; reflexivity. }
    injection Hl as <-. injection Htr as <-. cbn in Hcase.
    eexists. eexists. split; [reflexivity |]. split; [reflexivity |].
    split; [reflexivity | exact (proj1 Hcase)].
  - destruct (timestamp_decides_the_routing_line Sample.query_unstamped Sample.target_a)
      as [o [trace [Hl [Htr Hcase]]]].
    { split; [reflexivity |]. eexists. split; reflexivity. }
    injection Hl as <-. injection Htr as <-. cbn in Hcase.
    apply (proj2 Hcase). right. left. reflexivity.
Defined.

(** X25, on the error line of A sent twice. *)
Lemma repeated_error_event_is_idempotent_witness :
  outcome (consume "parent-1" Sample.hot_chute [Sample.error_a; Sample.error_a]
             ([] ++ [Runs.record_a]))
  = Ok ([] ++ [with_error Runs.record_a]).
Proof.
  apply (repeated_error_event_is_idempotent "parent-1" Sample.hot_chute [] Runs.record_a
           Sample.error_a (mkTarget "inst-a" "inv-a" "7" "5Fa" (Some "timed out"))).
  - split; [reflexivity |]. eexists. split; [reflexivity |]. split; reflexivity.
  - reflexivity.
  - reflexivity.
Defined.
